(** * Navigation data compiler: runway pairing, airway fragments, derived
      geometry, approach record decoding and the METAR index.

    A shallow embedding of the parts of the compiler that the properties
    below talk about:

    - [Qt]: the [QString] operations the compiler code is written against;
    - [Geo]: the interface of the geodetic primitives (floating point
      arithmetic, positions, rectangles, magnetic model);
    - [Sql]: [QVariant] and [SqlRecord];
    - [Dfd]: [DfdCompiler] (runway pairing, runway writer, airway writer,
      magnetic variation pass, ILS geometry pass, TACAN channel pass,
      procedure rows);
    - [Bgl]: the binary [Approach] record reader;
    - [Metar]: the METAR index;
    - [Nav]: [NavDatabase] (schema scripts, progress steps, post
      processing, basic validation, scenery areas);
    - [Planar], [Sample]: instances of the interfaces to run the code on
      concrete rows and bytes;
    - [PairSpec], [AirwaySpec], [RunwaySpec], [UpdateSpec]: the rules in
      the words of the specification, to compare the code with;
    - [ProcedureCalls], [NavSteps]: what the properties of the procedure
      rows and of the progress steps are stated with. *)

From Stdlib Require Import ZArith String Ascii List Bool Lia.
From stdpp Require Import base gmap strings list.

Local Open Scope Z_scope.

(* ===================================================================== *)
(** ** Qt substrate: QString                                              *)
(* ===================================================================== *)

Module Qt.

(** [QString] is modelled by [string]; all identifiers handled here are
    Latin-1. *)

(** [QString::size]. *)
Definition size (s : string) : Z := Z.of_nat (String.length s).

Fixpoint drop_chars (n : nat) (s : string) : string :=
  match n, s with
  | O, _ => s
  | S _, EmptyString => EmptyString
  | S n', String _ s' => drop_chars n' s'
  end.

Fixpoint take_chars (n : nat) (s : string) : string :=
  match n, s with
  | O, _ => EmptyString
  | S _, EmptyString => EmptyString
  | S n', String c s' => String c (take_chars n' s')
  end.

(** [QString::mid(position)]: the rest of the string from [position]; empty
    when [position] is past the end. *)
Definition mid (s : string) (position : nat) : string := drop_chars position s.

(** [QString::mid(position, n)]: at most [n] characters from [position]. *)
Definition mid_n (s : string) (position n : nat) : string :=
  take_chars n (drop_chars position s).

(** [QString::at(i)] for [i] inside the string (the callers check the size
    first). *)
Definition at_ (s : string) (i : nat) : option ascii := String.get i s.

(** [QChar::isSpace] on the Latin-1 range. *)
Definition isSpace (c : ascii) : bool :=
  let n := Z.of_N (N_of_ascii c) in
  ((9 <=? n) && (n <=? 13)) || (n =? 32) || (n =? 133) || (n =? 160).

Definition digit_val (c : ascii) : option Z :=
  let n := Z.of_N (N_of_ascii c) in
  if (48 <=? n) && (n <=? 57) then Some (n - 48) else None.

Fixpoint digits_val (acc : Z) (s : string) : option Z :=
  match s with
  | EmptyString => Some acc
  | String c s' =>
      match digit_val c with
      | Some d => digits_val (10 * acc + d) s'
      | None => None
      end
  end.

Fixpoint trim_left (s : string) : string :=
  match s with
  | EmptyString => EmptyString
  | String c s' => if isSpace c then trim_left s' else s
  end.

Fixpoint trim_right (s : string) : string :=
  match s with
  | EmptyString => EmptyString
  | String c s' =>
      match trim_right s' with
      | EmptyString => if isSpace c then EmptyString else String c EmptyString
      | r => String c r
      end
  end.

Definition unsigned_val (s : string) : option Z :=
  match s with
  | EmptyString => None
  | _ => digits_val 0 s
  end.

Definition INT_MIN : Z := - 2 ^ 31.
Definition INT_MAX : Z := 2 ^ 31 - 1.

(** [QString::toInt()] in base 10: surrounding white space is ignored, an
    optional sign is followed by decimal digits; the result is 0 when the
    conversion fails or the value does not fit an [int]. *)
Definition toInt (s : string) : Z :=
  let t := trim_right (trim_left s) in
  let r :=
    match t with
    | String "-" t' => option_map Z.opp (unsigned_val t')
    | String "+" t' => unsigned_val t'
    | _ => unsigned_val t
    end in
  match r with
  | Some v => if (INT_MIN <=? v) && (v <=? INT_MAX) then v else 0
  | None => 0
  end.

Definition digit_char (d : Z) : ascii := ascii_of_N (Z.to_N (48 + d)).

Fixpoint number_aux (fuel : nat) (n : Z) (acc : string) : string :=
  let acc' := String (digit_char (n mod 10)) acc in
  match fuel with
  | O => acc'
  | S fuel' => if n <? 10 then acc' else number_aux fuel' (n / 10) acc'
  end.

(** [QString::number(int)]: decimal digits, a minus sign for negatives. *)
Definition number (n : Z) : string :=
  if n <? 0
  then String "-" (number_aux (Z.to_nat (Z.log2 (- n))) (- n) EmptyString)
  else number_aux (Z.to_nat (Z.log2 n)) n EmptyString.

(** [QString::isEmpty]. *)
Definition isEmpty (s : string) : bool :=
  match s with EmptyString => true | _ => false end.

(** [QString::startsWith]. *)
Definition startsWith (s p : string) : bool := String.prefix p s.

End Qt.


(* ===================================================================== *)
(** ** Geodetic primitives: the interface the compiler is written against *)
(* ===================================================================== *)

Module Geo.

(** The compiler computes with single precision floats and with the
    functions of [geo/calculations.h], [geo/pos.h], [geo/rect.h] and the
    magnetic declination reader.  None of these is part of the compiler
    sources embedded here, so they are collected in an interface; the
    compiler code below is generic in it. *)
Class Model := {
  F : Type;                               (* float *)
  F_eq_dec :: EqDecision F;
  ofZ : Z -> F;                           (* int to float conversion *)
  fadd : F -> F -> F;
  fsub : F -> F -> F;
  fdiv : F -> F -> F;
  strToF : string -> F;                   (* QString::toFloat *)
  fround : F -> Z;                        (* QVariant(double).toInt *)
  fstr : F -> string;                     (* QVariant(double).toString *)
  fnonzero : F -> bool;                   (* QVariant(double).toBool *)
  normalizeCourse : F -> F;               (* atools::geo::normalizeCourse *)
  opposedCourseDeg : F -> F;              (* atools::geo::opposedCourseDeg *)
  feetToMeter : F -> F;                   (* atools::geo::feetToMeter *)
  nmToMeter : Z -> F;                     (* atools::geo::nmToMeter on an int *)
  POS_EPSILON_100M : F;                   (* Pos::POS_EPSILON_100M *)
  INVALID_VALUE : F;                      (* coordinate of an invalid Pos *)
}.

Section Positions.
Context `{Model}.

(** [atools::geo::Pos]: longitude, latitude and altitude. *)
Record Pos := mkPos { lonX : F; latY : F; altitude : F }.

(** [Pos(lonx, laty)]: the altitude defaults to zero. *)
Definition Pos2 (x y : F) : Pos := mkPos x y (ofZ 0).

(** [Pos()]: the invalid position. *)
Definition PosInvalid : Pos := mkPos INVALID_VALUE INVALID_VALUE (ofZ 0).

(** [atools::geo::Rect]: top left and bottom right corner. *)
Record Rect := mkRect { topLeft : Pos; bottomRight : Pos }.

(** [Rect(pos)]: the rectangle that is the single point. *)
Definition RectOfPos (p : Pos) : Rect := mkRect p p.

(** [Rect()]: the invalid rectangle. *)
Definition RectInvalid : Rect := mkRect PosInvalid PosInvalid.

End Positions.

(** The operations on positions and rectangles and the magnetic model. *)
Class Ops `{Model} := {
  endpoint : Pos -> F -> F -> Pos;        (* Pos::endpoint(distMeter, angleDeg) *)
  normalize : Pos -> Pos;                 (* Pos::normalize *)
  distanceMeterTo : Pos -> Pos -> F;      (* Pos::distanceMeterTo *)
  inflate : Rect -> F -> F -> Rect;       (* Rect::inflate(degreesLon, degreesLat) *)
  extend : Rect -> Pos -> Rect;           (* Rect::extend(pos) *)
  contains : Rect -> Pos -> Prop;         (* Rect::contains(pos) *)
  getMagVar : Pos -> F;                   (* MagDecReader::getMagVar *)
}.

End Geo.

Import Geo.

(* ===================================================================== *)
(** ** Qt substrate: QVariant and SqlRecord                               *)
(* ===================================================================== *)

Module Sql.
Section Records.
Context `{Model}.

(** [QVariant] as far as database values go.  [VNull] is the null variant
    (a database NULL, [QVariant(QVariant::String)], or the value of a field
    that does not exist). *)
Inductive QVariant :=
| VNull
| VStr (s : string)
| VInt (z : Z)
| VFloat (f : F)
| VBool (b : bool).

#[export] Instance QVariant_eq_dec : EqDecision QVariant.
Proof. solve_decision. Defined.

Definition toString (v : QVariant) : string :=
  match v with
  | VNull => EmptyString
  | VStr s => s
  | VInt z => Qt.number z
  | VFloat f => fstr f
  | VBool true => "true"
  | VBool false => "false"
  end.

Definition toInt (v : QVariant) : Z :=
  match v with
  | VNull => 0
  | VStr s => Qt.toInt s
  | VInt z => z
  | VFloat f => fround f
  | VBool true => 1
  | VBool false => 0
  end.

Definition toFloat (v : QVariant) : F :=
  match v with
  | VNull => ofZ 0
  | VStr s => strToF s
  | VInt z => ofZ z
  | VFloat f => f
  | VBool true => ofZ 1
  | VBool false => ofZ 0
  end.

Definition toBool (v : QVariant) : bool :=
  match v with
  | VNull => false
  | VStr s =>
      negb (Qt.isEmpty s || String.eqb s "0" || String.eqb s "false")
  | VInt z => negb (z =? 0)
  | VFloat f => fnonzero f
  | VBool b => b
  end.

(** Modelled from the spec: [atools::sql::SqlRecord], which is not part of
    the sources here: a row of a tabular source, the ordered fields of one
    row, each a column name and a value.  Column names are the lower case
    names of the schema; the value of a field that does not exist is null. *)
Definition SqlRecord := list (string * QVariant).

Fixpoint value (r : SqlRecord) (name : string) : QVariant :=
  match r with
  | [] => VNull
  | (n, v) :: r' => if String.eqb n name then v else value r' name
  end.

Fixpoint hasField (r : SqlRecord) (name : string) : bool :=
  match r with
  | [] => false
  | (n, _) :: r' => String.eqb n name || hasField r' name
  end.

Definition valueStr (r : SqlRecord) (name : string) : string := toString (value r name).
Definition valueInt (r : SqlRecord) (name : string) : Z := toInt (value r name).
Definition valueFloat (r : SqlRecord) (name : string) : F := toFloat (value r name).

(** [valueBool(name, defaultValue)]: the default when the field is missing. *)
Definition valueBool (r : SqlRecord) (name : string) (dflt : bool) : bool :=
  if hasField r name then toBool (value r name) else dflt.

(** [setValue(name, v)]: sets the first field of that name; no effect when
    there is none. *)
Fixpoint setValue (r : SqlRecord) (name : string) (v : QVariant) : SqlRecord :=
  match r with
  | [] => []
  | (n, w) :: r' =>
      if String.eqb n name then (n, v) :: r' else (n, w) :: setValue r' name v
  end.

(** [appendField(name, type)]: a new null field at the end. *)
Definition appendField (r : SqlRecord) (name : string) : SqlRecord :=
  r ++ [(name, VNull)].

End Records.
End Sql.

Import Sql.

(* ===================================================================== *)
(** ** DfdCompiler                                                        *)
(* ===================================================================== *)

Module Dfd.

(** *** pairRunways: the opposed runway name *)

(** The body of the loop of [DfdCompiler::pairRunways] from
    [rname = rwident.mid(2)] to [opposedRname]. *)
Definition opposedDesig (desig : string) : string :=
  if String.eqb desig "R" then "L"
  else if String.eqb desig "L" then "R"
  else desig.

Definition opposedRnum (rnum : Z) : Z :=
  let o := rnum + 18 in
  if 36 <? o then o - 36 else o.

Definition opposedRname (rwident : string) : string :=
  (* RW11R -> 11R *)
  let rname := Qt.mid rwident 2 in
  (* 11 *)
  let rnum := Qt.toInt (Qt.mid_n rname 0 2) in
  (* R *)
  let desig :=
    if 2 <? Qt.size rname
    then match Qt.at_ rname 2 with
         | Some c => String c EmptyString
         | None => EmptyString
         end
    else EmptyString in
  let o := opposedRnum rnum in
  let pad := if o <? 10 then "0"%string else EmptyString in
  ("RW" +:+ pad +:+ Qt.number o +:+ opposedDesig desig)%string.

Section Runways.
Context `{Ops}.

(** [rw.valueStr("runway_identifier")]. *)
Definition identOf (rw : SqlRecord) : string := valueStr rw "runway_identifier".

(** The record of the closed end that [pairRunways] makes up when the other
    end is missing. *)
Definition closedEnd (rw : SqlRecord) : SqlRecord :=
  let heading := valueFloat rw "runway_true_bearing" in
  let opposedHeading := opposedCourseDeg heading in
  let rwident := identOf rw in
  let orec := rw in
  let orec := setValue orec "runway_identifier" (VStr (opposedRname rwident)) in
  let orec := setValue orec "displaced_threshold_distance" (VInt 0) in
  let orec := setValue orec "llz_identifier" VNull in
  let orec := setValue orec "runway_true_bearing" (VFloat opposedHeading) in
  let orec := appendField orec "is_closed" in
  setValue orec "is_closed" (VBool true).

(** The loop state of [pairRunways]: the set [found] and the vector
    [runwaypairs]. *)
Record PairState := mkPairState {
  found : gset string;
  runwaypairs : list (SqlRecord * SqlRecord);
}.

(** One iteration of [for(const SqlRecord& rw : runways)]. *)
Definition pairStep (runways : list SqlRecord) (st : PairState) (rw : SqlRecord)
  : PairState :=
  let rwident := identOf rw in
  if decide (rwident ∈ found st) then
    (* Already worked on that runway end *)
    st
  else
    let oname := opposedRname rwident in
    (* Try to find the other end in the list *)
    match List.find (fun orw => String.eqb (identOf orw) oname) runways with
    | Some orw =>
        mkPairState ({[rwident]} ∪ ({[oname]} ∪ found st))
                    (runwaypairs st ++ [(rw, orw)])
    | None =>
        (* Assume other end is closed if no pair way found *)
        mkPairState (found st) (runwaypairs st ++ [(rw, closedEnd rw)])
    end.

(** The loop over a prefix of the records, from the empty state. *)
Definition pairLoop (runways prefix : list SqlRecord) : PairState :=
  fold_left (pairStep runways) prefix (mkPairState ∅ []).

(** [DfdCompiler::pairRunways], called with an empty [runwaypairs]. *)
Definition pairRunways (runways : list SqlRecord) : list (SqlRecord * SqlRecord) :=
  runwaypairs (pairLoop runways runways).

(** *** writeAirports and writeRunwaysForAirport *)

(** A row of the [airport] table as far as [DfdCompiler] computes it; the
    columns bound to constants and the name columns are left out. *)
Record AirportRow := mkAirportRow {
  apt_ident : string;
  apt_lonx : F;
  apt_laty : F;
  apt_altitude : F;
  apt_mag_var : F;
  left_lonx : F;
  top_laty : F;
  right_lonx : F;
  bottom_laty : F;
  num_runway_hard : Z;
  num_runway_soft : Z;
  num_runway_water : Z;
  longest_runway_length : Z;
  longest_runway_width : Z;
  longest_runway_heading : F;
  num_runway_end_ils : Z;
  num_runways : Z;
}.

(** A row of the [runway] table (constant columns left out). *)
Record RunwayRow := mkRunwayRow {
  runway_id : Z;
  rw_airport_id : option Z;
  primary_end_id : Z;
  secondary_end_id : Z;
  rw_length : Z;
  rw_width : Z;
  rw_heading : F;
  primary_pos : Pos;
  secondary_pos : Pos;
  rw_altitude : Z;
  rw_lonx : F;
  rw_laty : F;
}.

(** A row of the [runway_end] table (constant columns left out). *)
Record RunwayEndRow := mkRunwayEndRow {
  runway_end_id : Z;
  re_name : string;
  end_type : string;
  offset_threshold : Z;
  is_takeoff : bool;
  is_landing : bool;
  ils_ident : string;
  re_heading : F;
  re_lonx : F;
  re_laty : F;
}.

(** The members of [DfdCompiler] and the tables it writes.  [airportIndex]
    maps an airport identifier to the airport id ([AirportIndex::addAirport],
    [AirportIndex::getAirportId], a class that is not part of the sources
    here: the identifier-indexed lookup airport ident to airport id); the
    [airport] table is keyed by its primary key [airport_id]. *)
Record State := mkState {
  airportRectMap : gmap string Rect;
  longestRunwaySurfaceMap : gmap string string;
  airportIndex : gmap string Z;
  curAirportId : Z;
  curRunwayId : Z;
  curRunwayEndId : Z;
  airportTable : gmap Z AirportRow;
  runwayTable : list RunwayRow;
  runwayEndTable : list RunwayEndRow;
}.

(** The rectangle an airport starts with: the reference point inflated by
    about 100 meter. *)
Definition initialRect (pos : Pos) : Rect :=
  inflate (RectOfPos pos) POS_EPSILON_100M POS_EPSILON_100M.

(** The body of [while(airportQuery->next())] in [writeAirports]. *)
Definition writeAirport (st : State) (row : SqlRecord) : State :=
  let pos := mkPos (valueFloat row "airport_ref_longitude")
                   (valueFloat row "airport_ref_latitude")
                   (valueFloat row "elevation") in
  let ident := valueStr row "airport_identifier" in
  let airportRect := initialRect pos in
  let id := curAirportId st + 1 in
  mkState (<[ident := airportRect]> (airportRectMap st))
          (<[ident := valueStr row "longest_runway_surface_code"]> (longestRunwaySurfaceMap st))
          (<[ident := id]> (airportIndex st))
          id (curRunwayId st) (curRunwayEndId st)
          (<[id := mkAirportRow ident (lonX pos) (latY pos) (altitude pos) (getMagVar pos)
                     (lonX (topLeft airportRect)) (latY (topLeft airportRect))
                     (lonX (bottomRight airportRect)) (latY (bottomRight airportRect))
                     0 0 0 0 0 (ofZ 0) 0 0]> (airportTable st))
          (runwayTable st) (runwayEndTable st).

(** [DfdCompiler::writeAirports] on the rows of [airportQuery]. *)
Definition writeAirports (st : State) (airports : list SqlRecord) : State :=
  fold_left writeAirport airports
    (mkState ∅ ∅ (airportIndex st) (curAirportId st) (curRunwayId st) (curRunwayEndId st)
             (airportTable st) (runwayTable st) (runwayEndTable st)).

(** The local variables of [writeRunwaysForAirport] that the loop over the
    runway pairs changes, with the counters and tables it writes. *)
Record RwAcc := mkRwAcc {
  numRunways : Z;
  numRunwayIls : Z;
  longestRunwayLength : Z;
  longestRunwayWidth : Z;
  longestRunwayHeading : F;
  airportRect : Rect;
  accRunwayId : Z;
  accRunwayEndId : Z;
  accRunways : list RunwayRow;
  accRunwayEnds : list RunwayEndRow;
}.

(** Center and true headings of a runway pair. *)
Definition pairCenter (p : SqlRecord * SqlRecord) : Pos :=
  let lonX := fdiv (fadd (valueFloat p.1 "runway_longitude") (valueFloat p.2 "runway_longitude")) (ofZ 2) in
  let latY := fdiv (fadd (valueFloat p.1 "runway_latitude") (valueFloat p.2 "runway_latitude")) (ofZ 2) in
  Pos2 lonX latY.

Definition pairHeading (p : SqlRecord * SqlRecord) : F :=
  normalizeCourse (fadd (valueFloat p.1 "runway_magnetic_bearing") (getMagVar (pairCenter p))).

Definition pairOpposedHeading (p : SqlRecord * SqlRecord) : F :=
  normalizeCourse (fadd (valueFloat p.2 "runway_magnetic_bearing") (getMagVar (pairCenter p))).

Definition halfLengthMeter (p : SqlRecord * SqlRecord) : F :=
  fdiv (feetToMeter (ofZ (valueInt p.1 "runway_length"))) (ofZ 2).

(** The end coordinates of a runway pair. *)
Definition primaryPos (p : SqlRecord * SqlRecord) : Pos :=
  normalize (endpoint (pairCenter p) (halfLengthMeter p) (pairOpposedHeading p)).

Definition secondaryPos (p : SqlRecord * SqlRecord) : Pos :=
  normalize (endpoint (pairCenter p) (halfLengthMeter p) (pairHeading p)).

(** The body of [for(... runwaypair : runwaypairs)]. *)
Definition runwayStep (aptId : option Z) (a : RwAcc) (p : SqlRecord * SqlRecord) : RwAcc :=
  let primaryRec := p.1 in
  let secondaryRec := p.2 in
  let primaryEndId := accRunwayEndId a + 1 in
  let secondaryEndId := accRunwayEndId a + 2 in
  let length := valueInt primaryRec "runway_length" in
  let width := valueInt primaryRec "runway_width" in
  (* Use average threshold altitude *)
  let alt := Z.quot (valueInt primaryRec "landing_threshold_elevation" +
                     valueInt secondaryRec "landing_threshold_elevation") 2 in
  let pos := pairCenter p in
  let heading := pairHeading p in
  let opposedHeading := pairOpposedHeading p in
  let numRunwayIls' :=
    if Qt.isEmpty (valueStr primaryRec "llz_identifier")
    then numRunwayIls a + 1 else numRunwayIls a in
  (* Remember the longest data *)
  let longer := longestRunwayLength a <? length in
  let pPos := primaryPos p in
  let sPos := secondaryPos p in
  let pClosed := valueBool primaryRec "is_closed" false in
  let sClosed := valueBool secondaryRec "is_closed" false in
  mkRwAcc (numRunways a + 1) numRunwayIls'
    (if longer then length else longestRunwayLength a)
    (if longer then width else longestRunwayWidth a)
    (if longer then heading else longestRunwayHeading a)
    (extend (extend (airportRect a) pPos) sPos)
    (accRunwayId a + 1) secondaryEndId
    (accRunways a ++
       [mkRunwayRow (accRunwayId a + 1) aptId primaryEndId secondaryEndId length width heading
                    pPos sPos alt (lonX pos) (latY pos)])
    (accRunwayEnds a ++
       [mkRunwayEndRow primaryEndId (Qt.mid (valueStr primaryRec "runway_identifier") 2) "P"
                       (valueInt primaryRec "displaced_threshold_distance")
                       (negb pClosed) (negb pClosed) (valueStr primaryRec "llz_identifier")
                       heading (lonX pPos) (latY pPos);
        mkRunwayEndRow secondaryEndId (Qt.mid (valueStr secondaryRec "runway_identifier") 2) "S"
                       (valueInt secondaryRec "displaced_threshold_distance")
                       (negb sClosed) (negb sClosed) (valueStr secondaryRec "llz_identifier")
                       opposedHeading (lonX sPos) (latY sPos)]).

(** The state of the local variables before the loop. *)
Definition initialAcc (st : State) (apt : string) : RwAcc :=
  mkRwAcc 0 0 0 0 (ofZ 0) (default RectInvalid (airportRectMap st !! apt))
          (curRunwayId st) (curRunwayEndId st) (runwayTable st) (runwayEndTable st).

Definition runwayLoop (st : State) (apt : string) (pairs : list (SqlRecord * SqlRecord)) : RwAcc :=
  fold_left (runwayStep (airportIndex st !! apt)) pairs (initialAcc st apt).

(** The workaround for insufficient runway information: hard, soft and
    water runway counts from the surface of the longest runway. *)
Definition surfaceCounts (surface : string) (n : Z) : Z * Z * Z :=
  if String.eqb surface "H" then (n, 0, 0)
  else if String.eqb surface "S" then (n - 1, 1, 0)
  else if String.eqb surface "W" then (n - 1, 0, 1)
  else (0, 0, 0).

(** [airportUpdateQuery]: the columns set on the airport row. *)
Definition airportUpdate (a : RwAcc) (surface : string) (row : AirportRow) : AirportRow :=
  let '(hard, soft, water) := surfaceCounts surface (numRunways a) in
  mkAirportRow (apt_ident row) (apt_lonx row) (apt_laty row) (apt_altitude row) (apt_mag_var row)
    (lonX (topLeft (airportRect a))) (latY (topLeft (airportRect a)))
    (lonX (bottomRight (airportRect a))) (latY (bottomRight (airportRect a)))
    hard soft water
    (longestRunwayLength a) (longestRunwayWidth a) (longestRunwayHeading a)
    (numRunwayIls a) (numRunways a).

(** [DfdCompiler::writeRunwaysForAirport]. *)
Definition writeRunwaysForAirport (st : State) (runways : list SqlRecord) (apt : string) : State :=
  (* Find matching opposing ends *)
  let runwaypairs := pairRunways runways in
  let a := runwayLoop st apt runwaypairs in
  let surface := default EmptyString (longestRunwaySurfaceMap st !! apt) in
  (* Update airport information *)
  let airports :=
    match airportIndex st !! apt with
    | Some id => alter (airportUpdate a surface) id (airportTable st)
    | None => airportTable st
    end in
  mkState (airportRectMap st) (longestRunwaySurfaceMap st) (airportIndex st)
          (curAirportId st) (accRunwayId a) (accRunwayEndId a)
          airports (accRunways a) (accRunwayEnds a).

End Runways.

(** *** writeAirways *)

Section Airways.
Context `{Ops}.

(** A row inserted into the [airway] table. *)
Record AirwayRow := mkAirwayRow {
  airway_name : string;
  airway_type : string;
  airway_fragment_no : Z;
  sequence_no : Z;
  from_waypoint_id : Z;
  to_waypoint_id : Z;
  direction : string;
  minimum_altitude : Z;
  maximum_altitude : Z;
  aw_rect : Rect;
  from_pos : Pos;
  to_pos : Pos;
}.

(** The local variables of [writeAirways] and the rows inserted so far. *)
Record AirwayState := mkAirwayState {
  lastRec : SqlRecord;
  lastName : string;
  lastEndOfRoute : bool;
  sequenceNumber : Z;
  fragmentNumber : Z;
  inserted : list AirwayRow;
}.

Definition initialAirwayState : AirwayState :=
  mkAirwayState [] EmptyString true 1 1 [].

(** [code.size() > 1 && code.at(1) == "E"]. *)
Definition endOfRouteCode (code : string) : bool :=
  (1 <? Qt.size code) &&
  match Qt.at_ code 1 with
  | Some c => Ascii.eqb c "E"
  | None => false
  end.

(** The row inserted for the from/to pair [lastRec], [row]. *)
Definition airwaySegment (st : AirwayState) (row : SqlRecord) : AirwayRow :=
  let fromPos := Pos2 (valueFloat (lastRec st) "lonx") (valueFloat (lastRec st) "laty") in
  let toPos := Pos2 (valueFloat row "lonx") (valueFloat row "laty") in
  let rect := extend (RectOfPos fromPos) toPos in
  (* B = All Altitudes, H = High Level Airways, L = Low Level Airways *)
  let awType := valueStr (lastRec st) "flightlevel" in
  let airwayType :=
    if String.eqb awType "H" then "J"%string
    else if String.eqb awType "L" then "V"%string
    else "B"%string in
  let dir := valueStr (lastRec st) "direction_restriction" in
  let dir := if Qt.isEmpty dir || String.eqb dir " " then "N"%string else dir in
  mkAirwayRow (valueStr (lastRec st) "route_identifier") airwayType
              (fragmentNumber st) (sequenceNumber st)
              (valueInt (lastRec st) "waypoint_id") (valueInt row "waypoint_id")
              dir
              (valueInt (lastRec st) "minimum_altitude1")
              (valueInt (lastRec st) "maximum_altitude")
              rect fromPos toPos.

(** The body of [while(airways.next())]. *)
Definition airwayStep (st : AirwayState) (row : SqlRecord) : AirwayState :=
  let name := valueStr row "route_identifier" in
  let code := valueStr row "waypoint_description_code" in
  let nameChange := negb (Qt.isEmpty (lastName st)) && negb (String.eqb name (lastName st)) in
  let st1 :=
    if negb (Qt.isEmpty (lastName st)) then
      (* Not the first iteration *)
      let st' :=
        if negb nameChange && lastEndOfRoute st then
          (* No name change but the last row indicated end of route - new fragment *)
          mkAirwayState (lastRec st) (lastName st) (lastEndOfRoute st)
                        1 (fragmentNumber st + 1) (inserted st)
        else st in
      if negb (lastEndOfRoute st') && negb nameChange then
        (* Nothing has changed or ended - insert from/to pair *)
        mkAirwayState (lastRec st') (lastName st') (lastEndOfRoute st')
                      (sequenceNumber st' + 1) (fragmentNumber st')
                      (inserted st' ++ [airwaySegment st' row])
      else st'
    else st in
  let eor := endOfRouteCode code in
  if nameChange then
    (* Name has changed - reset all *)
    mkAirwayState row name eor 1 1 (inserted st1)
  else
    mkAirwayState row name eor (sequenceNumber st1) (fragmentNumber st1) (inserted st1).

(** The loop of [writeAirways] over the rows of the query. *)
Definition airwayLoop (rows : list SqlRecord) : AirwayState :=
  fold_left airwayStep rows initialAirwayState.

(** [DfdCompiler::writeAirways]: the rows inserted into [airway]. *)
Definition writeAirways (rows : list SqlRecord) : list AirwayRow :=
  inserted (airwayLoop rows).

End Airways.

(** *** updateMagvar and updateIlsGeometry *)

Section Updates.
Context `{Ops}.

(** The tables of the database that the update passes work on: the rows of
    each table by table name. *)
Definition Tables := gmap string (list SqlRecord).

(** [SqlUtil::UpdateColFuncType]: reads the selected columns of a row and
    binds values to the update query; [None] stands for [return false]. *)
Definition UpdateColFunc := SqlRecord -> option (list (string * QVariant)).

Fixpoint bound (binds : list (string * QVariant)) (col : string) : QVariant :=
  match binds with
  | [] => VNull
  | (n, v) :: binds' => if String.eqb n col then v else bound binds' col
  end.

(** [update table set col = :col, ... where idColumn = :id] on one row; a
    placeholder that was not bound is null. *)
Definition applyBinds (updateColumns : list string) (binds : list (string * QVariant))
    (r : SqlRecord) : SqlRecord :=
  fold_left (fun r col => setValue r col (bound binds (":" +:+ col))) updateColumns r.

Definition updateRow (idColumn : string) (id : QVariant) (updateColumns : list string)
    (binds : list (string * QVariant)) (r : SqlRecord) : SqlRecord :=
  if decide (value r idColumn = id) then applyBinds updateColumns binds r else r.

(** [select idColumn, queryColumns from table] on one row. *)
Definition selectColumns (idColumn : string) (queryColumns : list string) (r : SqlRecord)
  : SqlRecord :=
  map (fun col => (col, value r col)) (idColumn :: queryColumns).

(** Modelled from the spec: [SqlUtil::updateColumnInTable], the generic
    (select-columns, update-columns, transform-fn) tabular update primitive,
    which is not part of the sources here.  Every row of the table is
    selected; the function is called on it, and when it returns true the
    update columns of the rows with that id are set to the bound values. *)
Definition updateColumnInTable (db : Tables) (table idColumn : string)
    (queryColumns updateColumns : list string) (func : UpdateColFunc) : Tables :=
  let selected := default [] (db !! table) in
  fold_left
    (fun db from =>
       match func (selectColumns idColumn queryColumns from) with
       | Some binds =>
           alter (map (updateRow idColumn (value from idColumn) updateColumns binds)) table db
       | None => db
       end)
    selected db.

(** What the update makes of one row: the row with the update columns set
    to what the function binds for it, or the row itself. *)
Definition rowUpdate (idColumn : string) (queryColumns updateColumns : list string)
    (func : UpdateColFunc) (r : SqlRecord) : SqlRecord :=
  match func (selectColumns idColumn queryColumns r) with
  | Some binds => applyBinds updateColumns binds r
  | None => r
  end.

(** The ids of the rows of a table. *)
Definition rowIds (idColumn : string) (rows : list SqlRecord) : list QVariant :=
  map (fun r => value r idColumn) rows.

(** The lambda of [updateMagvar]. *)
Definition magvarFunc : UpdateColFunc := fun from =>
  Some [(":mag_var"%string,
         VFloat (getMagVar (Pos2 (valueFloat from "lonx") (valueFloat from "laty"))))].

End Updates.

Section UpdatePasses.
Context `{Ops}.

(** [DfdCompiler::updateMagvar]. *)
Definition updateMagvar (db : Tables) : Tables :=
  let db := updateColumnInTable db "waypoint" "waypoint_id" ["lonx"; "laty"]%string
                                ["mag_var"%string] magvarFunc in
  updateColumnInTable db "ndb" "ndb_id" ["lonx"; "laty"]%string ["mag_var"%string] magvarFunc.

(** The three points of the feather that the lambda of [updateIlsGeometry]
    computes: the corners [p1], [p2] and the point [pmid] between them. *)
Record Feather := mkFeather { p1 : Pos; pmid : Pos; p2 : Pos }.

Definition ilsFeather (featherLen : Z) (from : SqlRecord) : Feather :=
  (* Position of the pointy end *)
  let pos := Pos2 (valueFloat from "lonx") (valueFloat from "laty") in
  let length := nmToMeter featherLen in
  let width := valueFloat from "loc_width" in
  let heading := opposedCourseDeg (valueFloat from "loc_heading") in
  (* Corner endpoints *)
  let p1 := normalize (endpoint pos length (fsub heading (fdiv width (ofZ 2)))) in
  let p2 := normalize (endpoint pos length (fadd heading (fdiv width (ofZ 2)))) in
  (* Calculated the center point between corners - move it a bit towards the pointy end *)
  let featherWidth := distanceMeterTo p1 p2 in
  let pmid := normalize (endpoint pos (fsub length (fdiv featherWidth (ofZ 2))) heading) in
  mkFeather p1 pmid p2.

(** The lambda of [updateIlsGeometry]. *)
Definition ilsFunc (featherLen : Z) : UpdateColFunc := fun from =>
  let f := ilsFeather featherLen from in
  Some [(":end1_lonx"%string, VFloat (lonX (p1 f)));
        (":end1_laty"%string, VFloat (latY (p1 f)));
        (":end_mid_lonx"%string, VFloat (lonX (pmid f)));
        (":end_mid_laty"%string, VFloat (latY (pmid f)));
        (":end2_lonx"%string, VFloat (lonX (p2 f)));
        (":end2_laty"%string, VFloat (latY (p2 f)))].

Definition ilsColumns : list string :=
  ["end1_lonx"; "end1_laty"; "end_mid_lonx"; "end_mid_laty"; "end2_lonx"; "end2_laty"]%string.

(** [DfdCompiler::updateIlsGeometry]; [featherLen] is the constant
    [ILS_FEATHER_LEN_NM] of the class declaration. *)
Definition updateIlsGeometry (featherLen : Z) (db : Tables) : Tables :=
  updateColumnInTable db "ils" "ils_id" ["lonx"; "laty"; "loc_heading"; "loc_width"]%string
                      ilsColumns (ilsFunc featherLen).

(** The feather in the words of the specification of the ILS geometry:
    the heading is reversed; the corners are the projections from the
    origin along the reversed heading minus and plus half the width for
    the feather length; the midpoint is the projection along the reversed
    heading for the length minus half the distance between the corners.
    A projection is the end point of the course line, with normalized
    coordinates. *)
Definition project (origin : Pos) (course dist : F) : Pos :=
  normalize (endpoint origin dist course).

Definition featherSpec (origin : Pos) (heading width length : F) : Pos * Pos * Pos :=
  let reversed := opposedCourseDeg heading in
  let half := fdiv width (ofZ 2) in
  let corner1 := project origin (fsub reversed half) length in
  let corner2 := project origin (fadd reversed half) length in
  let featherWidth := distanceMeterTo corner1 corner2 in
  let mid := project origin reversed (fsub length (fdiv featherWidth (ofZ 2))) in
  (corner1, mid, corner2).

End UpdatePasses.

(** *** writeRunways *)

Section RunwayGroups.
Context `{Ops}.

(** The local variables [runways] and [lastApt] of [writeRunways], with
    what the calls on the collected runways have made so far. *)
Record Collect (W : Type) := mkCollect {
  written : W;
  collected : list SqlRecord;
  lastApt : string;
}.
Arguments mkCollect {W}.
Arguments written {W}.
Arguments collected {W}.
Arguments lastApt {W}.

(** The body of [while(runwayQuery->next())], for a function [write] that
    is called on the collected runways and, as [writeRunwaysForAirport]
    does, leaves the vector empty. *)
Definition collectStep {W} (write : W -> list SqlRecord -> string -> W)
    (c : Collect W) (row : SqlRecord) : Collect W :=
  let apt := valueStr row "airport_identifier" in
  let c1 :=
    if negb (Qt.isEmpty (lastApt c)) && negb (String.eqb (lastApt c) apt) then
      (* Airport ID has changed write collected runways *)
      mkCollect (write (written c) (collected c) (lastApt c)) [] (lastApt c)
    else c in
  (* Collect runways *)
  mkCollect (written c1) (collected c1 ++ [row]) apt.

(** The loop and the call behind it. *)
Definition writeRunwaysWith {W} (write : W -> list SqlRecord -> string -> W)
    (w : W) (rows : list SqlRecord) : W :=
  let c := fold_left (collectStep write) rows (mkCollect w [] EmptyString) in
  write (written c) (collected c) (lastApt c).

(** [DfdCompiler::writeRunways] on the rows of [runwayQuery]. *)
Definition writeRunways (st : State) (rows : list SqlRecord) : State :=
  writeRunwaysWith writeRunwaysForAirport st rows.

(** The calls of [writeRunwaysForAirport] that [writeRunways] makes: the
    airport identifier and the runways of each call, in order. *)
Definition runwayCalls (rows : list SqlRecord) : list (string * list SqlRecord) :=
  writeRunwaysWith (fun calls runways apt => calls ++ [(apt, runways)]) [] rows.

End RunwayGroups.

Arguments mkCollect {_ W}.
Arguments written {_ W}.
Arguments collected {_ W}.
Arguments lastApt {_ W}.

(** *** updateTacanChannel *)

Section TacanChannel.
Context `{Ops}.

(** [atools::fs::util::tacanChannelForFrequency], which is not part of the
    sources here; the value is what is bound to the query. *)
Variable tacanChannelForFrequency : Z -> QVariant.

(** The lambda of [updateTacanChannel]. *)
Definition tacanFunc : UpdateColFunc := fun from =>
  let type := valueStr from "type" in
  (* TACAN or VORTAC *)
  if String.eqb type "TC" || Qt.startsWith type "VT" then
    Some [(":channel"%string,
           tacanChannelForFrequency (Z.quot (valueInt from "frequency") 10))]
  else None.

(** [DfdCompiler::updateTacanChannel]. *)
Definition updateTacanChannel (db : Tables) : Tables :=
  updateColumnInTable db "vor" "vor_id" ["frequency"; "type"]%string ["channel"%string] tacanFunc.

End TacanChannel.

(** *** writeProcedure and fillProcedureInput *)

Section Procedures.
Context `{Ops}.

(** [atools::fs::common::ProcedureInput] as far as [writeProcedure] and
    [fillProcedureInput] assign it; the error context string and the
    positions, which are copies of two columns each, are left out. *)
Record ProcedureInput := mkProcedureInput {
  rowCode : string;
  airportIdent : string;
  airportId : Z;
  seqNr : Z;
  routeType : ascii;
  sidStarAppIdent : string;
  transIdent : string;
  fixIdent : string;
  icaoCode : string;
  descCode : string;
  turnDir : string;
  pathTerm : string;
  recdNavaid : string;
  theta : F;
  rho : F;
  magCourse : F;
  rteHoldTime : F;
  rteHoldDist : F;
  altDescr : string;
  altitude : string;
  altitude2 : string;
  transAlt : string;
  speedLimitDescr : string;
  speedLimit : Z;
  centerFixOrTaaPt : string;
}.

(** [atools::strToChar], which is not part of the sources here. *)
Variable strToChar : string -> ascii.

(** [DfdCompiler::fillProcedureInput]. *)
Definition fillProcedureInput (procInput : ProcedureInput) (query : SqlRecord) : ProcedureInput :=
  let pathTerm := valueStr query "path_termination" in
  let hold := valueFloat query "route_distance_holding_distance_time" in
  mkProcedureInput (rowCode procInput) (airportIdent procInput) (airportId procInput)
    (valueInt query "seqno")
    (strToChar (valueStr query "route_type"))
    (valueStr query "procedure_identifier")
    (valueStr query "transition_identifier")
    (valueStr query "waypoint_identifier")
    (valueStr query "waypoint_icao_code")
    (valueStr query "waypoint_description_code")
    (valueStr query "turn_direction")
    pathTerm
    (valueStr query "recommanded_navaid")
    (valueFloat query "theta")
    (valueFloat query "rho")
    (valueFloat query "magnetic_course")
    (if Qt.startsWith pathTerm "H" then hold else ofZ 0)
    (if Qt.startsWith pathTerm "H" then ofZ 0 else hold)
    (valueStr query "altitude_description")
    (valueStr query "altitude1")
    (valueStr query "altitude2")
    (valueStr query "transition_altitude")
    (valueStr query "speed_limit_description")
    (valueInt query "speed_limit")
    (valueStr query "center_waypoint").

(** The calls on the procedure writer ([ProcedureWriter], which is not part
    of the sources here). *)
Inductive WriterCall :=
| CallWrite (procInput : ProcedureInput)
| CallFinish (procInput : ProcedureInput)
| CallReset.

(** The local variables of [writeProcedure] and the calls made so far. *)
Record ProcState := mkProcState {
  procInput : ProcedureInput;
  curAirport : string;
  calls : list WriterCall;
}.

(** The body of [while(query.next())]; [index] is the airport index. *)
Definition procedureStep (index : gmap string Z) (s : ProcState) (query : SqlRecord) : ProcState :=
  let ident := valueStr query "airport_identifier" in
  let calls1 :=
    if negb (Qt.isEmpty (curAirport s)) && negb (String.eqb ident (curAirport s))
    then calls s ++ [CallFinish (procInput s); CallReset]
    else calls s in
  let p := procInput s in
  let p := mkProcedureInput (rowCode p) ident
             (* airportIndex->getAirportId(airportIdent).toInt() *)
             (toInt (match index !! ident with Some id => VInt id | None => VNull end))
             (seqNr p) (routeType p) (sidStarAppIdent p) (transIdent p) (fixIdent p)
             (icaoCode p) (descCode p) (turnDir p) (pathTerm p) (recdNavaid p)
             (theta p) (rho p) (magCourse p) (rteHoldTime p) (rteHoldDist p)
             (altDescr p) (altitude p) (altitude2 p) (transAlt p) (speedLimitDescr p)
             (speedLimit p) (centerFixOrTaaPt p) in
  let p := fillProcedureInput p query in
  (* Leave the complicated states to the procedure writer *)
  mkProcState p (airportIdent p) (calls1 ++ [CallWrite p]).

(** [DfdCompiler::writeProcedure] on the ordered rows of the table: the
    calls on the procedure writer.  [initial] is the default constructed
    [ProcedureInput]. *)
Definition writeProcedure (index : gmap string Z) (initial : ProcedureInput)
    (code : string) (rows : list SqlRecord) : list WriterCall :=
  let p := mkProcedureInput code (airportIdent initial) (airportId initial)
             (seqNr initial) (routeType initial) (sidStarAppIdent initial)
             (transIdent initial) (fixIdent initial) (icaoCode initial) (descCode initial)
             (turnDir initial) (pathTerm initial) (recdNavaid initial)
             (theta initial) (rho initial) (magCourse initial)
             (rteHoldTime initial) (rteHoldDist initial)
             (altDescr initial) (altitude initial) (altitude2 initial) (transAlt initial)
             (speedLimitDescr initial) (speedLimit initial) (centerFixOrTaaPt initial) in
  let s := fold_left (procedureStep index) rows (mkProcState p EmptyString []) in
  calls s ++ [CallFinish (procInput s); CallReset].

End Procedures.

End Dfd.

(* ===================================================================== *)
(** ** The binary approach record                                         *)
(* ===================================================================== *)

Module Bgl.

(** *** BinaryStream *)

(** Log messages: the level and what is reported. *)
Inductive LogLevel := LDebug | LInfo | LWarning | LCritical.

Inductive LogMessage :=
| UnexpectedRecordType (recType : Z) (airportIdent : string) (offset : Z).

(** Modelled from the spec: [io::BinaryStream], which is not part of the
    sources here: a sequential, position-tracking reader over a byte stream
    with little-endian integers and seek; reading behind the end fails.
    The messages logged while reading are kept with the stream. *)
Record Stream := mkStream {
  bytes : list Byte.byte;
  tellg : Z;
  logged : list (LogLevel * LogMessage);
}.

Inductive Error := EndOfStream | OutOfFuel.

(** Reading either throws or gives a value and the stream after it. *)
Definition Reader (A : Type) : Type := Stream -> Error + (A * Stream).

Definition ret {A} (a : A) : Reader A := fun s => inr (a, s).

Definition bind {A B} (m : Reader A) (k : A -> Reader B) : Reader B :=
  fun s => match m s with
           | inl e => inl e
           | inr (a, s') => k a s'
           end.

Definition throw {A} (e : Error) : Reader A := fun _ => inl e.

Notation "x <- m ;; k" := (bind m (fun x => k))
  (at level 100, m at next level, right associativity).
Notation "m ;;; k" := (bind m (fun _ => k))
  (at level 100, right associativity).

Definition byteAt (s : Stream) (pos : Z) : option Z :=
  if pos <? 0 then None
  else option_map (fun b => Z.of_N (Byte.to_N b)) (bytes s !! Z.to_nat pos).

Definition readUByte : Reader Z := fun s =>
  match byteAt s (tellg s) with
  | Some b => inr (b, mkStream (bytes s) (tellg s + 1) (logged s))
  | None => inl EndOfStream
  end.

(** A signed byte. *)
Definition readByte : Reader Z :=
  b <- readUByte ;; ret (if b <? 128 then b else b - 256).

(** Little endian 16 and 32 bit words. *)
Definition readUShort : Reader Z :=
  b0 <- readUByte ;; b1 <- readUByte ;; ret (Z.lor b0 (Z.shiftl b1 8)).

Definition readUInt : Reader Z :=
  b0 <- readUByte ;; b1 <- readUByte ;; b2 <- readUByte ;; b3 <- readUByte ;;
  ret (Z.lor b0 (Z.lor (Z.shiftl b1 8) (Z.lor (Z.shiftl b2 16) (Z.shiftl b3 24)))).

(** A 32 bit float; the value is kept as its bit pattern. *)
Definition readFloat : Reader Z := readUInt.

Definition tell : Reader Z := fun s => inr (tellg s, s).

Definition seekg (pos : Z) : Reader unit := fun s =>
  inr (tt, mkStream (bytes s) pos (logged s)).

Definition skip (n : Z) : Reader unit := fun s =>
  inr (tt, mkStream (bytes s) (tellg s + n) (logged s)).

Definition qWarning (m : LogMessage) : Reader unit := fun s =>
  inr (tt, mkStream (bytes s) (tellg s) (logged s ++ [(LWarning, m)])).

(** The stream moved on by [n] bytes. *)
Definition advance (s : Stream) (n : Z) : Stream :=
  mkStream (bytes s) (tellg s + n) (logged s).

(** The little endian words at a position of the stream. *)
Definition ushortAt (s : Stream) (pos : Z) : option Z :=
  match byteAt s pos, byteAt s (pos + 1) with
  | Some b0, Some b1 => Some (Z.lor b0 (Z.shiftl b1 8))
  | _, _ => None
  end.

Definition uintAt (s : Stream) (pos : Z) : option Z :=
  match byteAt s pos, byteAt s (pos + 1), byteAt s (pos + 2), byteAt s (pos + 3) with
  | Some b0, Some b1, Some b2, Some b3 =>
      Some (Z.lor b0 (Z.lor (Z.shiftl b1 8) (Z.lor (Z.shiftl b2 16) (Z.shiftl b3 24))))
  | _, _, _, _ => None
  end.

(** [n] bytes are left to read. *)
Definition available (s : Stream) (n : Z) : Prop :=
  0 <= tellg s /\ tellg s + n <= Z.of_nat (length (bytes s)).

(** *** Record *)

(** Modelled from the spec: the base class [Record], which is not part of
    the sources here: each record begins with a 16-bit type tag and a
    32-bit length; [seekToStart] and [seekToEnd] move to the first byte of
    the record and behind its last byte. *)
Record Rec := mkRec { startOffset : Z; id : Z; size : Z }.

Definition readRecord : Reader Rec :=
  start <- tell ;; i <- readUShort ;; n <- readUInt ;; ret (mkRec start i n).

Definition seekToStart (r : Rec) : Reader unit := seekg (startOffset r).
Definition seekToEnd (r : Rec) : Reader unit := seekg (startOffset r + size r).

(** *** What the approach reader is written against *)

(** The record type constants of [recordtypes.h], the readers of the child
    records, [converter::intToIcao] and [Record::checkSubRecord]; none of
    them is part of the sources here. *)
Class Format := {
  LEGS : Z;
  LEGS_MSFS : Z;
  LEGS_MSFS_116 : Z;
  LEGS_MSFS_118 : Z;
  MISSED_LEGS : Z;
  MISSED_LEGS_MSFS : Z;
  MISSED_LEGS_MSFS_116 : Z;
  MISSED_LEGS_MSFS_118 : Z;
  TRANSITION : Z;
  TRANSITION_MSFS : Z;
  TRANSITION_MSFS_116 : Z;
  MSFS_APPROACH_NEW : Z;
  ApproachLeg : Type;
  Transition : Type;
  readApproachLeg : Z -> Reader ApproachLeg;       (* ApproachLeg(bs, recType) *)
  readTransition : Z -> Reader Transition;         (* Transition(options, bs, recType) *)
  intToIcao : Z -> bool -> string;                 (* converter::intToIcao *)
  checkSubRecord : Rec -> bool;                    (* Record::checkSubRecord *)
}.

(** [FsPaths::SimulatorType], as far as the reader tells the types apart. *)
Inductive SimulatorType := MSFS | OtherSimulator.

#[export] Instance SimulatorType_eq_dec : EqDecision SimulatorType.
Proof. solve_decision. Defined.

(** [NavDatabaseOptions] as read here, and whether the build defines
    [DEBUG_INFORMATION]. *)
Record Options := mkOptions {
  includeApproachLegs : bool;       (* isIncludedNavDbObject(type::APPROACHLEG) *)
  simulatorType : SimulatorType;    (* getSimulatorType() *)
  debugInformation : bool;          (* #ifdef DEBUG_INFORMATION *)
}.

Section ApproachReader.
Context `{Format}.

Record Approach := mkApproach {
  rec : Rec;
  suffix : Z;
  runwayNumber : Z;
  type : Z;
  runwayDesignator : Z;
  gpsOverlay : bool;
  numTransitions : Z;
  fixType : Z;
  fixIdent : string;
  fixRegion : string;
  fixAirportIdent : string;
  altitude : Z;
  heading : Z;
  missedAltitude : Z;
  legs : list ApproachLeg;
  missedLegs : list ApproachLeg;
  transitions : list Transition;
}.

Definition withLegs (a : Approach) (l : list ApproachLeg) : Approach :=
  mkApproach (rec a) (suffix a) (runwayNumber a) (type a) (runwayDesignator a) (gpsOverlay a)
             (numTransitions a) (fixType a) (fixIdent a) (fixRegion a) (fixAirportIdent a)
             (altitude a) (heading a) (missedAltitude a) l (missedLegs a) (transitions a).

Definition withMissedLegs (a : Approach) (l : list ApproachLeg) : Approach :=
  mkApproach (rec a) (suffix a) (runwayNumber a) (type a) (runwayDesignator a) (gpsOverlay a)
             (numTransitions a) (fixType a) (fixIdent a) (fixRegion a) (fixAirportIdent a)
             (altitude a) (heading a) (missedAltitude a) (legs a) l (transitions a).

Definition withTransitions (a : Approach) (l : list Transition) : Approach :=
  mkApproach (rec a) (suffix a) (runwayNumber a) (type a) (runwayDesignator a) (gpsOverlay a)
             (numTransitions a) (fixType a) (fixIdent a) (fixRegion a) (fixAirportIdent a)
             (altitude a) (heading a) (missedAltitude a) (legs a) (missedLegs a) l.

(** The constructor up to the loop over the subrecords. *)
Definition readHeader (airportRecType : Z) : Reader Approach :=
  r <- readRecord ;;
  suffix <- readByte ;;
  runwayNumber <- readUByte ;;
  typeFlags <- readUByte ;;
  numTransitions <- readUByte ;;
  numLegs <- readUByte ;;
  numMissedLegs <- readUByte ;;
  fixFlags <- readUInt ;;
  fixIdentFlags <- readUInt ;;
  altitude <- readFloat ;;
  heading <- readFloat ;;
  missedAltitude <- readFloat ;;
  (if airportRecType =? MSFS_APPROACH_NEW then skip 4 else ret tt) ;;;
  ret (mkApproach r suffix runwayNumber
         (Z.land typeFlags 0xf)
         (Z.land (Z.shiftr typeFlags 4) 0x7)
         (Z.land typeFlags 0x80 =? 0x80)
         numTransitions
         (Z.land fixFlags 0xf)
         (intToIcao (Z.land (Z.shiftr fixFlags 5) 0xfffffff) true)
         (intToIcao (Z.land fixIdentFlags 0x7ff) true)
         (intToIcao (Z.land (Z.shiftr fixIdentFlags 11) 0x1fffff) true)
         altitude heading missedAltitude [] [] []).

(** [for(int i = 0; i < num; i++) legs.append(ApproachLeg(bs, recType))]. *)
Fixpoint readLegs (num : nat) (recType : Z) (acc : list ApproachLeg) : Reader (list ApproachLeg) :=
  match num with
  | O => ret acc
  | S num' => l <- readApproachLeg recType ;; readLegs num' recType (acc ++ [l])
  end.

(** The groups of cases of [switch(recType)]. *)
Inductive SubRecordKind := KLegs | KMissedLegs | KTransition | KUnknown.

Definition subRecordKind (recType : Z) : SubRecordKind :=
  if bool_decide (recType ∈ [LEGS; LEGS_MSFS; LEGS_MSFS_116; LEGS_MSFS_118]) then KLegs
  else if bool_decide (recType ∈ [MISSED_LEGS; MISSED_LEGS_MSFS; MISSED_LEGS_MSFS_116;
                                   MISSED_LEGS_MSFS_118]) then KMissedLegs
  else if bool_decide (recType ∈ [TRANSITION; TRANSITION_MSFS; TRANSITION_MSFS_116])
  then KTransition
  else KUnknown.

(** The record types that [switch(recType)] has a case for. *)
Definition knownRecordTypes : list Z :=
  [LEGS; LEGS_MSFS; LEGS_MSFS_116; LEGS_MSFS_118;
   MISSED_LEGS; MISSED_LEGS_MSFS; MISSED_LEGS_MSFS_116; MISSED_LEGS_MSFS_118;
   TRANSITION; TRANSITION_MSFS; TRANSITION_MSFS_116].

(** Whether the [default:] case logs. *)
Definition logsUnknown (options : Options) : bool :=
  debugInformation options || negb (bool_decide (simulatorType options = MSFS)).

(** The [default:] case: unknown types are logged only for other simulators
    than MSFS, unless [DEBUG_INFORMATION] is defined. *)
Definition logUnknown (options : Options) (a : Approach) (recType : Z) : Reader unit :=
  if logsUnknown options
  then (pos <- tell ;; qWarning (UnexpectedRecordType recType (fixAirportIdent a) pos))
  else ret tt.

(** [switch(recType)]. *)
Definition readSubRecord (options : Options) (a : Approach) (r : Rec) : Reader Approach :=
  let recType := id r in
  match subRecordKind recType with
  | KLegs =>
      if includeApproachLegs options then
        num <- readUShort ;;
        l <- readLegs (Z.to_nat num) recType (legs a) ;;
        ret (withLegs a l)
      else ret a
  | KMissedLegs =>
      if includeApproachLegs options then
        num <- readUShort ;;
        l <- readLegs (Z.to_nat num) recType (missedLegs a) ;;
        ret (withMissedLegs a l)
      else ret a
  | KTransition =>
      seekToStart r ;;;
      t <- readTransition recType ;;
      ret (withTransitions a (transitions a ++ [t]))
  | KUnknown =>
      logUnknown options a recType ;;; ret a
  end.

(** [while(bs->tellg() < startOffset + size)]: read subrecords.  The loop
    has no bound in the source; [fuel] bounds the number of iterations. *)
Fixpoint readSubRecords (fuel : nat) (options : Options) (a : Approach) : Reader Approach :=
  match fuel with
  | O => throw OutOfFuel
  | S fuel' =>
      pos <- tell ;;
      if pos <? startOffset (rec a) + size (rec a) then
        r <- readRecord ;;
        if checkSubRecord r then ret a
        else
          a' <- readSubRecord options a r ;;
          seekToEnd r ;;;
          readSubRecords fuel' options a'
      else ret a
  end.

(** [Approach::Approach]. *)
Definition readApproach (fuel : nat) (options : Options) (airportRecType : Z) : Reader Approach :=
  a <- readHeader airportRecType ;;
  readSubRecords fuel options a.

End ApproachReader.

(** *** Approach::isValid *)

Section ApproachValidity.
Context `{Format}.

(** [ap::approachTypeToStr], [ApproachLeg::isValid] and
    [Transition::isValid], which are not part of the sources here. *)
Variable approachTypeToStr : Z -> string.
Variable legIsValid : ApproachLeg -> bool.
Variable transIsValid : Transition -> bool.

(** [Approach::isValid]. *)
Definition isValid (a : Approach) : bool :=
  let valid := negb (match legs a with [] => true | _ => false end) in
  let valid := valid && negb (String.eqb (approachTypeToStr (type a)) "UNKN") in
  let valid := fold_left (fun valid leg => valid && legIsValid leg) (legs a) valid in
  let valid := fold_left (fun valid leg => valid && legIsValid leg) (missedLegs a) valid in
  fold_left (fun valid trans => valid && transIsValid trans) (transitions a) valid.

End ApproachValidity.

End Bgl.

(* ===================================================================== *)
(** ** The METAR index                                                    *)
(* ===================================================================== *)

Module Metar.

(** One cached report: station identifier, report text and time stamp (as
    seconds). *)
Record MetarData := mkMetarData {
  ident : string;
  metar : string;
  timestamp : Z;
}.

(** The members of [MetarIndex] that hold reports: [identIndexMap] maps the
    airport idents to the position in [spatialIndex], which contains all
    stations. *)
Record MetarIndex := mkMetarIndex {
  identIndexMap : gmap string nat;
  spatialIndex : list MetarData;
}.

(** A new index. *)
Definition empty : MetarIndex := mkMetarIndex ∅ [].

(** [MetarIndex::clear]: clears all lists. *)
Definition clear (idx : MetarIndex) : MetarIndex := empty.

(** Modelled from the spec: [MetarIndex::updateOrInsert], whose body is not
    part of the sources here: update or insert a METAR entry; the index
    holds at most one entry per station identifier, and on a duplicate the
    entry with the later time stamp wins, the older one is ignored. *)
Definition updateOrInsert (idx : MetarIndex) (text station : string) (lastTimestamp : Z)
  : MetarIndex :=
  let entry := mkMetarData station text lastTimestamp in
  match identIndexMap idx !! station with
  | Some i =>
      match spatialIndex idx !! i with
      | Some old =>
          if timestamp old <? lastTimestamp
          then mkMetarIndex (identIndexMap idx) (<[i := entry]> (spatialIndex idx))
          else idx
      | None => idx
      end
  | None =>
      mkMetarIndex (<[station := length (spatialIndex idx)]> (identIndexMap idx))
                   (spatialIndex idx ++ [entry])
  end.

(** Modelled from the spec: [MetarIndex::read], whose body is not part of
    the sources here, on the records parsed from the stream: on
    [merge = false] clear first; every record is added with
    [updateOrInsert]; the number of records read is returned. *)
Definition read (idx : MetarIndex) (records : list MetarData) (merge : bool)
  : MetarIndex * Z :=
  let start := if merge then idx else clear idx in
  (fold_left (fun i r => updateOrInsert i (metar r) (ident r) (timestamp r)) records start,
   Z.of_nat (length records)).

(** Modelled from the spec: [MetarIndex::metarData], the entry of a
    station, if there is one. *)
Definition metarData (idx : MetarIndex) (station : string) : option MetarData :=
  match identIndexMap idx !! station with
  | Some i => spatialIndex idx !! i
  | None => None
  end.

(** The states of an index: a new index, and what [read] and [clear] make
    of one. *)
Inductive Reachable : MetarIndex -> Prop :=
| reach_new : Reachable empty
| reach_read idx records merge : Reachable idx -> Reachable (read idx records merge).1
| reach_clear idx : Reachable idx -> Reachable (clear idx).

(** The map and the list describe the same entries. *)
Definition consistent (idx : MetarIndex) : Prop :=
  forall station i,
    identIndexMap idx !! station = Some i <->
    exists md, spatialIndex idx !! i = Some md /\ ident md = station.

End Metar.

(* ===================================================================== *)
(** ** NavDatabase: progress steps, schema, post processing                *)
(* ===================================================================== *)

Module Nav.

(** Number of steps for general tasks. *)
Definition PROGRESS_NUM_TASK_STEPS : Z := 10.

(** runScript() *)
Definition PROGRESS_NUM_SCRIPT_STEPS : Z := PROGRESS_NUM_TASK_STEPS.

(** AirwayResolver steps. *)
Definition PROGRESS_NUM_RESOLVE_AIRWAY_STEPS : Z := 1000.

(** createSchemaInternal() *)
Definition PROGRESS_NUM_SCHEMA_STEPS : Z := 8.

(** [FsPaths::SimulatorType] with [FsPaths::isAnyXplane], which are not part
    of the sources here: the values that [NavDatabase] names. *)
Class Simulators := {
  SimulatorType : Type;
  SimulatorType_eq_dec :: EqDecision SimulatorType;
  isAnyXplane : SimulatorType -> bool;
  NAVIGRAPH : SimulatorType;
  DFD : SimulatorType;
  MSFS : SimulatorType;
}.

(** What a run of the compiler does, as far as it is told apart here:
    progress reports with their number of steps, messages without steps,
    SQL scripts, commits, and the other tasks by name. *)
Inductive Step :=
| Report (message : string) (increment : Z)
| Message (message : string)
| Script (file : string)
| Commit
| Task (name : string).

(** The member [aborted], the result flag COMPILE_BASIC_VALIDATION_ERROR,
    the exception that ended the run, if any (the name of the table that
    was not found), and what was done, in order. *)
Record Run := mkRun {
  aborted : bool;
  validationError : bool;
  thrown : option string;
  done : list Step;
}.

Definition setAborted (a : bool) (run : Run) : Run :=
  mkRun a (validationError run) (thrown run) (done run).

Definition did (step : Step) (run : Run) : Run :=
  mkRun (aborted run) (validationError run) (thrown run) (done run ++ [step]).

(** Modelled from the spec: [ProgressHandler], which is not part of the
    sources here: the progress/cancel callback that may abort the run.
    [reportOther] counts one step and [reportOtherInc] the given number of
    steps (the numbers in brackets of the listings in the comments of
    [NavDatabase]), [reportOtherMsg] none; each returns true when the
    callback, which sees what was done so far, asks to abort. *)
Definition Handler := list Step -> bool.

Definition reportOtherInc (progress : Handler) (message : string) (increment : Z)
    (run : Run) : bool * Run :=
  let run' := did (Report message increment) run in (progress (done run'), run').

Definition reportOther (progress : Handler) (message : string) : Run -> bool * Run :=
  reportOtherInc progress message 1.

Definition reportOtherMsg (progress : Handler) (message : string) (run : Run) : bool * Run :=
  let run' := did (Message message) run in (progress (done run'), run').

(** The number of steps reported. *)
Fixpoint steps (l : list Step) : Z :=
  match l with
  | [] => 0
  | Report _ n :: l' => n + steps l'
  | _ :: l' => steps l'
  end.

(** *** Control: statements one after the other, and early return *)

(** A piece of a function body: [inl] when the function has returned from
    inside it, [inr] when control goes on behind it. *)
Definition Block := Run -> Run + Run.

Definition seq (b1 b2 : Block) : Block := fun run =>
  match b1 run with
  | inl r => inl r
  | inr r => b2 r
  end.

Notation "b1 ;; b2" := (seq b1 b2) (at level 100, right associativity).

(** A statement that neither returns nor reads the result of a call. *)
Definition exec (f : Run -> Run) : Block := fun run => inr (f run).

Definition skip : Block := fun run => inr run.

(** [if((aborted = call)) return ...;] *)
Definition returnIf (call : Run -> bool * Run) : Block := fun run =>
  let '(a, run') := call run in
  if a then inl (setAborted a run') else inr (setAborted a run').

(** A call of a function that assigns [aborted] itself and whose result is
    not looked at; an exception ends the run. *)
Definition calling (call : Run -> bool * Run) : Block := fun run =>
  let run' := (call run).2 in
  match thrown run' with
  | Some _ => inl run'
  | None => inr run'
  end.

Definition when (c : bool) (b : Block) : Block := if c then b else skip.

(** A function that returns true from inside and false at its end. *)
Definition returning (b : Block) (run : Run) : bool * Run :=
  match b run with
  | inl r => (true, r)
  | inr r => (false, r)
  end.

(** A function without result. *)
Definition void (b : Block) (run : Run) : Run :=
  match b run with
  | inl r => r
  | inr r => r
  end.

(** *** runScript and createSchemaInternal *)

Definition executeScript (file : string) : Block := exec (did (Script file)).

Definition commit : Block := exec (did Commit).

(** [if(progress != nullptr) if((aborted = progress->report...)) return] *)
Definition reportIfSet (progress : option Handler) (report : Handler -> Run -> bool * Run)
  : Block :=
  match progress with
  | Some p => returnIf (report p)
  | None => skip
  end.

(** [NavDatabase::runScript]. *)
Definition runScript (progress : option Handler) (scriptFile message : string)
  : Run -> bool * Run :=
  returning (
    reportIfSet progress (fun p => reportOtherInc p message PROGRESS_NUM_SCRIPT_STEPS) ;;
    executeScript (":/atools/resources/sql/" +:+ scriptFile) ;;
    commit).

(** [NavDatabase::createSchemaInternal]. *)
Definition createSchemaInternal (progress : option Handler) : Run -> Run :=
  void (
    reportIfSet progress (fun p => reportOther p "Removing Views") ;;
    executeScript ":/atools/resources/sql/fs/db/drop_view.sql" ;;
    reportIfSet progress (fun p => reportOther p "Removing Routing and Search") ;;
    executeScript ":/atools/resources/sql/fs/db/drop_routing_search.sql" ;;
    reportIfSet progress (fun p => reportOther p "Removing Navigation Aids") ;;
    executeScript ":/atools/resources/sql/fs/db/drop_nav.sql" ;;
    reportIfSet progress (fun p => reportOther p "Removing Airport Facilites") ;;
    executeScript ":/atools/resources/sql/fs/db/drop_airport_facilities.sql" ;;
    reportIfSet progress (fun p => reportOther p "Removing Approaches") ;;
    executeScript ":/atools/resources/sql/fs/db/drop_approach.sql" ;;
    reportIfSet progress (fun p => reportOther p "Removing Airports") ;;
    executeScript ":/atools/resources/sql/fs/db/drop_airport.sql" ;;
    reportIfSet progress (fun p => reportOther p "Removing Metadata") ;;
    executeScript ":/atools/resources/sql/fs/db/drop_meta.sql" ;;
    commit ;;
    reportIfSet progress (fun p => reportOther p "Creating Database Schema") ;;
    executeScript ":/atools/resources/sql/fs/db/create_boundary_schema.sql" ;;
    executeScript ":/atools/resources/sql/fs/db/create_nav_schema.sql" ;;
    executeScript ":/atools/resources/sql/fs/db/create_ap_schema.sql" ;;
    executeScript ":/atools/resources/sql/fs/db/create_route_schema.sql" ;;
    executeScript ":/atools/resources/sql/fs/db/create_meta_schema.sql" ;;
    executeScript ":/atools/resources/sql/fs/db/create_views.sql" ;;
    commit).

(** [NavDatabase::createSchema]. *)
Definition createSchema : Run -> Run := createSchemaInternal None.

(** The scripts that drop the schema and the scripts that create it. *)
Definition dropScripts : list string :=
  [":/atools/resources/sql/fs/db/drop_view.sql";
   ":/atools/resources/sql/fs/db/drop_routing_search.sql";
   ":/atools/resources/sql/fs/db/drop_nav.sql";
   ":/atools/resources/sql/fs/db/drop_airport_facilities.sql";
   ":/atools/resources/sql/fs/db/drop_approach.sql";
   ":/atools/resources/sql/fs/db/drop_airport.sql";
   ":/atools/resources/sql/fs/db/drop_meta.sql"]%string.

Definition createScripts : list string :=
  [":/atools/resources/sql/fs/db/create_boundary_schema.sql";
   ":/atools/resources/sql/fs/db/create_nav_schema.sql";
   ":/atools/resources/sql/fs/db/create_ap_schema.sql";
   ":/atools/resources/sql/fs/db/create_route_schema.sql";
   ":/atools/resources/sql/fs/db/create_meta_schema.sql";
   ":/atools/resources/sql/fs/db/create_views.sql"]%string.

(** The scripts executed and the number of reports made, in order. *)
Definition scripts (l : list Step) : list string :=
  omap (fun st => match st with Script f => Some f | _ => None end) l.

Definition reports (l : list Step) : list string :=
  omap (fun st => match st with Report m _ => Some m | _ => None end) l.

(** *** Scenery areas *)

(** [scenery::SceneryArea] as far as it is read here, with the number of
    files that [FileResolver::getFiles] finds for the area; neither class
    is part of the sources here. *)
Record SceneryArea := mkSceneryArea {
  areaNumber : Z;
  title : string;
  files : Z;
}.


(** [NavDatabase::countFiles]: the run with the counters [numFiles] and
    [numSceneryAreas]. *)
Fixpoint countFiles (progress : Handler) (areas : list SceneryArea)
    (numFiles numSceneryAreas : Z) (run : Run) : Run * Z * Z :=
  match areas with
  | [] => (run, numFiles, numSceneryAreas)
  | area :: rest =>
      let '(a, run') :=
        reportOtherMsg progress ("Counting files for " +:+ title area +:+ " ...") run in
      let run' := setAborted a run' in
      if a then (run', numFiles, numSceneryAreas)
      else
        let num := files area in
        if 0 <? num
        then countFiles progress rest (numFiles + num) (numSceneryAreas + 1) run'
        else countFiles progress rest numFiles numSceneryAreas run'
  end.

Section Compiler.
Context `{Simulators}.

(** [NavDatabaseOptions] as read here; [basicValidationTables] is the map
    from table name to the least number of rows, in the order of its keys. *)
Record Options := mkOptions {
  simulatorType : SimulatorType;
  isDeduplicate : bool;
  isResolveAirways : bool;
  isCreateRouteTables : bool;
  isDropIndexes : bool;
  isBasicValidation : bool;
  isDatabaseReport : bool;
  isVacuumDatabase : bool;
  isAnalyzeDatabase : bool;
  basicValidationTables : list (string * Z);
}.

Variable options : Options.

(** *** The number of progress steps *)

(** [NavDatabase::countMsSimSteps]. *)
Definition countMsSimSteps : Z :=
  let total := 0 in
  let total := total + PROGRESS_NUM_TASK_STEPS in (* "Creating indexes" *)
  let total := total + PROGRESS_NUM_TASK_STEPS in (* "Creating boundary indexes" *)
  let total := if isDeduplicate options
               then total + PROGRESS_NUM_TASK_STEPS else total in (* "Clean up" *)
  let total := if isResolveAirways options
               then total + PROGRESS_NUM_RESOLVE_AIRWAY_STEPS else total in (* "Creating airways" *)
  let total := total + PROGRESS_NUM_TASK_STEPS in (* "Merging VOR and TACAN to VORTAC" *)
  let total := total + PROGRESS_NUM_TASK_STEPS in (* "Updating waypoints" *)
  let total := total + PROGRESS_NUM_TASK_STEPS in (* "Updating approaches" *)
  let total := total + PROGRESS_NUM_TASK_STEPS in (* "Updating Airports" *)
  let total := total + PROGRESS_NUM_TASK_STEPS in (* "Updating Navaids" *)
  let total := total + PROGRESS_NUM_TASK_STEPS in (* "Updating ILS" *)
  let total := total + PROGRESS_NUM_TASK_STEPS in (* "Updating ILS Count" *)
  let total := total + PROGRESS_NUM_TASK_STEPS in (* "Collecting navaids for search" *)
  let total := total + PROGRESS_NUM_TASK_STEPS in (* "Creating indexes for airport" *)
  let total := total + PROGRESS_NUM_TASK_STEPS in (* "Clean up runways" *)
  let total := total + PROGRESS_NUM_TASK_STEPS in (* "Creating indexes for search" *)
  let total := if isVacuumDatabase options
               then total + PROGRESS_NUM_TASK_STEPS else total in (* "Vacuum Database" *)
  let total := if isAnalyzeDatabase options
               then total + PROGRESS_NUM_TASK_STEPS else total in (* "Analyze Database" *)
  total.

(** [NavDatabase::countFsxP3dSteps] on the areas of the scenery
    configuration: the run and the total. *)
Definition countFsxP3dSteps (progress : Handler) (areas : list SceneryArea) (run : Run)
  : Run * Z :=
  (* Count the files for exact progress reporting *)
  let '(run', numProgressReports, numSceneryAreas) := countFiles progress areas 0 0 run in
  if aborted run' then (run', 0)
  else
    let total := numProgressReports + numSceneryAreas + PROGRESS_NUM_SCHEMA_STEPS in
    let total := total + countMsSimSteps in
    (run', total).

(** [NavDatabase::countMsfsSteps]. *)
Definition countMsfsSteps (progress : Handler) (areas : list SceneryArea) (run : Run)
  : Run * Z :=
  let '(run', numProgressReports, numSceneryAreas) := countFiles progress areas 0 0 run in
  if aborted run' then (run', 0)
  else
    let total := numProgressReports + numSceneryAreas + PROGRESS_NUM_SCHEMA_STEPS in
    let total := total + 1 in (* Load translations *)
    let total := total + countMsSimSteps in
    let total := total - 1 in (* No TACAN merge *)
    (run', total).

(** *** Loading and post processing *)

(** [NavDatabase::loadFsxP3dMsfsPost]. *)
Definition loadFsxP3dMsfsPost (progress : Handler) : Run -> bool * Run :=
  returning (
    returnIf (runScript (Some progress) "fs/db/create_indexes_post_load.sql" "Creating indexes") ;;
    returnIf (runScript (Some progress) "fs/db/create_indexes_post_load_boundary.sql"
                        "Creating boundary indexes") ;;
    when (isDeduplicate options)
      (* Delete duplicates before any foreign keys ids are assigned *)
      (returnIf (runScript (Some progress) "fs/db/delete_duplicates.sql" "Clean up"))).

(** [NavDatabase::basicValidateTable]; [tables] gives the number of rows
    of the tables that exist. *)
Definition basicValidateTable (tables : gmap string Z) (table : string) (minCount : Z)
    (run : Run) : Run :=
  match tables !! table with
  | None =>
      (* throw Exception: table not found *)
      mkRun (aborted run) (validationError run) (Some table) (done run)
  | Some count =>
      if count <? minCount
      then mkRun (aborted run) true (thrown run) (done run)
      else run
  end.

(** [NavDatabase::basicValidation]; the loop ends with the first exception. *)
Definition basicValidation (progress : Handler) (tables : gmap string Z) : Run -> bool * Run :=
  returning (
    returnIf (reportOther progress "Basic Validation") ;;
    exec (fun run =>
      fold_left (fun run '(table, minCount) =>
                   match thrown run with
                   | Some _ => run
                   | None => basicValidateTable tables table minCount run
                   end)
                (basicValidationTables options) run)).

(** [NavDatabase::createDatabaseReport]. *)
Definition createDatabaseReport (progress : Handler) : Run -> bool * Run :=
  returning (
    returnIf (reportOther progress "Creating table statistics") ;;
    exec (did (Task "printTableStats")) ;;
    returnIf (reportOther progress "Creating report on values") ;;
    exec (did (Task "createColumnReport")) ;;
    returnIf (reportOther progress "Creating report on duplicates") ;;
    exec (did (Task "reportDuplicates")) ;;
    returnIf (reportOther progress "Creating report on coordinate duplicates") ;;
    exec (did (Task "reportCoordinateViolations"))).

(** [AirwayResolver::run], which is not part of the sources here: it is
    given the number of steps to report and returns whether it was
    aborted. *)
Variable resolverRun : Handler -> Z -> Run -> bool * Run.

(** [NavDatabase::createInternal] behind the comment "Loading is done here -
    now continue with the post process steps"; [tables] gives the number of
    rows of the tables of the database for the basic validation. *)
Definition postProcess (progress : Handler) (tables : gmap string Z) : Run -> Run :=
  let sim := simulatorType options in
  let notXplane := negb (isAnyXplane sim) in
  let notNavigraph := negb (bool_decide (sim = NAVIGRAPH)) in
  let notMsfs := negb (bool_decide (sim = MSFS)) in
  void (
    when (isResolveAirways options && notNavigraph) (
      (* Drop large segments only for the borked data of FSX/P3D/MSFS *)
      when (notNavigraph && notXplane) (exec (did (Task "setMaxAirwaySegmentLengthNm(800)"))) ;;
      exec (did (Task "assignWaypointIds")) ;;
      returnIf (resolverRun progress PROGRESS_NUM_RESOLVE_AIRWAY_STEPS)) ;;
    when (notXplane && notNavigraph && notMsfs)
      (* Create VORTACs *)
      (returnIf (runScript (Some progress) "fs/db/update_vor.sql"
                           "Merging VOR and TACAN to VORTAC")) ;;
    (* Set the nav_ids (VOR, NDB) in the waypoint table and update the airway counts *)
    returnIf (runScript (Some progress) "fs/db/update_wp_ids.sql" "Updating waypoints") ;;
    when (notXplane && notNavigraph)
      (* Assign airport ids based on stored idents for waypoint and ndb *)
      (returnIf (runScript (Some progress) "fs/db/update_nav_ids.sql" "Updating Navaids")) ;;
    when (bool_decide (sim = NAVIGRAPH))
      (* Remove all unreferenced dummy waypoints that were added for airway generation *)
      (returnIf (runScript (Some progress) "fs/db/dfd/clean_waypoints.sql"
                           "Cleaning up waypoints")) ;;
    (* Set the runway_end_ids in the approach table *)
    returnIf (runScript (Some progress) "fs/db/update_approaches.sql" "Updating approaches") ;;
    (* Assign region to airports by best guess from nearby navaids *)
    returnIf (runScript (Some progress) "fs/db/update_airport.sql" "Updating Airports") ;;
    (if bool_decide (sim = DFD)
     then returnIf (runScript (Some progress) "fs/db/dfd/update_airport_ils.sql" "Updating ILS")
     else if notXplane
     (* Set runway end ids into the ILS *)
     then returnIf (runScript (Some progress) "fs/db/update_airport_ils.sql" "Updating ILS")
     else skip) ;;
    (* update the ILS count in the airport table *)
    returnIf (runScript (Some progress) "fs/db/update_num_ils.sql" "Updating ILS Count") ;;
    (* Prepare the search table *)
    returnIf (runScript (Some progress) "fs/db/populate_nav_search.sql"
                        "Collecting navaids for search") ;;
    when (isCreateRouteTables options) (
      (* Fill tables for automatic flight plan calculation *)
      returnIf (runScript (Some progress) "fs/db/populate_route_node.sql"
                          "Populating routing tables") ;;
      returnIf (reportOther progress "Creating route edges for VOR and NDB") ;;
      (* Create a network of VOR and NDB stations that allow radio navaid routing *)
      exec (did (Task "RouteEdgeWriter::run")) ;;
      returnIf (runScript (Some progress) "fs/db/populate_route_edge.sql"
                          "Creating route edges waypoints")) ;;
    returnIf (runScript (Some progress) "fs/db/finish_airport_schema.sql"
                        "Creating indexes for airport") ;;
    when (notXplane && notNavigraph)
      (returnIf (runScript (Some progress) "fs/db/update_sea_base.sql" "Clean up runways")) ;;
    returnIf (runScript (Some progress) "fs/db/finish_schema.sql"
                        "Creating indexes for search") ;;
    when (isCreateRouteTables options)
      (returnIf (runScript (Some progress) "fs/db/finish_schema_route.sql"
                           "Creating indexes for route")) ;;
    when (bool_decide (sim = MSFS)) (
      returnIf (reportOther progress "Loading translations") ;;
      (* Load translation files with all languages into the database *)
      exec (did (Task "LanguageJson::readFromDirToDb"))) ;;
    (* Update the metadata in the database *)
    exec (did (Task "DatabaseMeta::updateAll")) ;;
    commit ;;
    when (bool_decide (sim = NAVIGRAPH))
      (* database is kept locked by queries - need to close this late *)
      (exec (did (Task "detachDatabase"))) ;;
    (* Done here - now only some options statistics and reports are left *)
    when (isDropIndexes options) (
      returnIf (reportOther progress "Creating Database preparation Script") ;;
      exec (did (Task "createPreparationScript"))) ;;
    when (isBasicValidation options)
      (calling (basicValidation progress tables)) ;;
    when (isDatabaseReport options) (
      (* Do a report of problems rather than failing totally during loading *)
      when (notNavigraph && notXplane) (exec (did (Task "logResults"))) ;;
      calling (createDatabaseReport progress)) ;;
    when (isDropIndexes options) (
      returnIf (reportOther progress "Dropping All Indexes") ;;
      exec (did (Task "dropAllIndexes"))) ;;
    when (isVacuumDatabase options) (
      returnIf (reportOtherInc progress "Vacuum Database" PROGRESS_NUM_TASK_STEPS) ;;
      exec (did (Task "vacuum"))) ;;
    when (isAnalyzeDatabase options) (
      returnIf (reportOtherInc progress "Analyze Database" PROGRESS_NUM_TASK_STEPS) ;;
      exec (did (Task "analyze"))) ;;
    (* Send the final progress report *)
    exec (did (Task "reportFinish"))).

End Compiler.

End Nav.

(* ===================================================================== *)
(** ** A planar instance of the geodetic interface                        *)
(* ===================================================================== *)

(** Coordinates, angles and distances are integers (degrees, and metres on
    a grid where one degree is one unit); rectangles are axis parallel
    boxes.  The instance is used to run the compiler on concrete rows whose
    numeric columns hold numbers; the conversions between floats and
    strings are not exercised and are constant. *)
Module Planar.

#[export] Instance model : Model := {|
  F := Z;
  ofZ z := z;
  fadd := Z.add;
  fsub := Z.sub;
  fdiv := Z.div;
  strToF _ := 0;
  fround z := z;
  fstr _ := EmptyString;
  fnonzero z := negb (z =? 0);
  normalizeCourse c := c mod 360;
  opposedCourseDeg c := if 180 <? c then c - 180 else c + 180;
  feetToMeter ft := ft * 3 / 10;
  nmToMeter nm := nm * 1852;
  POS_EPSILON_100M := 1;
  INVALID_VALUE := 2 ^ 31;
|}.

Definition p_endpoint (p : Pos) (dist angle : Z) : Pos :=
  let a := angle mod 360 in
  if a <? 45 then mkPos (lonX p) (latY p + dist) (altitude p)
  else if a <? 135 then mkPos (lonX p + dist) (latY p) (altitude p)
  else if a <? 225 then mkPos (lonX p) (latY p - dist) (altitude p)
  else if a <? 315 then mkPos (lonX p - dist) (latY p) (altitude p)
  else mkPos (lonX p) (latY p + dist) (altitude p).

Definition p_extend (r : Rect) (p : Pos) : Rect :=
  mkRect (mkPos (Z.min (lonX (topLeft r)) (lonX p)) (Z.max (latY (topLeft r)) (latY p)) 0)
         (mkPos (Z.max (lonX (bottomRight r)) (lonX p)) (Z.min (latY (bottomRight r)) (latY p)) 0).

Definition p_inflate (r : Rect) (dx dy : Z) : Rect :=
  mkRect (mkPos (lonX (topLeft r) - dx) (latY (topLeft r) + dy) 0)
         (mkPos (lonX (bottomRight r) + dx) (latY (bottomRight r) - dy) 0).

Definition p_contains (r : Rect) (p : Pos) : Prop :=
  lonX (topLeft r) <= lonX p <= lonX (bottomRight r) /\
  latY (bottomRight r) <= latY p <= latY (topLeft r).

#[export] Instance ops : Ops := {|
  endpoint := p_endpoint;
  normalize p := p;
  distanceMeterTo p q := Z.abs (lonX p - lonX q) + Z.abs (latY p - latY q);
  inflate := p_inflate;
  extend := p_extend;
  contains := p_contains;
  getMagVar p := 0;
|}.

(** A runway end row of the source table as far as the pairing reads it. *)
Definition rwEnd (ident : string) (bearing : Z) (llz : QVariant) : SqlRecord :=
  [("airport_identifier"%string, VStr "KAAA");
   ("runway_identifier"%string, VStr ident);
   ("runway_true_bearing"%string, VInt bearing);
   ("displaced_threshold_distance"%string, VInt 120);
   ("llz_identifier"%string, llz)].

End Planar.

(* ===================================================================== *)
(** ** A sample instance of the approach record format                    *)
(* ===================================================================== *)

(** Record type numbers chosen for the run, two byte legs, transitions
    without content, an identifier decoding that reads five digits to the
    base 38, and a subrecord check that stops at a record of size zero.
    The instance is used to run the approach reader on concrete bytes. *)
Module Sample.

Import Byte.

Definition icaoChar (coded : Z) : string :=
  if coded =? 0 then EmptyString
  else if (2 <=? coded) && (coded <? 12)
  then String (ascii_of_N (Z.to_N (48 + (coded - 2)))) EmptyString
  else String (ascii_of_N (Z.to_N (65 + (coded - 12)))) EmptyString.

Definition icao5 (value : Z) (noBitShift : bool) : string :=
  let v := if noBitShift then value else Z.shiftr value 5 in
  (icaoChar ((v / (38 * 38 * 38 * 38)) mod 38) +:+
   icaoChar ((v / (38 * 38 * 38)) mod 38) +:+
   icaoChar ((v / (38 * 38)) mod 38) +:+
   icaoChar ((v / 38) mod 38) +:+
   icaoChar (v mod 38))%string.

#[export] Instance format : Bgl.Format := {|
  Bgl.LEGS := 0x2d;
  Bgl.LEGS_MSFS := 0xe1;
  Bgl.LEGS_MSFS_116 := 0xe5;
  Bgl.LEGS_MSFS_118 := 0xe8;
  Bgl.MISSED_LEGS := 0x2e;
  Bgl.MISSED_LEGS_MSFS := 0xe2;
  Bgl.MISSED_LEGS_MSFS_116 := 0xe6;
  Bgl.MISSED_LEGS_MSFS_118 := 0xe9;
  Bgl.TRANSITION := 0x2c;
  Bgl.TRANSITION_MSFS := 0xe3;
  Bgl.TRANSITION_MSFS_116 := 0xe7;
  Bgl.MSFS_APPROACH_NEW := 0xfa;
  Bgl.ApproachLeg := Z;
  Bgl.Transition := unit;
  Bgl.readApproachLeg _ := Bgl.readUShort;
  Bgl.readTransition _ := Bgl.ret tt;
  Bgl.intToIcao := icao5;
  Bgl.checkSubRecord r := Bgl.size r =? 0;
|}.

(** The bytes of an approach record of 38 bytes: the header of 32 bytes
    and one subrecord of type 0x99 and 6 bytes. *)
Definition approachBytes : list Byte.byte :=
  [ (* id, size *) x24; x00; x26; x00; x00; x00;
    (* suffix, runway number, flags 0xA7: type 7, designator 2, gps overlay *)
    x30; x0d; xa7;
    (* transitions, legs, missed legs *) x00; x00; x00;
    (* fix flags *) xe2; x5c; xb5; x01;
    (* fix ident flags *) x00; x00; x00; x00;
    (* altitude, heading, missed altitude *)
    x00; x00; x00; x00;  x00; x00; x00; x00;  x00; x00; x00; x00;
    (* subrecord: id 0x99, size 6 *) x99; x00; x06; x00; x00; x00 ].

Definition approachStream : Bgl.Stream := Bgl.mkStream approachBytes 0 [].

(** The approach as the header of [approachBytes] gives it, and the stream
    behind the header. *)
Definition headerApproach : Bgl.Approach :=
  Bgl.mkApproach (Bgl.mkRec 0 0x24 38) 48 13 7 2 true 0 2 "EA9J" EmptyString EmptyString
                 0 0 0 [] [] [].

Definition behindHeader : Bgl.Stream := Bgl.mkStream approachBytes 32 [].

(** The bytes of an approach record of 44 bytes: the header of 32 bytes
    and one subrecord of legs with the two legs 7 and 9. *)
Definition legsBytes : list Byte.byte :=
  [ (* id, size *) x24; x00; x2c; x00; x00; x00;
    (* suffix, runway number, flags *) x30; x0d; xa7;
    (* transitions, legs, missed legs *) x00; x02; x00;
    (* fix flags *) xe2; x5c; xb5; x01;
    (* fix ident flags *) x00; x00; x00; x00;
    (* altitude, heading, missed altitude *)
    x00; x00; x00; x00;  x00; x00; x00; x00;  x00; x00; x00; x00;
    (* subrecord: legs, size 12 *) x2d; x00; x0c; x00; x00; x00;
    (* number of legs, legs *) x02; x00;  x07; x00;  x09; x00 ].

Definition legsStream : Bgl.Stream := Bgl.mkStream legsBytes 0 [].

(** The approach as the header of [legsBytes] gives it. *)
Definition headerLegs : Bgl.Approach :=
  Bgl.mkApproach (Bgl.mkRec 0 0x24 44) 48 13 7 2 true 0 2 "EA9J" EmptyString EmptyString
                 0 0 0 [] [] [].

End Sample.

(* ===================================================================== *)
(** ** The runway designator rules in the words of the specification      *)
(* ===================================================================== *)

Module PairSpec.

(** A two digit number, zero padded. *)
Definition twoDigits (n : Z) : string :=
  String (Qt.digit_char (n / 10)) (String (Qt.digit_char (n mod 10)) EmptyString).

Definition sideStr (side : option ascii) : string :=
  match side with
  | Some c => String c EmptyString
  | None => EmptyString
  end.

(** An identifier of the form RW, two digit number, optional side letter. *)
Definition rwIdent (n : Z) (side : option ascii) : string :=
  ("RW" +:+ twoDigits n +:+ sideStr side)%string.

(** Numeric [(n + 18) mod 36], with 0 remapped to 36. *)
Definition oppositeNumber (n : Z) : Z :=
  let m := (n + 18) mod 36 in
  if m =? 0 then 36 else m.

(** L and R are swapped; C and no letter stay. *)
Definition oppositeSide (side : option ascii) : option ascii :=
  match side with
  | Some c =>
      if Ascii.eqb c "R" then Some "L"%char
      else if Ascii.eqb c "L" then Some "R"%char
      else Some c
  | None => None
  end.

(** The canonical opposite name. *)
Definition oppositeIdent (n : Z) (side : option ascii) : string :=
  rwIdent (oppositeNumber n) (oppositeSide side).

(** A number in decimal, zero padded to two digits. *)
Definition padded (o : Z) : string :=
  let pad := if o <? 10 then "0"%string else EmptyString in
  (pad +:+ Qt.number o)%string.

(** A runway identifier with a number from 01 to 36. *)
Definition validIdent (s : string) : Prop :=
  exists n side, 1 <= n <= 36 /\ s = rwIdent n side.

Section Pairing.
Context `{Ops}.

(** An end with the opposite identifier exists in the input set. *)
Definition oppositePresent (runways : list SqlRecord) (rw : SqlRecord) : Prop :=
  exists orw, orw ∈ runways /\ Dfd.identOf orw = Dfd.opposedRname (Dfd.identOf rw).


(** All identifiers of the set are runway identifiers from 01 to 36. *)
Definition allValid (runways : list SqlRecord) : Prop :=
  forall r, r ∈ runways -> validIdent (Dfd.identOf r).


(** Every identifier in [found] has its opposed name in the input set. *)
Definition foundPresent (runways : list SqlRecord) (st : Dfd.PairState) : Prop :=
  forall x, x ∈ Dfd.found st ->
    exists r, r ∈ runways /\ Dfd.identOf r = Dfd.opposedRname x.

(** The closed end in the words of the specification, column by column: a
    copy of the present end with the identifier replaced by the canonical
    opposite, the displaced threshold zeroed, the ILS identifier cleared,
    the true bearing set to the opposed course, and a closed flag set. *)
Definition closedEndColumn (rw : SqlRecord) (name : string) : QVariant :=
  if String.eqb name "is_closed" then VBool true
  else if negb (hasField rw name) then VNull
  else if String.eqb name "runway_identifier"
       then VStr (Dfd.opposedRname (Dfd.identOf rw))
  else if String.eqb name "displaced_threshold_distance" then VInt 0
  else if String.eqb name "llz_identifier" then VNull
  else if String.eqb name "runway_true_bearing"
       then VFloat (opposedCourseDeg (valueFloat rw "runway_true_bearing"))
  else value rw name.

End Pairing.

End PairSpec.

(* ===================================================================== *)
(** ** The airway rows in the words of the specification                  *)
(* ===================================================================== *)

Module AirwaySpec.
Section Rows.
Context `{Ops}.

Definition nameOf (row : SqlRecord) : string := valueStr row "route_identifier".

(** The waypoint description code has 'E' as its second character. *)
Definition endOfRoute (row : SqlRecord) : bool :=
  Dfd.endOfRouteCode (valueStr row "waypoint_description_code").

(** The state of the scan after the rows [pre] and then [prev]. *)
Definition after (pre : list SqlRecord) (prev : SqlRecord) : Dfd.AirwayState :=
  Dfd.airwayLoop (pre ++ [prev]).

(** While no name is remembered, fragment and sequence number are 1. *)
Definition unnamedAtOne (st : Dfd.AirwayState) : Prop :=
  Dfd.lastName st = EmptyString ->
  Dfd.sequenceNumber st = 1 /\ Dfd.fragmentNumber st = 1.

End Rows.

(** An airway row of the query: route, sequence number, description code
    and waypoint. *)
Definition row (name : string) (seqno : Z) (code : string) (waypoint : Z)
  : @SqlRecord Planar.model :=
  [("route_identifier"%string, VStr name);
   ("seqno"%string, VInt seqno);
   ("flightlevel"%string, VStr "B");
   ("waypoint_description_code"%string, VStr code);
   ("waypoint_id"%string, VInt waypoint);
   ("direction_restriction"%string, VStr " ");
   ("minimum_altitude1"%string, VInt 5000);
   ("maximum_altitude"%string, VInt 45000);
   ("lonx"%string, VInt waypoint);
   ("laty"%string, VInt 0)].

End AirwaySpec.

(* ===================================================================== *)
(** ** The airport columns in the words of the specification              *)
(* ===================================================================== *)

Module RunwaySpec.
Section Airport.
Context `{Ops}.

(** The number of pairs whose primary end has an empty llz_identifier. *)
Definition countEmptyIls (primaries : list SqlRecord) : Z :=
  Z.of_nat (length (List.filter (fun r => Qt.isEmpty (valueStr r "llz_identifier")) primaries)).



Definition airportIdent (a : SqlRecord) : string := valueStr a "airport_identifier".



End Airport.

(** An airport row and runway end rows of the source for a run. *)
Definition airportRow (ident : string) (lon lat : Z) : @SqlRecord Planar.model :=
  [("airport_identifier"%string, VStr ident);
   ("airport_ref_longitude"%string, VInt lon);
   ("airport_ref_latitude"%string, VInt lat);
   ("elevation"%string, VInt 0);
   ("longest_runway_surface_code"%string, VStr "H")].

Definition runwayEndRow (ident : string) (lon lat bearing : Z) (llz : @QVariant Planar.model)
  : @SqlRecord Planar.model :=
  [("airport_identifier"%string, VStr "KAAA");
   ("runway_identifier"%string, VStr ident);
   ("runway_longitude"%string, VInt lon);
   ("runway_latitude"%string, VInt lat);
   ("runway_magnetic_bearing"%string, VInt bearing);
   ("runway_true_bearing"%string, VInt bearing);
   ("landing_threshold_elevation"%string, VInt 10);
   ("displaced_threshold_distance"%string, VInt 0);
   ("runway_length"%string, VInt 20);
   ("runway_width"%string, VInt 1);
   ("llz_identifier"%string, llz)].

Definition emptyState : @Dfd.State Planar.model :=
  Dfd.mkState ∅ ∅ ∅ 0 0 0 ∅ [] [].

End RunwaySpec.

(* ===================================================================== *)
(** ** The update passes in the words of the specification                *)
(* ===================================================================== *)

Module UpdateSpec.
Section Passes.
Context `{Ops}.

(** The position (lonx, laty) of a positional record. *)
Definition rowPosition (r : SqlRecord) : Pos :=
  Pos2 (valueFloat r "lonx") (valueFloat r "laty").

(** The tables of the magnetic variation pass, with their id columns. *)
Definition magvarTables : list (string * string) :=
  [("waypoint", "waypoint_id"); ("ndb", "ndb_id")]%string.

(** The row with the magnetic variation column set to the value of the
    magnetic model at the position of the row. *)
Definition withModelMagvar (r : SqlRecord) : SqlRecord :=
  setValue r "mag_var" (VFloat (getMagVar (rowPosition r))).

(** The feather of an ILS row for the configured feather length. *)
Definition rowFeather (featherLen : Z) (r : SqlRecord) : Pos * Pos * Pos :=
  Dfd.featherSpec (rowPosition r) (valueFloat r "loc_heading") (valueFloat r "loc_width")
                  (nmToMeter featherLen).

(** The six feather columns of the row [r'] hold the three points. *)
Definition featherColumns (r' : SqlRecord) (f : Pos * Pos * Pos) : Prop :=
  let '(corner1, mid, corner2) := f in
  value r' "end1_lonx" = VFloat (lonX corner1) /\
  value r' "end1_laty" = VFloat (latY corner1) /\
  value r' "end_mid_lonx" = VFloat (lonX mid) /\
  value r' "end_mid_laty" = VFloat (latY mid) /\
  value r' "end2_lonx" = VFloat (lonX corner2) /\
  value r' "end2_laty" = VFloat (latY corner2).

End Passes.

(** A waypoint or NDB row, and an ILS row, for a run. *)
Definition navRow (idColumn : string) (id lon lat : Z) : @SqlRecord Planar.model :=
  [(idColumn, VInt id); ("lonx"%string, VInt lon); ("laty"%string, VInt lat);
   ("mag_var"%string, VNull)].

Definition ilsRow (id lon lat heading width : Z) : @SqlRecord Planar.model :=
  [("ils_id"%string, VInt id); ("lonx"%string, VInt lon); ("laty"%string, VInt lat);
   ("loc_heading"%string, VInt heading); ("loc_width"%string, VInt width);
   ("end1_lonx"%string, VNull); ("end1_laty"%string, VNull);
   ("end_mid_lonx"%string, VNull); ("end_mid_laty"%string, VNull);
   ("end2_lonx"%string, VNull); ("end2_laty"%string, VNull)].

(** A TACAN row of the table vor with the frequency 11370. *)
Definition tacanRow : @SqlRecord Planar.model :=
  [("vor_id"%string, VInt 1); ("frequency"%string, VInt 11370); ("type"%string, VStr "TC");
   ("channel"%string, VNull)].

End UpdateSpec.

(* ===================================================================== *)
(** ** The calls on the procedure writer, row by row                      *)
(* ===================================================================== *)

Module ProcedureCalls.
Section Calls.
Context `{Ops}.
Variable strToChar : string -> ascii.
Variable index : gmap string Z.
Variable initial : Dfd.ProcedureInput.
Variable code : string.

Definition identOf (row : SqlRecord) : string := valueStr row "airport_identifier".

(** The default constructed input with the row code set. *)
Definition coded : Dfd.ProcedureInput :=
  Dfd.mkProcedureInput code (Dfd.airportIdent initial) (Dfd.airportId initial)
    (Dfd.seqNr initial) (Dfd.routeType initial) (Dfd.sidStarAppIdent initial)
    (Dfd.transIdent initial) (Dfd.fixIdent initial) (Dfd.icaoCode initial)
    (Dfd.descCode initial) (Dfd.turnDir initial) (Dfd.pathTerm initial)
    (Dfd.recdNavaid initial) (Dfd.theta initial) (Dfd.rho initial) (Dfd.magCourse initial)
    (Dfd.rteHoldTime initial) (Dfd.rteHoldDist initial) (Dfd.altDescr initial)
    (Dfd.altitude initial) (Dfd.altitude2 initial) (Dfd.transAlt initial)
    (Dfd.speedLimitDescr initial) (Dfd.speedLimit initial) (Dfd.centerFixOrTaaPt initial).

(** The input of a row: the row code, the airport of the row with its id
    from the index (0 when the index does not have it), and the columns of
    the row. *)
Definition inputFor (row : SqlRecord) : Dfd.ProcedureInput :=
  Dfd.fillProcedureInput strToChar
    (Dfd.mkProcedureInput code (identOf row) (default 0 (index !! identOf row))
       (Dfd.seqNr initial) (Dfd.routeType initial) (Dfd.sidStarAppIdent initial)
       (Dfd.transIdent initial) (Dfd.fixIdent initial) (Dfd.icaoCode initial)
       (Dfd.descCode initial) (Dfd.turnDir initial) (Dfd.pathTerm initial)
       (Dfd.recdNavaid initial) (Dfd.theta initial) (Dfd.rho initial) (Dfd.magCourse initial)
       (Dfd.rteHoldTime initial) (Dfd.rteHoldDist initial) (Dfd.altDescr initial)
       (Dfd.altitude initial) (Dfd.altitude2 initial) (Dfd.transAlt initial)
       (Dfd.speedLimitDescr initial) (Dfd.speedLimit initial) (Dfd.centerFixOrTaaPt initial))
    row.

(** The row [row] comes after the row [prev] of another airport. *)
Definition airportChanged (prev row : SqlRecord) : bool :=
  negb (Qt.isEmpty (identOf prev)) && negb (String.eqb (identOf row) (identOf prev)).

(** The calls for the rows after the row [prev]: a procedure is finished
    with the input of the last row of its airport, then the writer is
    reset; every row is written. *)
Fixpoint callsAfter (prev : SqlRecord) (rows : list SqlRecord) : list Dfd.WriterCall :=
  match rows with
  | [] => [Dfd.CallFinish (inputFor prev); Dfd.CallReset]
  | row :: rest =>
      (if airportChanged prev row
       then [Dfd.CallFinish (inputFor prev); Dfd.CallReset] else []) ++
      Dfd.CallWrite (inputFor row) :: callsAfter row rest
  end.

Definition callsFor (rows : list SqlRecord) : list Dfd.WriterCall :=
  match rows with
  | [] => [Dfd.CallFinish coded; Dfd.CallReset]
  | row :: rest => Dfd.CallWrite (inputFor row) :: callsAfter row rest
  end.

End Calls.

Section Kinds.
Context `{Ops}.

(** The inputs written and the inputs finished, in order. *)
Definition writes (calls : list Dfd.WriterCall) : list Dfd.ProcedureInput :=
  omap (fun c => match c with Dfd.CallWrite p => Some p | _ => None end) calls.

Definition finishes (calls : list Dfd.WriterCall) : list Dfd.ProcedureInput :=
  omap (fun c => match c with Dfd.CallFinish p => Some p | _ => None end) calls.

End Kinds.

End ProcedureCalls.

(* ===================================================================== *)
(** ** Progress steps and aborts of a piece of the compiler               *)
(* ===================================================================== *)

Module NavSteps.

(** A handler that never asks to abort. *)
Definition quiet (progress : Nav.Handler) : Prop := forall l, progress l = false.

(** The piece goes on behind its end and reports [n] steps. *)
Definition adds (b : Nav.Block) (n : Z) : Prop :=
  forall run, exists r,
    b run = inr r /\ Nav.steps (Nav.done r) = Nav.steps (Nav.done run) + n.

(** The run ends with a report that the handler answered with abort. *)
Definition endsAborted (progress : Nav.Handler) (r : Nav.Run) : Prop :=
  Nav.aborted r = true /\ progress (Nav.done r) = true /\
  exists l message increment, Nav.done r = l ++ [Nav.Report message increment].

(** The piece returns only at a report that the handler answered with
    abort, with [aborted] set; it goes on with [aborted] not set and adds to
    what was done. *)
Definition stops (progress : Nav.Handler) (b : Nav.Block) : Prop :=
  forall run, Nav.aborted run = false ->
    match b run with
    | inl r => endsAborted progress r
    | inr r => Nav.aborted r = false /\ exists more, Nav.done r = Nav.done run ++ more
    end.

(** The areas that have files, and the number of their files. *)
Definition withFiles (areas : list Nav.SceneryArea) : list Nav.SceneryArea :=
  List.filter (fun area => 0 <? Nav.files area) areas.

Definition numberOfFiles (areas : list Nav.SceneryArea) : Z :=
  fold_right (fun area n => Nav.files area + n) 0 areas.

(** A table of the basic validation that has fewer rows than required. *)
Definition tooSmall (tables : gmap string Z) (entry : string * Z) : Prop :=
  exists count, tables !! entry.1 = Some count /\ count < entry.2.

(** Simulators for a run: FSX, Prepar3D, X-Plane 11 and 12, MSFS and the
    Navigraph database, which is also named DFD. *)
Inductive Sim := FSX | P3D | XPLANE_11 | XPLANE_12 | SimMSFS | SimNAVIGRAPH.

#[export] Instance Sim_eq_dec : EqDecision Sim.
Proof. solve_decision. Defined.

#[export] Instance simulators : Nav.Simulators := {|
  Nav.SimulatorType := Sim;
  Nav.isAnyXplane := fun sim =>
    match sim with XPLANE_11 | XPLANE_12 => true | _ => false end;
  Nav.NAVIGRAPH := SimNAVIGRAPH;
  Nav.DFD := SimNAVIGRAPH;
  Nav.MSFS := SimMSFS;
|}.

(** A resolver that makes one report of all its steps. *)
Definition resolveAtOnce (progress : Nav.Handler) (n : Z) : Nav.Run -> bool * Nav.Run :=
  Nav.reportOtherInc progress "Creating airways" n.

(** Options for a run: all airways resolved, duplicates removed, nothing
    else. *)
Definition runOptions (sim : Sim) : Nav.Options :=
  Nav.mkOptions sim true true false false false false false false [].

Definition freshRun : Nav.Run := Nav.mkRun false false None [].

(** Handlers for a run: one that never asks to abort, one that asks to
    abort once more than [n] steps are reported, and one that asks to abort
    at the report of the basic validation. *)
Definition never : Nav.Handler := fun _ => false.

Definition abortAfter (n : Z) : Nav.Handler := fun l => n <? Nav.steps l.

Definition abortAtValidation : Nav.Handler := fun l =>
  match last l with
  | Some (Nav.Report message increment) =>
      String.eqb message "Basic Validation" && (increment =? 1)
  | _ => false
  end.

(** Options with the basic validation of three tables, scenery areas of
    which one has no files, and the numbers of rows of tables. *)
Definition validationOptions : Nav.Options :=
  Nav.mkOptions FSX true true false false true false false false
                [("airport", 10); ("ndb", 1); ("vor", 5)]%string.

Definition sceneryAreas : list Nav.SceneryArea :=
  [Nav.mkSceneryArea 1 "Base" 3; Nav.mkSceneryArea 2 "Empty" 0; Nav.mkSceneryArea 5 "Addon" 4].

Definition rowCounts : gmap string Z :=
  {[ "airport"%string := 20; "ndb"%string := 0; "vor"%string := 7 ]}.

End NavSteps.

(* ===================================================================== *)
(** * Properties                                                          *)
(* ===================================================================== *)

Local Open Scope Z_scope.

(** ** Bounded checks by evaluation *)

Lemma range_check (P : Z -> bool) (hi : nat) :
  forallb (fun k => P (Z.of_nat k)) (seq 0 hi) = true ->
  forall n, 0 <= n < Z.of_nat hi -> P n = true.
Proof.
  intros Hall n Hn.
  rewrite forallb_forall in Hall.
  specialize (Hall (Z.to_nat n)).
  rewrite Z2Nat.id in Hall by lia.
  apply Hall, in_seq. lia.
Qed.

(** ** The opposed runway name *)

Section OpposedName.
Import PairSpec.

Lemma toInt_twoDigits n : 0 <= n <= 99 -> Qt.toInt (twoDigits n) = n.
Proof.
  intros Hn.
  apply Z.eqb_eq.
  apply (range_check (fun k => Qt.toInt (twoDigits k) =? k) 100); [|lia].
  vm_compute. reflexivity.
Qed.

Lemma padded_opposedRnum n :
  0 <= n <= 54 -> padded (Dfd.opposedRnum n) = twoDigits (oppositeNumber n).
Proof.
  intros Hn.
  apply String.eqb_eq.
  apply (range_check (fun k => String.eqb (padded (Dfd.opposedRnum k))
                                          (twoDigits (oppositeNumber k))) 55); [|lia].
  vm_compute. reflexivity.
Qed.

Lemma opposedDesig_side side :
  Dfd.opposedDesig (sideStr side) = sideStr (oppositeSide side).
Proof.
  destruct side as [c|]; [|reflexivity].
  unfold Dfd.opposedDesig, oppositeSide, sideStr.
  cbn [String.eqb].
  destruct (Ascii.eqb c "R"); [reflexivity|].
  destruct (Ascii.eqb c "L"); reflexivity.
Qed.

Lemma append_assoc (s1 s2 s3 : string) :
  (s1 +:+ (s2 +:+ s3) = (s1 +:+ s2) +:+ s3)%string.
Proof.
  induction s1 as [|c s1 IH]; [reflexivity|].
  change (String c (s1 +:+ (s2 +:+ s3)) = String c ((s1 +:+ s2) +:+ s3))%string.
  now rewrite IH.
Qed.

Lemma opposedRname_rwIdent n side :
  Dfd.opposedRname (rwIdent n side) =
  ("RW" +:+ padded (Dfd.opposedRnum (Qt.toInt (twoDigits n))) +:+
   Dfd.opposedDesig (sideStr side))%string.
Proof.
  unfold Dfd.opposedRname; cbv zeta.
  change (Qt.mid (rwIdent n side) 2) with (twoDigits n +:+ sideStr side)%string.
  change (Qt.mid_n (twoDigits n +:+ sideStr side) 0 2) with (twoDigits n).
  replace (if 2 <? Qt.size (twoDigits n +:+ sideStr side)
           then match Qt.at_ (twoDigits n +:+ sideStr side) 2 with
                | Some c => String c EmptyString
                | None => EmptyString
                end
           else EmptyString) with (sideStr side) by (destruct side; reflexivity).
  unfold padded. rewrite <- !append_assoc. reflexivity.
Qed.

Lemma opposedRname_formula n side :
  0 <= n <= 54 -> Dfd.opposedRname (rwIdent n side) = oppositeIdent n side.
Proof.
  intros Hn.
  rewrite opposedRname_rwIdent, toInt_twoDigits by lia.
  rewrite padded_opposedRnum by lia.
  rewrite opposedDesig_side. reflexivity.
Qed.

End OpposedName.

(** ** The pairing loop *)

Section PairingLoop.
Import PairSpec.
Context `{Ops}.

Lemma pairLoop_snoc (runways pre : list SqlRecord) (rw : SqlRecord) :
  Dfd.pairLoop runways (pre ++ [rw]) = Dfd.pairStep runways (Dfd.pairLoop runways pre) rw.
Proof. unfold Dfd.pairLoop. now rewrite fold_left_app. Qed.

Lemma pairLoop_split (runways pre post : list SqlRecord) (rw : SqlRecord) :
  Dfd.pairLoop runways (pre ++ rw :: post) =
  fold_left (Dfd.pairStep runways) post (Dfd.pairStep runways (Dfd.pairLoop runways pre) rw).
Proof. unfold Dfd.pairLoop. now rewrite fold_left_app. Qed.

(** What an end with the opposed name in the set means for [find]. *)
Lemma find_opposed_some (runways : list SqlRecord) (oname : string) (orw : SqlRecord) :
  List.find (fun o => String.eqb (Dfd.identOf o) oname) runways = Some orw ->
  orw ∈ runways /\ Dfd.identOf orw = oname.
Proof.
  intros Hf. apply find_some in Hf as [Hin Heq].
  split; [now apply list_elem_of_In | now apply String.eqb_eq].
Qed.

Lemma find_opposed_none (runways : list SqlRecord) (oname : string) :
  List.find (fun o => String.eqb (Dfd.identOf o) oname) runways = None ->
  forall orw, orw ∈ runways -> Dfd.identOf orw <> oname.
Proof.
  intros Hf orw Hin Heq.
  apply list_elem_of_In in Hin.
  pose proof (find_none _ _ Hf orw Hin) as Hb. cbn in Hb.
  apply String.eqb_neq in Hb. contradiction.
Qed.


Lemma oppositeNumber_range n : 0 <= n <= 54 -> 1 <= oppositeNumber n <= 36.
Proof.
  intros Hn. unfold oppositeNumber.
  pose proof (Z.mod_pos_bound (n + 18) 36 ltac:(lia)).
  destruct (Z.eqb_spec ((n + 18) mod 36) 0); lia.
Qed.

Lemma oppositeNumber_involutive n : 1 <= n <= 36 -> oppositeNumber (oppositeNumber n) = n.
Proof.
  intros Hn.
  pose proof (range_check (fun k => (k =? 0) || (oppositeNumber (oppositeNumber k) =? k))
                          37 eq_refl n ltac:(lia)) as Hb.
  cbn beta in Hb. apply orb_prop in Hb as [Hb|Hb]; lia.
Qed.

Lemma oppositeSide_involutive side : oppositeSide (oppositeSide side) = side.
Proof.
  destruct side as [c|]; [|reflexivity]. unfold oppositeSide.
  destruct (Ascii.eqb_spec c "R") as [->|HR]; [reflexivity|].
  destruct (Ascii.eqb_spec c "L") as [->|HL]; [reflexivity|].
  apply Ascii.eqb_neq in HR, HL. now rewrite HR, HL.
Qed.


Lemma opposedRname_involutive s :
  validIdent s -> Dfd.opposedRname (Dfd.opposedRname s) = s.
Proof.
  intros (n & side & Hn & ->).
  rewrite opposedRname_formula by lia.
  unfold oppositeIdent.
  pose proof (oppositeNumber_range n ltac:(lia)).
  rewrite opposedRname_formula by lia.
  unfold oppositeIdent.
  now rewrite oppositeNumber_involutive, oppositeSide_involutive.
Qed.




Lemma pairStep_foundPresent (runways : list SqlRecord) (st : Dfd.PairState) (rw : SqlRecord) :
  rw ∈ runways -> validIdent (Dfd.identOf rw) ->
  foundPresent runways st -> foundPresent runways (Dfd.pairStep runways st rw).
Proof.
  intros Hrw Hv Hp. unfold Dfd.pairStep.
  destruct (decide _); [assumption|].
  destruct (List.find _ runways) as [orw|] eqn:Hf; [|assumption].
  apply find_opposed_some in Hf as [Hin Hid].
  intros x Hx. cbn in Hx.
  apply elem_of_union in Hx as [Hx|Hx].
  - apply elem_of_singleton in Hx as ->. now exists orw.
  - apply elem_of_union in Hx as [Hx|Hx].
    + apply elem_of_singleton in Hx as ->.
      exists rw. split; [assumption|]. now rewrite opposedRname_involutive.
    + now apply Hp.
Qed.

Lemma pairLoop_foundPresent (runways pre : list SqlRecord) :
  (forall r, r ∈ pre -> r ∈ runways /\ validIdent (Dfd.identOf r)) ->
  foundPresent runways (Dfd.pairLoop runways pre).
Proof.
  induction pre as [|r pre IH] using rev_ind; intros Hv.
  - intros x Hx. cbn in Hx. now apply not_elem_of_empty in Hx.
  - rewrite pairLoop_snoc.
    destruct (Hv r) as [Hr Hvr]; [apply elem_of_app; right; apply list_elem_of_singleton; reflexivity|].
    apply pairStep_foundPresent; [assumption..|].
    apply IH. intros r' Hr'. apply Hv. apply elem_of_app. now left.
Qed.

(** The pairs only grow. *)
Lemma pairStep_extends (runways : list SqlRecord) (st : Dfd.PairState) (rw : SqlRecord) :
  exists more, Dfd.runwaypairs (Dfd.pairStep runways st rw) = Dfd.runwaypairs st ++ more.
Proof.
  unfold Dfd.pairStep.
  destruct (decide _); [exists []; now rewrite app_nil_r|].
  destruct (List.find _ runways); eexists; reflexivity.
Qed.

Lemma pairFold_extends (runways l : list SqlRecord) (st : Dfd.PairState) :
  exists more,
    Dfd.runwaypairs (fold_left (Dfd.pairStep runways) l st) = Dfd.runwaypairs st ++ more.
Proof.
  revert st. induction l as [|r l IH]; intros st; cbn.
  - exists []. now rewrite app_nil_r.
  - destruct (IH (Dfd.pairStep runways st r)) as [m1 H1].
    destruct (pairStep_extends runways st r) as [m2 H2].
    exists (m2 ++ m1). now rewrite H1, H2, app_assoc.
Qed.

(** *** The record of the closed end *)

Lemma value_setValue (r : SqlRecord) (n m : string) (v : QVariant) :
  value (setValue r n v) m =
  if String.eqb n m then (if hasField r n then v else VNull) else value r m.
Proof.
  induction r as [|[k w] r IH]; cbn.
  - now destruct (String.eqb n m).
  - destruct (String.eqb_spec k n) as [->|Hkn]; cbn.
    + destruct (String.eqb_spec n m) as [->|Hnm]; [reflexivity|].
      reflexivity.
    + rewrite IH.
      destruct (String.eqb_spec k m) as [->|Hkm].
      * destruct (String.eqb_spec n m) as [->|Hnm]; [contradiction|reflexivity].
      * reflexivity.
Qed.

Lemma hasField_setValue (r : SqlRecord) (n m : string) (v : QVariant) :
  hasField (setValue r n v) m = hasField r m.
Proof.
  induction r as [|[k w] r IH]; cbn; [reflexivity|].
  destruct (String.eqb_spec k n) as [->|Hkn]; cbn; [reflexivity|].
  now rewrite IH.
Qed.

Lemma value_appendField (r : SqlRecord) (n m : string) :
  value (appendField r n) m = value r m.
Proof.
  unfold appendField.
  induction r as [|[k w] r IH]; cbn.
  - now destruct (String.eqb n m).
  - now rewrite IH.
Qed.

Lemma hasField_appendField (r : SqlRecord) (n m : string) :
  hasField (appendField r n) m = hasField r m || String.eqb n m.
Proof.
  unfold appendField.
  induction r as [|[k w] r IH]; cbn.
  - now rewrite orb_false_r.
  - now rewrite IH, orb_assoc.
Qed.

Lemma closedEnd_columns (rw : SqlRecord) (name : string) :
  value (Dfd.closedEnd rw) name = closedEndColumn rw name.
Proof.
  unfold Dfd.closedEnd, closedEndColumn.
  rewrite value_setValue, hasField_appendField, String.eqb_refl, orb_true_r.
  rewrite (String.eqb_sym name).
  destruct (String.eqb_spec "is_closed" name) as [<-|E0]; [reflexivity|].
  rewrite value_appendField.
  rewrite !value_setValue, !hasField_setValue.
  rewrite !(String.eqb_sym name).
  destruct (String.eqb_spec "runway_true_bearing" name) as [<-|E1].
  { cbn [negb String.eqb Ascii.eqb Bool.eqb]. now destruct (hasField rw _). }
  destruct (String.eqb_spec "llz_identifier" name) as [<-|E2].
  { cbn [negb String.eqb Ascii.eqb Bool.eqb]. now destruct (hasField rw _). }
  destruct (String.eqb_spec "displaced_threshold_distance" name) as [<-|E3].
  { cbn [negb String.eqb Ascii.eqb Bool.eqb]. now destruct (hasField rw _). }
  destruct (String.eqb_spec "runway_identifier" name) as [<-|E4].
  { now destruct (hasField rw _). }
  destruct (hasField rw name) eqn:Hf; [reflexivity|].
  cbn. clear -Hf. induction rw as [|[k w] rw IH]; [reflexivity|].
  cbn in Hf |- *. destruct (String.eqb k name); [discriminate|]. now apply IH.
Qed.


(** C3 (as amended).  If the canonical opposite identifier of a runway end
    is not present in the input set of the airport, and the end has not
    been recorded as worked on by an earlier pairing (which is always so
    when all identifiers of the set have numbers from 01 to 36), the
    iteration for the end emits exactly one pair, of the end and a
    synthesized secondary end, and leaves [found] alone.  The synthesized
    end is a copy of the present end with the runway identifier replaced by
    the canonical opposite name, displaced_threshold_distance set to 0,
    llz_identifier null, runway_true_bearing set to the opposed course of
    the original true bearing, and is_closed set to true; the pair stays in
    the result of the pairer. *)
Theorem pairRunways_closed_end
    (runways pre post : list SqlRecord) (rw : SqlRecord) :
  runways = pre ++ rw :: post ->
  let st := Dfd.pairLoop runways pre in
  (Dfd.identOf rw ∉ Dfd.found st) \/ allValid runways ->
  ~ oppositePresent runways rw ->
  Dfd.pairStep runways st rw =
    Dfd.mkPairState (Dfd.found st) (Dfd.runwaypairs st ++ [(rw, Dfd.closedEnd rw)]) /\
  (exists rest,
     Dfd.pairRunways runways = Dfd.runwaypairs st ++ (rw, Dfd.closedEnd rw) :: rest) /\
  (forall name, value (Dfd.closedEnd rw) name = closedEndColumn rw name) /\
  valueBool (Dfd.closedEnd rw) "is_closed" false = true.
Proof.
  intros Hsplit st Hfresh Habsent.
  assert (Hnin : Dfd.identOf rw ∉ Dfd.found st).
  { destruct Hfresh as [Hnin|Hvalid]; [assumption|].
    intros Hin. apply Habsent.
    assert (Hp : foundPresent runways st).
    { apply pairLoop_foundPresent. intros r Hr.
      assert (r ∈ runways) by (rewrite Hsplit; apply elem_of_app; now left).
      split; [assumption | now apply Hvalid]. }
    exact (Hp _ Hin). }
  assert (Hstep : Dfd.pairStep runways st rw =
    Dfd.mkPairState (Dfd.found st) (Dfd.runwaypairs st ++ [(rw, Dfd.closedEnd rw)])).
  { unfold Dfd.pairStep.
    destruct (decide _) as [Hin|_]; [contradiction|].
    destruct (List.find _ runways) as [orw|] eqn:Hf; [|reflexivity].
    apply find_opposed_some in Hf as [Hin Hid].
    exfalso. apply Habsent. now exists orw. }
  split; [exact Hstep|]. split.
  - unfold Dfd.pairRunways.
    replace (Dfd.pairLoop runways runways)
      with (Dfd.pairLoop runways (pre ++ rw :: post)) by now rewrite <- Hsplit.
    rewrite pairLoop_split. fold st. rewrite Hstep.
    destruct (pairFold_extends runways post
                (Dfd.mkPairState (Dfd.found st)
                   (Dfd.runwaypairs st ++ [(rw, Dfd.closedEnd rw)]))) as [rest Hrest].
    exists rest. rewrite Hrest. cbn. now rewrite <- app_assoc.
  - split; [apply closedEnd_columns|].
    unfold valueBool. rewrite closedEnd_columns.
    unfold Dfd.closedEnd.
    now rewrite hasField_setValue, hasField_appendField, String.eqb_refl, orb_true_r.
Qed.

End PairingLoop.

Section PairingRuns.
Import Planar PairSpec.



(** The theorem at a single end RW09 with true bearing 88: the closed end
    RW27 with bearing 268 is made up. *)
Lemma pairRunways_closed_end_witness :
  Dfd.pairStep [Planar.rwEnd "RW09" 88 (VStr "IAA")]
               (Dfd.pairLoop [Planar.rwEnd "RW09" 88 (VStr "IAA")] [])
               (Planar.rwEnd "RW09" 88 (VStr "IAA")) =
  Dfd.mkPairState ∅
    [(Planar.rwEnd "RW09" 88 (VStr "IAA"),
      [("airport_identifier"%string, VStr "KAAA");
       ("runway_identifier"%string, VStr "RW27");
       ("runway_true_bearing"%string, VFloat (268 : @F Planar.model));
       ("displaced_threshold_distance"%string, VInt 0);
       ("llz_identifier"%string, VNull);
       ("is_closed"%string, VBool true)])].
Proof.
  refine (proj1 (pairRunways_closed_end [Planar.rwEnd "RW09" 88 (VStr "IAA")] [] []
                   (Planar.rwEnd "RW09" 88 (VStr "IAA")) eq_refl _ _)).
  - left. cbn. apply not_elem_of_empty.
  - intros (orw & Hin & Hid).
    apply list_elem_of_singleton in Hin. subst orw. discriminate Hid.
Defined.

(** C3 as stated fails on the set RW00, RW18: the opposed name of RW00 is
    RW18, so the end RW18 is paired as the secondary end of RW00 and is
    then skipped; its own opposite RW36 is not in the set, and no closed end
    is made up for it. *)
Lemma pairRunways_closed_end_counterexample :
  let rw00 := Planar.rwEnd "RW00" 0 VNull in
  let rw18 := Planar.rwEnd "RW18" 180 VNull in
  ~ PairSpec.oppositePresent [rw00; rw18] rw18 /\
  Dfd.pairRunways [rw00; rw18] = [(rw00, rw18)] /\
  ~ (exists p, p ∈ Dfd.pairRunways [rw00; rw18] /\ p.2 = Dfd.closedEnd rw18).
Proof.
  intros rw00 rw18.
  assert (Hrun : Dfd.pairRunways [rw00; rw18] = [(rw00, rw18)]) by reflexivity.
  split; [|split; [exact Hrun|]].
  - intros (orw & Hin & Hid).
    apply elem_of_cons in Hin as [->|Hin]; [discriminate Hid|].
    apply list_elem_of_singleton in Hin. subst orw. discriminate Hid.
  - intros (p & Hin & Hp). rewrite Hrun in Hin.
    apply list_elem_of_singleton in Hin. subst p. discriminate Hp.
Qed.

(** Two ends that are opposites of each other give one pair, and no end is
    made up. *)
Example pairRunways_two_ends :
  Dfd.pairRunways [rwEnd "RW13L" 133 VNull; rwEnd "RW31R" 313 VNull] =
  [(rwEnd "RW13L" 133 VNull, rwEnd "RW31R" 313 VNull)].
Proof. reflexivity. Qed.

End PairingRuns.

(** ** The airway scan *)

Section AirwayScan.
Import AirwaySpec.
Context `{Ops}.

Lemma airwayLoop_snoc (rows : list SqlRecord) (row : SqlRecord) :
  Dfd.airwayLoop (rows ++ [row]) = Dfd.airwayStep (Dfd.airwayLoop rows) row.
Proof. unfold Dfd.airwayLoop. now rewrite fold_left_app. Qed.

(** Each step remembers the row, its name and whether it ends the route. *)
Lemma airwayStep_last (st : Dfd.AirwayState) (row : SqlRecord) :
  Dfd.lastRec (Dfd.airwayStep st row) = row /\
  Dfd.lastName (Dfd.airwayStep st row) = nameOf row /\
  Dfd.lastEndOfRoute (Dfd.airwayStep st row) = endOfRoute row.
Proof.
  unfold Dfd.airwayStep.
  destruct (negb (Qt.isEmpty (Dfd.lastName st)) && _); cbn; auto.
Qed.

Lemma isEmpty_true (s : string) : Qt.isEmpty s = true <-> s = EmptyString.
Proof. destruct s; cbn; split; congruence. Qed.

Lemma airwayStep_unnamedAtOne (st : Dfd.AirwayState) (row : SqlRecord) :
  unnamedAtOne st -> unnamedAtOne (Dfd.airwayStep st row).
Proof.
  intros Hinv. unfold unnamedAtOne, Dfd.airwayStep.
  fold (nameOf row).
  destruct (Qt.isEmpty (Dfd.lastName st)) eqn:Hl; cbn [negb andb].
  - apply isEmpty_true in Hl. cbn. intros _. now apply Hinv.
  - destruct (String.eqb_spec (nameOf row) (Dfd.lastName st)) as [Heq|Hne]; cbn [negb].
    + cbn. intros Hn. rewrite Hn in Heq. rewrite <- Heq in Hl. discriminate Hl.
    + cbn. auto.
Qed.

Lemma airwayLoop_unnamedAtOne (rows : list SqlRecord) :
  unnamedAtOne (Dfd.airwayLoop rows).
Proof.
  induction rows as [|row rows IH] using rev_ind.
  - intros _. split; reflexivity.
  - rewrite airwayLoop_snoc. now apply airwayStep_unnamedAtOne.
Qed.


End AirwayScan.

Section AirwayRuns.
Import Planar.


(** The fragments of two routes: N1 with two fragments of one segment each,
    N2 with one segment (name, fragment, sequence, from, to). *)
Example writeAirways_fragments :
  map (fun a => (Dfd.airway_name a, Dfd.airway_fragment_no a, Dfd.sequence_no a,
                 Dfd.from_waypoint_id a, Dfd.to_waypoint_id a))
      (Dfd.writeAirways
         [AirwaySpec.row "N1" 1 "EA" 101; AirwaySpec.row "N1" 2 "EE" 102;
          AirwaySpec.row "N1" 3 "EA" 103; AirwaySpec.row "N1" 4 "EE" 104;
          AirwaySpec.row "N2" 1 "EA" 201; AirwaySpec.row "N2" 2 "EE" 202]) =
  [("N1"%string, 1, 1, 101, 102); ("N1"%string, 2, 1, 103, 104);
   ("N2"%string, 1, 1, 201, 202)].
Proof. reflexivity. Qed.


End AirwayRuns.

(** ** The runway writer *)

Section RunwayWriter.
Import RunwaySpec.
Context `{Ops}.






Lemma runwayFold_ils (aptId : option Z) (pairs : list (SqlRecord * SqlRecord)) (a : Dfd.RwAcc) :
  Dfd.numRunwayIls (fold_left (Dfd.runwayStep aptId) pairs a) =
  Dfd.numRunwayIls a + countEmptyIls (map fst pairs).
Proof.
  revert a. induction pairs as [|p pairs IH]; intros a.
  - cbn. unfold countEmptyIls. cbn. lia.
  - cbn [fold_left]. rewrite IH. unfold countEmptyIls. cbn.
    destruct (Qt.isEmpty (valueStr p.1 "llz_identifier")); cbn [length]; lia.
Qed.





(** C10.  For an airport known to the index and the airport table, the
    num_runway_end_ils column that the runway writer writes to the airport
    row is the number of runway pairs whose primary end record has an empty
    llz_identifier.  The count is a function of the primary end records
    alone: pairs whose primary end has an ILS identifier are not counted,
    and the secondary ends do not contribute. *)
Theorem num_runway_end_ils_counts_empty
    (st : Dfd.State) (runways : list SqlRecord) (apt : string) (id : Z) (row : Dfd.AirportRow) :
  Dfd.airportIndex st !! apt = Some id ->
  Dfd.airportTable st !! id = Some row ->
  exists row',
    Dfd.airportTable (Dfd.writeRunwaysForAirport st runways apt) !! id = Some row' /\
    Dfd.num_runway_end_ils row' = countEmptyIls (map fst (Dfd.pairRunways runways)).
Proof.
  intros Hidx Hrow.
  eexists. split.
  { unfold Dfd.writeRunwaysForAirport. cbn.
    rewrite Hidx, lookup_alter_eq, Hrow. reflexivity. }
  unfold Dfd.airportUpdate.
  destruct (Dfd.surfaceCounts _ _) as [[hard soft] water]. cbn.
  unfold Dfd.runwayLoop. rewrite runwayFold_ils. cbn. lia.
Qed.

End RunwayWriter.

Section RunwayRuns.
Import Planar RunwaySpec.




(** The theorem at the same airport: only the pair with the primary end
    RW09, which has no ILS identifier, is counted. *)
Lemma num_runway_end_ils_counts_empty_witness :
  exists row,
    Dfd.airportTable
      (Dfd.writeRunwaysForAirport
         (Dfd.writeAirports emptyState [airportRow "KAAA" 100 50])
         [runwayEndRow "RW09" 90 50 90 VNull; runwayEndRow "RW27" 110 50 270 (VStr "IAA")]
         "KAAA") !! 1 = Some row /\
    Dfd.num_runway_end_ils row = 1.
Proof.
  destruct (num_runway_end_ils_counts_empty
              (Dfd.writeAirports emptyState [airportRow "KAAA" 100 50])
              [runwayEndRow "RW09" 90 50 90 VNull; runwayEndRow "RW27" 110 50 270 (VStr "IAA")]
              "KAAA" 1 _ eq_refl eq_refl) as (row & Hrow & Hn).
  exists row. split; [exact Hrow | exact Hn].
Defined.

End RunwayRuns.

(** ** The tabular update *)

Section TabularUpdate.
Context `{Ops}.

Lemma applyBinds_snoc (cols : list string) (c : string) (binds : list (string * QVariant))
    (r : SqlRecord) :
  Dfd.applyBinds (cols ++ [c]) binds r =
  setValue (Dfd.applyBinds cols binds r) c (Dfd.bound binds (":" +:+ c)).
Proof. unfold Dfd.applyBinds. now rewrite fold_left_app. Qed.

Lemma hasField_applyBinds (cols : list string) (binds : list (string * QVariant))
    (r : SqlRecord) (m : string) :
  hasField (Dfd.applyBinds cols binds r) m = hasField r m.
Proof.
  induction cols as [|c cols IH] using rev_ind; [reflexivity|].
  now rewrite applyBinds_snoc, hasField_setValue.
Qed.

Lemma value_applyBinds_other (cols : list string) (binds : list (string * QVariant))
    (r : SqlRecord) (m : string) :
  m ∉ cols -> value (Dfd.applyBinds cols binds r) m = value r m.
Proof.
  induction cols as [|c cols IH] using rev_ind; intros Hm; [reflexivity|].
  rewrite applyBinds_snoc, value_setValue.
  apply not_elem_of_app in Hm as [Hm1 Hm2].
  destruct (String.eqb_spec c m) as [->|Hne].
  - exfalso. apply Hm2. now apply list_elem_of_singleton.
  - now apply IH.
Qed.

Lemma value_applyBinds_in (cols : list string) (binds : list (string * QVariant))
    (r : SqlRecord) (m : string) :
  m ∈ cols -> hasField r m = true ->
  value (Dfd.applyBinds cols binds r) m = Dfd.bound binds (":" +:+ m).
Proof.
  induction cols as [|c cols IH] using rev_ind; intros Hm Hf.
  - now apply elem_of_nil in Hm.
  - rewrite applyBinds_snoc, value_setValue, hasField_applyBinds.
    destruct (String.eqb_spec c m) as [->|Hne].
    + now rewrite Hf.
    + apply IH; [|assumption].
      apply elem_of_app in Hm as [Hm|Hm]; [assumption|].
      apply list_elem_of_singleton in Hm. congruence.
Qed.

Section OneTable.
Variables (table idColumn : string) (queryColumns updateColumns : list string).
Variable func : Dfd.UpdateColFunc.
Hypothesis id_not_updated : idColumn ∉ updateColumns.

Let U := Dfd.rowUpdate idColumn queryColumns updateColumns func.
Let step := fun (db : Dfd.Tables) (from : SqlRecord) =>
  match func (Dfd.selectColumns idColumn queryColumns from) with
  | Some binds =>
      alter (map (Dfd.updateRow idColumn (value from idColumn) updateColumns binds)) table db
  | None => db
  end.

Lemma rowUpdate_id (r : SqlRecord) : value (U r) idColumn = value r idColumn.
Proof.
  unfold U, Dfd.rowUpdate. destruct (func _); [|reflexivity].
  now apply value_applyBinds_other.
Qed.

Lemma updateRow_others (id : QVariant) (binds : list (string * QVariant)) (l : list SqlRecord) :
  id ∉ Dfd.rowIds idColumn l ->
  map (Dfd.updateRow idColumn id updateColumns binds) l = l.
Proof.
  induction l as [|r l IH]; intros Hid; [reflexivity|].
  cbn in Hid |- *. apply not_elem_of_cons in Hid as [Hne Hid].
  rewrite IH by assumption. unfold Dfd.updateRow.
  destruct (decide (value r idColumn = id)); [congruence|reflexivity].
Qed.

Lemma rowIds_updated (l : list SqlRecord) :
  Dfd.rowIds idColumn (map U l) = Dfd.rowIds idColumn l.
Proof.
  unfold Dfd.rowIds. rewrite map_map. apply map_ext. intros r. apply rowUpdate_id.
Qed.

Lemma update_fold (suf pre : list SqlRecord) (db : Dfd.Tables) :
  db !! table = Some (map U pre ++ suf) ->
  NoDup (Dfd.rowIds idColumn (pre ++ suf)) ->
  fold_left step suf db !! table = Some (map U (pre ++ suf)) /\
  forall t, t <> table -> fold_left step suf db !! t = db !! t.
Proof.
  unfold Dfd.Tables in *.
  revert pre db. induction suf as [|from suf IH]; intros pre db Hdb Hnd.
  - cbn. rewrite app_nil_r in *. auto.
  - cbn [fold_left].
    assert (Hsplit : pre ++ from :: suf = (pre ++ [from]) ++ suf) by now rewrite <- app_assoc.
    rewrite Hsplit in Hnd |- *.
    assert (Hstep : step db from !! table = Some (map U (pre ++ [from]) ++ suf) /\
                    forall t, t <> table -> step db from !! t = db !! t).
    { unfold Dfd.rowIds in Hnd. rewrite !map_app in Hnd. cbn in Hnd.
      apply NoDup_app in Hnd as (Hnd1 & Hnd2 & _).
      apply NoDup_app in Hnd1 as (_ & Hnd3 & _).
      assert (Hpre : value from idColumn ∉ Dfd.rowIds idColumn (map U pre)).
      { rewrite rowIds_updated. intros Hin. apply (Hnd3 _ Hin).
        now apply list_elem_of_singleton. }
      assert (Hsuf : value from idColumn ∉ Dfd.rowIds idColumn suf).
      { intros Hin. apply (Hnd2 (value from idColumn)); [|exact Hin].
        apply elem_of_app. right. now apply list_elem_of_singleton. }
      rewrite map_app. cbn [map]. unfold step, U at 2, Dfd.rowUpdate.
      destruct (func (Dfd.selectColumns idColumn queryColumns from)) as [binds|].
      - split.
        + rewrite lookup_alter_eq, Hdb. cbn. f_equal.
          rewrite map_app. cbn [map].
          rewrite !updateRow_others by assumption.
          unfold Dfd.updateRow at 1.
          destruct (decide _) as [_|Hne]; [|congruence].
          now rewrite <- app_assoc.
        + intros t Ht. now rewrite lookup_alter_ne.
      - split; [|reflexivity]. rewrite Hdb. now rewrite <- app_assoc. }
    destruct Hstep as [Hstep Hother].
    destruct (IH (pre ++ [from]) (step db from) Hstep Hnd) as [IH1 IH2].
    split; [exact IH1|].
    intros t Ht. rewrite IH2 by assumption. now apply Hother.
Qed.

(** The update sets the update columns of every row of the table to what
    the function binds for that row, and leaves the other tables alone. *)
Lemma updateColumnInTable_rows (db : Dfd.Tables) (rows : list SqlRecord) :
  db !! table = Some rows ->
  NoDup (Dfd.rowIds idColumn rows) ->
  Dfd.updateColumnInTable db table idColumn queryColumns updateColumns func !! table
    = Some (map U rows) /\
  forall t, t <> table ->
    Dfd.updateColumnInTable db table idColumn queryColumns updateColumns func !! t = db !! t.
Proof.
  intros Hdb Hnd. unfold Dfd.updateColumnInTable. rewrite Hdb. cbn [default].
  apply (update_fold rows [] db); assumption.
Qed.

End OneTable.

Lemma updateColumnInTable_other (db : Dfd.Tables) (table idColumn : string)
    (queryColumns updateColumns : list string) (func : Dfd.UpdateColFunc) (t : string) :
  t <> table ->
  Dfd.updateColumnInTable db table idColumn queryColumns updateColumns func !! t = db !! t.
Proof.
  intros Ht. unfold Dfd.updateColumnInTable, Dfd.Tables in *.
  generalize (default [] (db !! table)). intros sel.
  revert db. induction sel as [|from sel IH]; intros db; [reflexivity|].
  cbn [fold_left]. rewrite IH.
  destruct (func _); [|reflexivity]. now rewrite lookup_alter_ne.
Qed.

Import UpdateSpec.

Lemma withModelMagvar_value (r : SqlRecord) :
  hasField r "mag_var" = true ->
  value (withModelMagvar r) "mag_var" = VFloat (getMagVar (rowPosition (withModelMagvar r))).
Proof.
  intros Hf. unfold withModelMagvar at 1. rewrite value_setValue, Hf. cbn.
  unfold rowPosition, valueFloat, withModelMagvar. now rewrite !value_setValue.
Qed.

(** C6.  After the magnetic variation pass, in each of the tables of the
    pass (waypoint and ndb, with unique ids and a mag_var column), every
    row is the row of before with the mag_var column set, and the mag_var
    column of every row equals the value of the magnetic model at the
    position (lonx, laty) of that row. *)
Theorem updateMagvar_sets_model_value
    (db : Dfd.Tables) (table idColumn : string) (rows : list SqlRecord) :
  (table, idColumn) ∈ magvarTables ->
  db !! table = Some rows ->
  NoDup (Dfd.rowIds idColumn rows) ->
  (forall r, r ∈ rows -> hasField r "mag_var" = true) ->
  exists rows',
    Dfd.updateMagvar db !! table = Some rows' /\
    rows' = map withModelMagvar rows /\
    forall r', r' ∈ rows' ->
      value r' "mag_var" = VFloat (getMagVar (rowPosition r')).
Proof.
  intros Htab Hdb Hnd Hcol.
  exists (map withModelMagvar rows).
  assert (Hres : Dfd.updateMagvar db !! table = Some (map withModelMagvar rows)).
  { unfold Dfd.updateMagvar, magvarTables in *.
    apply elem_of_cons in Htab as [Htab|Htab].
    - injection Htab as -> ->.
      rewrite updateColumnInTable_other by discriminate.
      destruct (updateColumnInTable_rows "waypoint" "waypoint_id" ["lonx"; "laty"]%string
                  ["mag_var"%string] Dfd.magvarFunc
                  ltac:(intros Hin; apply list_elem_of_singleton in Hin; discriminate Hin)
                  db rows Hdb Hnd) as [Hrows _].
      rewrite Hrows. reflexivity.
    - apply list_elem_of_singleton in Htab. injection Htab as -> ->.
      assert (Hdb' : Dfd.updateColumnInTable db "waypoint" "waypoint_id" ["lonx"; "laty"]%string
                       ["mag_var"%string] Dfd.magvarFunc !! "ndb"%string = Some rows).
      { rewrite updateColumnInTable_other by discriminate. exact Hdb. }
      destruct (updateColumnInTable_rows "ndb" "ndb_id" ["lonx"; "laty"]%string
                  ["mag_var"%string] Dfd.magvarFunc
                  ltac:(intros Hin; apply list_elem_of_singleton in Hin; discriminate Hin)
                  _ rows Hdb' Hnd) as [Hrows _].
      rewrite Hrows. reflexivity. }
  split; [exact Hres|]. split; [reflexivity|].
  intros r' Hr'. apply list_elem_of_fmap in Hr' as (r & -> & Hr).
  apply withModelMagvar_value. now apply Hcol.
Qed.

Lemma ilsColumns_elem (c : string) :
  c ∈ Dfd.ilsColumns <->
  c = "end1_lonx"%string \/ c = "end1_laty"%string \/ c = "end_mid_lonx"%string \/
  c = "end_mid_laty"%string \/ c = "end2_lonx"%string \/ c = "end2_laty"%string.
Proof.
  unfold Dfd.ilsColumns. rewrite !elem_of_cons, elem_of_nil. tauto.
Qed.

Lemma ils_rowUpdate_feather (featherLen : Z) (r : SqlRecord) :
  (forall c, c ∈ Dfd.ilsColumns -> hasField r c = true) ->
  featherColumns
    (Dfd.rowUpdate "ils_id" ["lonx"; "laty"; "loc_heading"; "loc_width"]%string
                   Dfd.ilsColumns (Dfd.ilsFunc featherLen) r)
    (rowFeather featherLen r).
Proof.
  intros Hcols. unfold Dfd.rowUpdate, Dfd.ilsFunc, featherColumns, rowFeather, Dfd.featherSpec.
  repeat split;
    (rewrite value_applyBinds_in;
     [reflexivity | apply ilsColumns_elem; tauto | apply Hcols, ilsColumns_elem; tauto]).
Qed.

(** C4.  For every row of the ils table (with unique ids and the six
    feather columns), the geometry pass writes the three points of the
    feather: with the heading reversed to the opposed course, the two
    corner points are the projections from the localizer origin along the
    reversed heading minus and plus half the width for the configured
    feather length, and the midpoint is the projection along the reversed
    heading for the feather length minus half the distance between the two
    corner points.  The other columns of the row stay as they are. *)
Theorem updateIlsGeometry_feather
    (featherLen : Z) (db : Dfd.Tables) (rows : list SqlRecord) :
  db !! "ils"%string = Some rows ->
  NoDup (Dfd.rowIds "ils_id" rows) ->
  (forall r c, r ∈ rows -> c ∈ Dfd.ilsColumns -> hasField r c = true) ->
  exists rows',
    Dfd.updateIlsGeometry featherLen db !! "ils"%string = Some rows' /\
    length rows' = length rows /\
    forall (i : nat) r, rows !! i = Some r ->
      exists r', rows' !! i = Some r' /\
        featherColumns r' (rowFeather featherLen r) /\
        forall name, name ∉ Dfd.ilsColumns -> value r' name = value r name.
Proof.
  intros Hdb Hnd Hcols.
  destruct (updateColumnInTable_rows "ils" "ils_id"
              ["lonx"; "laty"; "loc_heading"; "loc_width"]%string
              Dfd.ilsColumns (Dfd.ilsFunc featherLen)
              ltac:(intros Hin; apply ilsColumns_elem in Hin; intuition discriminate)
              db rows Hdb Hnd) as [Hrows _].
  eexists. split; [exact Hrows|]. split; [apply length_map|].
  intros i r Hi. eexists. split.
  { rewrite list_lookup_fmap, Hi. reflexivity. }
  split.
  - apply ils_rowUpdate_feather. intros c Hc. apply (Hcols r c); [|assumption].
    now apply list_elem_of_lookup_2 in Hi.
  - intros name Hname. unfold Dfd.rowUpdate, Dfd.ilsFunc.
    now apply value_applyBinds_other.
Qed.

End TabularUpdate.

Section UpdateRuns.
Import Planar UpdateSpec.

(** The theorem at a waypoint table of two rows. *)
Lemma updateMagvar_sets_model_value_witness :
  exists rows',
    Dfd.updateMagvar
      {[ "waypoint"%string := [navRow "waypoint_id" 1 10 20; navRow "waypoint_id" 2 30 40] ]}
      !! "waypoint"%string = Some rows' /\
    forall r', r' ∈ rows' -> value r' "mag_var" = VFloat (getMagVar (rowPosition r')).
Proof.
  destruct (updateMagvar_sets_model_value
              {[ "waypoint"%string := [navRow "waypoint_id" 1 10 20; navRow "waypoint_id" 2 30 40] ]}
              "waypoint" "waypoint_id"
              [navRow "waypoint_id" 1 10 20; navRow "waypoint_id" 2 30 40])
    as (rows' & Hres & _ & Hall).
  - apply list_elem_of_here.
  - reflexivity.
  - cbn. apply NoDup_cons. split.
    + intros Hin. apply list_elem_of_singleton in Hin. discriminate Hin.
    + apply NoDup_singleton.
  - intros r Hr. apply elem_of_cons in Hr as [->|Hr]; [reflexivity|].
    apply list_elem_of_singleton in Hr. now subst r.
  - exists rows'. split; [exact Hres | exact Hall].
Defined.

(** The theorem at an ILS at the origin with heading 90, width 4 and a
    feather of 9 nautical miles: the feather extends to the west. *)
Lemma updateIlsGeometry_feather_witness :
  exists r',
    (default [] (Dfd.updateIlsGeometry 9 {[ "ils"%string := [ilsRow 1 0 0 90 4] ]}
                   !! "ils"%string)) !! 0%nat = Some r' /\
    featherColumns r' (rowFeather 9 (ilsRow 1 0 0 90 4)).
Proof.
  destruct (updateIlsGeometry_feather 9 {[ "ils"%string := [ilsRow 1 0 0 90 4] ]}
              [ilsRow 1 0 0 90 4]) as (rows' & Hres & _ & Hall).
  - reflexivity.
  - cbn. apply NoDup_singleton.
  - intros r c Hr Hc. apply list_elem_of_singleton in Hr. subst r.
    apply ilsColumns_elem in Hc.
    destruct Hc as [->|[->|[->|[->|[->| ->]]]]]; reflexivity.
  - destruct (Hall 0%nat (ilsRow 1 0 0 90 4) eq_refl) as (r' & Hr' & Hf & _).
    exists r'. rewrite Hres. split; [exact Hr' | exact Hf].
Defined.

End UpdateRuns.

(** ** The binary stream *)

Section StreamReads.
Import Bgl.

Lemma byteAt_range (s : Stream) (pos b : Z) : byteAt s pos = Some b -> 0 <= b < 256.
Proof.
  unfold byteAt. destruct (pos <? 0); [discriminate|].
  destruct (bytes s !! Z.to_nat pos) as [x|]; [|discriminate].
  cbn. intros [= <-]. pose proof (Byte.to_N_bounded x). lia.
Qed.

Lemma byteAt_available (s : Stream) (pos : Z) :
  0 <= pos < Z.of_nat (length (bytes s)) -> exists b, byteAt s pos = Some b.
Proof.
  intros Hpos. unfold byteAt.
  destruct (Z.ltb_spec pos 0); [lia|].
  destruct (lookup_lt_is_Some_2 (bytes s) (Z.to_nat pos) ltac:(lia)) as [x Hx].
  rewrite Hx. eauto.
Qed.

Lemma advance_advance (s : Stream) (n m : Z) : advance (advance s n) m = advance s (n + m).
Proof. unfold advance. cbn. f_equal. lia. Qed.

Lemma bind_inr {A B} (m : Reader A) (k : A -> Reader B) (s : Stream) (r : B * Stream) :
  bind m k s = inr r -> exists a s1, m s = inr (a, s1) /\ k a s1 = inr r.
Proof.
  unfold bind. destruct (m s) as [e|[a s1]]; [discriminate|]. eauto.
Qed.

Lemma readUByte_inv (s : Stream) (b : Z) (s1 : Stream) :
  readUByte s = inr (b, s1) -> byteAt s (tellg s) = Some b /\ s1 = advance s 1.
Proof.
  unfold readUByte. destruct (byteAt s (tellg s)); [|discriminate].
  intros [= <- <-]. auto.
Qed.

Lemma readUByte_advance_inv (s : Stream) (n b : Z) (s1 : Stream) :
  readUByte (advance s n) = inr (b, s1) ->
  byteAt s (tellg s + n) = Some b /\ s1 = advance s (n + 1).
Proof.
  intros Hr. apply readUByte_inv in Hr as [Hb ->].
  split; [exact Hb | apply advance_advance].
Qed.

Lemma readUShort_inv (s : Stream) (w : Z) (s1 : Stream) :
  readUShort s = inr (w, s1) -> ushortAt s (tellg s) = Some w /\ s1 = advance s 2.
Proof.
  unfold readUShort. intros Hr.
  apply bind_inr in Hr as (b0 & t0 & H0 & Hr). apply readUByte_inv in H0 as [H0 ->].
  apply bind_inr in Hr as (b1 & t1 & H1 & Hr). apply readUByte_advance_inv in H1 as [H1 ->].
  injection Hr as <- <-.
  unfold ushortAt. now rewrite H0, H1.
Qed.

Lemma readUInt_inv (s : Stream) (w : Z) (s1 : Stream) :
  readUInt s = inr (w, s1) -> uintAt s (tellg s) = Some w /\ s1 = advance s 4.
Proof.
  unfold readUInt. intros Hr.
  apply bind_inr in Hr as (b0 & t0 & H0 & Hr). apply readUByte_inv in H0 as [H0 ->].
  apply bind_inr in Hr as (b1 & t1 & H1 & Hr). apply readUByte_advance_inv in H1 as [H1 ->].
  apply bind_inr in Hr as (b2 & t2 & H2 & Hr). apply readUByte_advance_inv in H2 as [H2 ->].
  apply bind_inr in Hr as (b3 & t3 & H3 & Hr). apply readUByte_advance_inv in H3 as [H3 ->].
  injection Hr as <- <-.
  change (1 + 1) with 2 in H2. change (1 + 1 + 1) with 3 in H3.
  unfold uintAt. now rewrite H0, H1, H2, H3.
Qed.

(** The bit fields of a flags byte. *)
Lemma flags_byte_fields (flags : Z) :
  0 <= flags < 256 ->
  Z.land flags 0xf = flags mod 16 /\
  Z.land (Z.shiftr flags 4) 0x7 = (flags / 16) mod 8 /\
  (Z.land flags 0x80 =? 0x80) = Z.testbit flags 7.
Proof.
  intros Hf.
  pose proof (range_check
    (fun k => (Z.land k 0xf =? k mod 16) &&
              (Z.land (Z.shiftr k 4) 0x7 =? (k / 16) mod 8) &&
              Bool.eqb (Z.land k 0x80 =? 0x80) (Z.testbit k 7)) 256 eq_refl flags Hf) as Hb.
  cbn beta in Hb.
  apply andb_prop in Hb as [Hb H3]. apply andb_prop in Hb as [H1 H2].
  apply Z.eqb_eq in H1, H2. apply Bool.eqb_prop in H3. auto.
Qed.

(** The packed identifier field of a fix word. *)
Lemma fix_word_field (fixFlags : Z) :
  Z.land (Z.shiftr fixFlags 5) 0xfffffff = (fixFlags / 2 ^ 5) mod 2 ^ 28 /\
  0 <= Z.land (Z.shiftr fixFlags 5) 0xfffffff < 2 ^ 28.
Proof.
  change 0xfffffff with (Z.ones 28).
  rewrite Z.land_ones by lia. rewrite Z.shiftr_div_pow2 by lia.
  split; [reflexivity|]. apply Z.mod_pos_bound. lia.
Qed.

Lemma advance_zero (s : Stream) : advance s 0 = s.
Proof. destruct s as [bs pos lg]. unfold advance. cbn. now rewrite Z.add_0_r. Qed.

Lemma readUByte_at (s : Stream) (n k k' : Z) :
  available s n -> 0 <= k -> k' = k + 1 -> k' <= n ->
  exists b, byteAt s (tellg s + k) = Some b /\
            readUByte (advance s k) = inr (b, advance s k').
Proof.
  intros [Hlo Hhi] Hk -> Hn.
  destruct (byteAt_available s (tellg s + k) ltac:(lia)) as [b Hb].
  exists b. split; [exact Hb|].
  unfold readUByte.
  change (byteAt (advance s k) (tellg (advance s k))) with (byteAt s (tellg s + k)).
  rewrite Hb. do 2 f_equal. unfold advance. cbn. f_equal. lia.
Qed.

Lemma readByte_at (s : Stream) (n k k' : Z) :
  available s n -> 0 <= k -> k' = k + 1 -> k' <= n ->
  exists b, readByte (advance s k) = inr (b, advance s k').
Proof.
  intros Ha Hk Hk' Hn.
  destruct (readUByte_at s n k k' Ha Hk Hk' Hn) as (b & _ & Hr).
  unfold readByte, bind. rewrite Hr. eexists. reflexivity.
Qed.

Lemma readUShort_at (s : Stream) (n k k' : Z) :
  available s n -> 0 <= k -> k' = k + 2 -> k' <= n ->
  exists w, readUShort (advance s k) = inr (w, advance s k').
Proof.
  intros Ha Hk -> Hn.
  destruct (readUByte_at s n k (k + 1) Ha Hk eq_refl ltac:(lia)) as (b0 & _ & H0).
  destruct (readUByte_at s n (k + 1) (k + 2) Ha ltac:(lia) ltac:(lia) ltac:(lia))
    as (b1 & _ & H1).
  unfold readUShort, bind. rewrite H0, H1. eexists. reflexivity.
Qed.

Lemma readUInt_at (s : Stream) (n k k' : Z) :
  available s n -> 0 <= k -> k' = k + 4 -> k' <= n ->
  exists w, uintAt s (tellg s + k) = Some w /\
            readUInt (advance s k) = inr (w, advance s k').
Proof.
  intros Ha Hk -> Hn.
  destruct (readUByte_at s n k (k + 1) Ha Hk eq_refl ltac:(lia)) as (b0 & B0 & H0).
  destruct (readUByte_at s n (k + 1) (k + 2) Ha ltac:(lia) ltac:(lia) ltac:(lia))
    as (b1 & B1 & H1).
  destruct (readUByte_at s n (k + 2) (k + 3) Ha ltac:(lia) ltac:(lia) ltac:(lia))
    as (b2 & B2 & H2).
  destruct (readUByte_at s n (k + 3) (k + 4) Ha ltac:(lia) ltac:(lia) ltac:(lia))
    as (b3 & B3 & H3).
  eexists. split.
  - unfold uintAt.
    replace (tellg s + k + 1) with (tellg s + (k + 1)) by lia.
    replace (tellg s + k + 2) with (tellg s + (k + 2)) by lia.
    replace (tellg s + k + 3) with (tellg s + (k + 3)) by lia.
    rewrite B0, B1, B2, B3. reflexivity.
  - unfold readUInt, bind. rewrite H0, H1, H2, H3. reflexivity.
Qed.

End StreamReads.

(** ** The approach record *)

Section ApproachRecord.
Import Bgl.
Context `{Format}.

(** C8.  When the primary header of an approach record is decoded from a
    stream with the 32 bytes of the header left, the approach type is the
    low nibble of the flags byte, the runway designator is bits 4 to 6, the
    GPS overlay flag is bit 7, and the fix identifier is the translation of
    the 28 bit field of the fix word shifted right by 5 bits; with an
    identifier translation that gives at most five characters, the fix
    identifier has at most five characters. *)
Theorem approach_header_fields (airportRecType : Z) (s : Stream) :
  (forall v, (String.length (intToIcao v true) <= 5)%nat) ->
  available s 32 ->
  exists a s' flags fixFlags,
    readHeader airportRecType s = inr (a, s') /\
    byteAt s (tellg s + 8) = Some flags /\
    uintAt s (tellg s + 12) = Some fixFlags /\
    type a = Z.land flags 0xf /\
    type a = flags mod 16 /\
    runwayDesignator a = Z.land (Z.shiftr flags 4) 0x7 /\
    runwayDesignator a = (flags / 16) mod 8 /\
    gpsOverlay a = (Z.land flags 0x80 =? 0x80) /\
    gpsOverlay a = Z.testbit flags 7 /\
    fixIdent a = intToIcao (Z.land (Z.shiftr fixFlags 5) 0xfffffff) true /\
    Z.land (Z.shiftr fixFlags 5) 0xfffffff = (fixFlags / 2 ^ 5) mod 2 ^ 28 /\
    (String.length (fixIdent a) <= 5)%nat.
Proof.
  intros Hicao Ha.
  destruct (readUShort_at s 32 0 2 Ha ltac:(lia) eq_refl ltac:(lia)) as (rid & Hrid).
  destruct (readUInt_at s 32 2 6 Ha ltac:(lia) eq_refl ltac:(lia)) as (rsize & _ & Hrsize).
  destruct (readByte_at s 32 6 7 Ha ltac:(lia) eq_refl ltac:(lia)) as (sfx & Hsfx).
  destruct (readUByte_at s 32 7 8 Ha ltac:(lia) eq_refl ltac:(lia)) as (rn & _ & Hrn).
  destruct (readUByte_at s 32 8 9 Ha ltac:(lia) eq_refl ltac:(lia)) as (flags & Bflags & Hflags).
  destruct (readUByte_at s 32 9 10 Ha ltac:(lia) eq_refl ltac:(lia)) as (nt & _ & Hnt).
  destruct (readUByte_at s 32 10 11 Ha ltac:(lia) eq_refl ltac:(lia)) as (nl & _ & Hnl).
  destruct (readUByte_at s 32 11 12 Ha ltac:(lia) eq_refl ltac:(lia)) as (nm & _ & Hnm).
  destruct (readUInt_at s 32 12 16 Ha ltac:(lia) eq_refl ltac:(lia)) as (fixFlags & Bfix & Hfix).
  destruct (readUInt_at s 32 16 20 Ha ltac:(lia) eq_refl ltac:(lia)) as (fif & _ & Hfif).
  destruct (readUInt_at s 32 20 24 Ha ltac:(lia) eq_refl ltac:(lia)) as (alt & _ & Halt).
  destruct (readUInt_at s 32 24 28 Ha ltac:(lia) eq_refl ltac:(lia)) as (hdg & _ & Hhdg).
  destruct (readUInt_at s 32 28 32 Ha ltac:(lia) eq_refl ltac:(lia)) as (malt & _ & Hmalt).
  assert (Hrun : exists a s',
    readHeader airportRecType (advance s 0) = inr (a, s') /\
    type a = Z.land flags 0xf /\
    runwayDesignator a = Z.land (Z.shiftr flags 4) 0x7 /\
    gpsOverlay a = (Z.land flags 0x80 =? 0x80) /\
    fixIdent a = intToIcao (Z.land (Z.shiftr fixFlags 5) 0xfffffff) true).
  { unfold readHeader, readRecord, readFloat, tell, bind, ret.
    cbv beta iota. rewrite Hrid. cbv beta iota. rewrite Hrsize. cbv beta iota.
    rewrite Hsfx. cbv beta iota. rewrite Hrn. cbv beta iota. rewrite Hflags. cbv beta iota.
    rewrite Hnt. cbv beta iota. rewrite Hnl. cbv beta iota. rewrite Hnm. cbv beta iota.
    rewrite Hfix. cbv beta iota. rewrite Hfif. cbv beta iota. rewrite Halt. cbv beta iota.
    rewrite Hhdg. cbv beta iota. rewrite Hmalt. cbv beta iota.
    destruct (airportRecType =? MSFS_APPROACH_NEW); cbn;
      eexists _, _; (split; [reflexivity|]); cbn; auto. }
  rewrite advance_zero in Hrun.
  destruct Hrun as (a & s' & Hrun & Htype & Hdes & Hgps & Hident).
  destruct (flags_byte_fields flags (byteAt_range _ _ _ Bflags)) as (F1 & F2 & F3).
  destruct (fix_word_field fixFlags) as [W1 _].
  exists a, s', flags, fixFlags.
  repeat split; try assumption; try congruence.
  rewrite Hident. apply Hicao.
Qed.

Lemma unknown_kind (recType : Z) :
  recType ∉ knownRecordTypes -> subRecordKind recType = KUnknown.
Proof.
  unfold knownRecordTypes, subRecordKind. intros Hn.
  repeat case_bool_decide; try reflexivity; exfalso; apply Hn;
    rewrite ?elem_of_cons, ?elem_of_nil in *; tauto.
Qed.

Lemma readRecord_inv (s s1 : Stream) (r : Rec) :
  readRecord s = inr (r, s1) ->
  startOffset r = tellg s /\ bytes s1 = bytes s /\ logged s1 = logged s.
Proof.
  unfold readRecord. intros Hrec.
  apply bind_inr in Hrec as (start & t0 & H0 & Hrec). injection H0 as <- <-.
  apply bind_inr in Hrec as (i & t1 & H1 & Hrec). apply readUShort_inv in H1 as [_ ->].
  apply bind_inr in Hrec as (n & t2 & H2 & Hrec). apply readUInt_inv in H2 as [_ ->].
  injection Hrec as <- <-. cbn. auto.
Qed.

(** One iteration of the loop on a subrecord of unknown type. *)
Lemma unknown_step (fuel : nat) (options : Options) (a : Approach) (s s1 : Stream) (r : Rec) :
  tellg s < startOffset (rec a) + size (rec a) ->
  readRecord s = inr (r, s1) ->
  checkSubRecord r = false ->
  id r ∉ knownRecordTypes ->
  readSubRecords (S fuel) options a s =
  readSubRecords fuel options a
    (mkStream (bytes s) (startOffset r + size r)
       (logged s ++
        if logsUnknown options
        then [(LWarning, UnexpectedRecordType (id r) (fixAirportIdent a) (tellg s1))]
        else [])).
Proof.
  intros Hin Hrec Hcheck Hunknown.
  destruct (readRecord_inv s s1 r Hrec) as (Hstart & Hbytes & Hlogged).
  cbn [readSubRecords]. unfold bind at 1. unfold tell at 1.
  destruct (Z.ltb_spec (tellg s) (startOffset (rec a) + size (rec a))) as [_|Hge]; [|lia].
  unfold bind at 1. rewrite Hrec, Hcheck.
  unfold bind at 1. unfold readSubRecord. rewrite (unknown_kind _ Hunknown).
  unfold logUnknown.
  destruct (logsUnknown options); unfold bind, tell, qWarning, ret, seekToEnd, seekg; cbn;
    rewrite Hbytes, Hlogged, ?app_nil_r; reflexivity.
Qed.

(** C9 (as amended).  For a subrecord inside an approach record whose type
    is not one of the known leg, missed leg or transition types (and which
    [checkSubRecord] lets pass), parsing does not fail: the child is
    skipped by seeking to its end, the approach is unchanged, and the
    traversal continues with the next child in the parent frame, or ends
    when the end of the child is the end of the parent frame.  For MSFS
    nothing is logged for the unknown type, for other simulators a warning
    is logged; a build with DEBUG_INFORMATION logs the warning for every
    simulator. *)
Theorem unknown_subrecord_skipped
    (fuel : nat) (options : Options) (a : Approach) (s s1 : Stream) (r : Rec) :
  tellg s < startOffset (rec a) + size (rec a) ->
  readRecord s = inr (r, s1) ->
  checkSubRecord r = false ->
  id r ∉ knownRecordTypes ->
  let message := (LWarning, UnexpectedRecordType (id r) (fixAirportIdent a) (tellg s1)) in
  let s2 := mkStream (bytes s) (startOffset r + size r)
                     (logged s ++ if logsUnknown options then [message] else []) in
  startOffset r = tellg s /\
  readSubRecords (S fuel) options a s = readSubRecords fuel options a s2 /\
  (startOffset (rec a) + size (rec a) <= startOffset r + size r ->
     readSubRecords (S (S fuel)) options a s = inr (a, s2)) /\
  (simulatorType options = MSFS -> debugInformation options = false ->
     logged s2 = logged s) /\
  (simulatorType options <> MSFS -> logged s2 = logged s ++ [message]).
Proof.
  intros Hin Hrec Hcheck Hunknown message s2.
  destruct (readRecord_inv s s1 r Hrec) as (Hstart & _ & _).
  split; [exact Hstart|].
  split; [now apply (unknown_step fuel options a s s1 r)|].
  split; [|split].
  - intros Hend.
    rewrite (unknown_step (S fuel) options a s s1 r Hin Hrec Hcheck Hunknown).
    fold message. fold s2.
    cbn [readSubRecords]. unfold bind, tell.
    destruct (Z.ltb_spec (tellg s2) (startOffset (rec a) + size (rec a))) as [Hlt|_];
      [cbn in Hlt; lia | reflexivity].
  - intros Hm Hd. unfold s2, logsUnknown. rewrite Hm, Hd. cbn. now rewrite app_nil_r.
  - intros Hm. unfold s2, logsUnknown.
    destruct (simulatorType options); [contradiction|].
    cbn. now rewrite orb_true_r.
Qed.

End ApproachRecord.

Section ApproachRuns.
Import Bgl Sample.

Lemma length_append (s1 s2 : string) :
  String.length (s1 +:+ s2) = (String.length s1 + String.length s2)%nat.
Proof.
  induction s1 as [|c s1 IH]; [reflexivity|].
  change (S (String.length (s1 +:+ s2)) = S (String.length s1 + String.length s2)).
  now rewrite IH.
Qed.

Lemma icaoChar_length (coded : Z) : (String.length (icaoChar coded) <= 1)%nat.
Proof.
  unfold icaoChar.
  destruct (coded =? 0); [cbn; lia|].
  destruct ((2 <=? coded) && (coded <? 12)); cbn; lia.
Qed.

Lemma icao5_length (v : Z) (b : bool) : (String.length (icao5 v b) <= 5)%nat.
Proof.
  unfold icao5. rewrite !length_append.
  set (w := if b then v else Z.shiftr v 5).
  pose proof (icaoChar_length ((w / (38 * 38 * 38 * 38)) mod 38)).
  pose proof (icaoChar_length ((w / (38 * 38 * 38)) mod 38)).
  pose proof (icaoChar_length ((w / (38 * 38)) mod 38)).
  pose proof (icaoChar_length ((w / 38) mod 38)).
  pose proof (icaoChar_length (w mod 38)).
  lia.
Qed.

(** The theorem at the sample record: flags 0xA7 give type 7, designator 2
    and the GPS overlay flag; the fix word 0x01B55CE2 gives the fix EA9J. *)
Lemma approach_header_fields_witness :
  exists a s',
    readHeader 0 approachStream = inr (a, s') /\
    type a = 7 /\ runwayDesignator a = 2 /\ gpsOverlay a = true /\
    fixIdent a = "EA9J"%string /\ (String.length (fixIdent a) <= 5)%nat.
Proof.
  destruct (@approach_header_fields format 0 approachStream (fun v => icao5_length v true))
    as (a & s' & flags & fixFlags & Hr & Bf & Bx & T1 & _ & D1 & _ & G1 & _ & I1 & _ & L).
  - unfold available. cbn. lia.
  - injection Bf as <-. injection Bx as <-.
    exists a, s'. repeat split; assumption.
Defined.

(** The theorem at the subrecord of type 0x99 of the sample record, for a
    simulator other than MSFS: the record is skipped with a warning. *)
Lemma unknown_subrecord_skipped_witness :
  readSubRecords 2 (mkOptions true OtherSimulator false) headerApproach behindHeader =
  inr (headerApproach,
       mkStream approachBytes 38 [(LWarning, UnexpectedRecordType 0x99 EmptyString 38)]).
Proof.
  refine (proj1 (proj2 (proj2
            (@unknown_subrecord_skipped format 0 (mkOptions true OtherSimulator false)
               headerApproach behindHeader (mkStream approachBytes 38 [])
               (mkRec 32 0x99 6) _ eq_refl eq_refl _))) _).
  - cbn. lia.
  - intros Hin.
    repeat (apply elem_of_cons in Hin as [Hin|Hin]; [discriminate Hin|]).
    now apply elem_of_nil in Hin.
  - cbn. lia.
Defined.

(** C9 as stated fails for MSFS: the subrecord of unknown type is skipped,
    and nothing is logged for it, at debug level or at any other. *)
Lemma unknown_subrecord_skipped_counterexample :
  exists a s',
    readApproach 5 (mkOptions true MSFS false) 0 approachStream = inr (a, s') /\
    tellg s' = 38 /\
    logged s' = [] /\
    ~ (exists m, (LDebug, m) ∈ logged s').
Proof.
  exists headerApproach, (mkStream approachBytes 38 []).
  split; [reflexivity|]. split; [reflexivity|]. split; [reflexivity|].
  intros (m & Hm). now apply elem_of_nil in Hm.
Qed.

End ApproachRuns.

(** ** The METAR index *)

Section MetarIndexInvariant.
Import Metar.

Lemma consistent_empty : consistent empty.
Proof.
  intros station i. cbn. rewrite lookup_empty. split; [discriminate|].
  intros (md & Hmd & _). discriminate Hmd.
Qed.

Lemma updateOrInsert_consistent (idx : MetarIndex) (text station : string) (ts : Z) :
  consistent idx -> consistent (updateOrInsert idx text station ts).
Proof.
  intros Hc. unfold updateOrInsert.
  destruct (identIndexMap idx !! station) as [i|] eqn:Hi.
  - destruct (spatialIndex idx !! i) as [old|] eqn:Hold; [|assumption].
    destruct (timestamp old <? ts); [|assumption].
    assert (Hlen : (i < length (spatialIndex idx))%nat) by (eapply lookup_lt_Some; eauto).
    intros station' i'. cbn.
    destruct (decide (i' = i)) as [->|Hne].
    + rewrite list_lookup_insert_eq by assumption. split.
      * intros Hm. eexists. split; [reflexivity|]. cbn.
        apply Hc in Hm as (md & Hmd & Hid).
        destruct (proj1 (Hc station i) Hi) as (old' & Hold' & Hid').
        congruence.
      * intros (md & [= <-] & Hid). cbn in Hid. now subst station'.
    + rewrite list_lookup_insert_ne by congruence. apply Hc.
  - intros station' i'. cbn.
    destruct (decide (station' = station)) as [->|Hne].
    + rewrite lookup_insert_eq. split.
      * intros [= <-]. exists (mkMetarData station text ts). split; [|reflexivity].
        rewrite lookup_app_r by lia. now rewrite Nat.sub_diag.
      * intros (md & Hmd & Hid).
        destruct (decide (i' < length (spatialIndex idx))%nat) as [Hlt|Hge].
        -- rewrite lookup_app_l in Hmd by assumption.
           assert (Hm : identIndexMap idx !! station = Some i') by (apply Hc; eauto).
           congruence.
        -- apply lookup_lt_Some in Hmd. rewrite length_app in Hmd. cbn in Hmd.
           f_equal. lia.
    + rewrite lookup_insert_ne by congruence. split.
      * intros Hm. apply Hc in Hm as (md & Hmd & Hid).
        exists md. split; [|assumption].
        rewrite lookup_app_l; [assumption | eapply lookup_lt_Some; eauto].
      * intros (md & Hmd & Hid). apply Hc.
        destruct (decide (i' < length (spatialIndex idx))%nat) as [Hlt|Hge].
        -- rewrite lookup_app_l in Hmd by assumption. eauto.
        -- rewrite lookup_app_r in Hmd by lia.
           destruct (i' - length (spatialIndex idx))%nat; [|discriminate Hmd].
           injection Hmd as <-. cbn in Hid. congruence.
Qed.

Lemma read_consistent (idx : MetarIndex) (records : list MetarData) (merge : bool) :
  consistent idx -> consistent (read idx records merge).1.
Proof.
  intros Hc. unfold read. cbn [fst].
  assert (Hstart : consistent (if merge then idx else clear idx)).
  { destruct merge; [assumption | apply consistent_empty]. }
  revert Hstart. generalize (if merge then idx else clear idx).
  induction records as [|r records IH]; intros start Hstart; [assumption|].
  cbn [fold_left]. apply IH. now apply updateOrInsert_consistent.
Qed.

Lemma reachable_consistent (idx : MetarIndex) : Reachable idx -> consistent idx.
Proof.
  induction 1 as [|idx records merge _ IH|idx _ IH].
  - apply consistent_empty.
  - now apply read_consistent.
  - apply consistent_empty.
Qed.

Lemma consistent_NoDup (idx : MetarIndex) :
  consistent idx -> NoDup (map ident (spatialIndex idx)).
Proof.
  intros Hc. apply NoDup_alt. intros i j station Hi Hj.
  rewrite list_lookup_fmap in Hi, Hj.
  destruct (spatialIndex idx !! i) as [mi|] eqn:Ei; [|discriminate].
  destruct (spatialIndex idx !! j) as [mj|] eqn:Ej; [|discriminate].
  cbn in Hi, Hj. injection Hi as Hi. injection Hj as Hj.
  assert (H1 : identIndexMap idx !! station = Some i) by (apply Hc; eauto).
  assert (H2 : identIndexMap idx !! station = Some j) by (apply Hc; eauto).
  congruence.
Qed.

Lemma consistent_entry (idx : MetarIndex) (md : MetarData) :
  consistent idx -> md ∈ spatialIndex idx -> metarData idx (ident md) = Some md.
Proof.
  intros Hc Hin. apply list_elem_of_lookup in Hin as [i Hi].
  unfold metarData.
  assert (Hm : identIndexMap idx !! ident md = Some i) by (apply Hc; eauto).
  now rewrite Hm.
Qed.

Lemma updateOrInsert_station (idx : MetarIndex) (text station : string) (ts : Z) :
  consistent idx ->
  metarData (updateOrInsert idx text station ts) station =
  match metarData idx station with
  | Some old => Some (if timestamp old <? ts then mkMetarData station text ts else old)
  | None => Some (mkMetarData station text ts)
  end.
Proof.
  intros Hc. unfold metarData at 2. unfold updateOrInsert.
  destruct (identIndexMap idx !! station) as [i|] eqn:Hi.
  - destruct (Hc station i) as [Hex _]. destruct (Hex Hi) as (old & Hold & _).
    rewrite Hold.
    destruct (timestamp old <? ts).
    + unfold metarData. cbn. rewrite Hi.
      rewrite list_lookup_insert_eq; [reflexivity | eapply lookup_lt_Some; eauto].
    + unfold metarData. now rewrite Hi.
  - unfold metarData. cbn. rewrite lookup_insert_eq.
    rewrite lookup_app_r by lia. now rewrite Nat.sub_diag.
Qed.

Lemma updateOrInsert_other (idx : MetarIndex) (text station other : string) (ts : Z) :
  consistent idx -> other <> station ->
  metarData (updateOrInsert idx text station ts) other = metarData idx other.
Proof.
  intros Hc Hne. unfold updateOrInsert.
  destruct (identIndexMap idx !! station) as [i|] eqn:Hi.
  - destruct (spatialIndex idx !! i) as [old|] eqn:Hold; [|reflexivity].
    destruct (timestamp old <? ts); [|reflexivity].
    unfold metarData. cbn.
    destruct (identIndexMap idx !! other) as [j|] eqn:Hj; [|reflexivity].
    apply list_lookup_insert_ne. intros ->.
    destruct (Hc other j) as [Hex _]. destruct (Hex Hj) as (md & Hmd & Hid).
    destruct (Hc station j) as [Hex' _]. destruct (Hex' Hi) as (md' & Hmd' & Hid').
    congruence.
  - unfold metarData. cbn. rewrite lookup_insert_ne by congruence.
    destruct (identIndexMap idx !! other) as [j|] eqn:Hj; [|reflexivity].
    destruct (Hc other j) as [Hex _]. destruct (Hex Hj) as (md & Hmd & _).
    apply lookup_app_l. eapply lookup_lt_Some; eauto.
Qed.

(** C7.  In every state of the METAR index (a new index, and what [read]
    and [clear] make of it, record by record) the index holds at most one
    entry per station identifier, and the entry is the one found under the
    identifier.  When a record for a station identifier already present is
    added, the entry with the later time stamp is kept and the other one
    is ignored; the entries of the other stations stay; a record for a new
    station is inserted. *)
Theorem metar_index_one_entry_per_station (idx : MetarIndex) :
  Reachable idx ->
  NoDup (map ident (spatialIndex idx)) /\
  (forall md, md ∈ spatialIndex idx -> metarData idx (ident md) = Some md) /\
  forall (text station : string) (ts : Z),
    let idx' := updateOrInsert idx text station ts in
    let entry := mkMetarData station text ts in
    Reachable idx' /\
    NoDup (map ident (spatialIndex idx')) /\
    metarData idx' station =
      match metarData idx station with
      | Some old => Some (if timestamp old <? ts then entry else old)
      | None => Some entry
      end /\
    (forall other, other <> station -> metarData idx' other = metarData idx other).
Proof.
  intros Hr. pose proof (reachable_consistent idx Hr) as Hc.
  split; [now apply consistent_NoDup|].
  split; [intros md; now apply consistent_entry|].
  intros text station ts idx' entry.
  split.
  { change idx' with (read idx [mkMetarData station text ts] true).1.
    now apply reach_read. }
  split; [apply consistent_NoDup; now apply updateOrInsert_consistent|].
  split; [now apply updateOrInsert_station|].
  intros other Hne. now apply updateOrInsert_other.
Qed.

(** The theorem at the index after reading KAAA at 12:00: the record of
    13:00 replaces the entry, and there is one entry. *)
Lemma metar_index_one_entry_per_station_witness :
  let idx := (read empty [mkMetarData "KAAA" "KAAA 011200Z 13007KT" 1200] true).1 in
  let idx' := updateOrInsert idx "KAAA 011300Z 11003KT" "KAAA" 1300 in
  metarData idx' "KAAA" = Some (mkMetarData "KAAA" "KAAA 011300Z 11003KT" 1300) /\
  NoDup (map ident (spatialIndex idx')).
Proof.
  intros idx idx'.
  destruct (metar_index_one_entry_per_station idx
              (reach_read empty [mkMetarData "KAAA" "KAAA 011200Z 13007KT" 1200] true reach_new))
    as (_ & _ & Hupd).
  destruct (Hupd "KAAA 011300Z 11003KT"%string "KAAA"%string 1300) as (_ & Hnd & Hst & _).
  split; [exact Hst | exact Hnd].
Defined.

End MetarIndexInvariant.

(* ===================================================================== *)
(** * Further properties of the compilers                                 *)
(* ===================================================================== *)

Section PairingCoverage.
Import PairSpec.
Context `{Ops}.

Lemma pairLoop_primaries (runways pre : list SqlRecord) :
  map fst (Dfd.runwaypairs (Dfd.pairLoop runways pre)) `sublist_of` pre.
Proof.
  induction pre as [|rw pre IH] using rev_ind; [constructor|].
  rewrite pairLoop_snoc. unfold Dfd.pairStep.
  destruct (decide _); [now apply sublist_inserts_r|].
  destruct (List.find _ runways); cbn; rewrite map_app; now apply sublist_app.
Qed.

(** What the pairs are made of: the primary end is an end worked on, the
    secondary end is an end of the set with the opposed name, or the closed
    end made up when there is none. *)
Lemma pairLoop_pairsFrom (runways pre : list SqlRecord) :
  forall p, p ∈ Dfd.runwaypairs (Dfd.pairLoop runways pre) ->
    p.1 ∈ pre /\
    ((p.2 ∈ runways /\ Dfd.identOf p.2 = Dfd.opposedRname (Dfd.identOf p.1)) \/
     (p.2 = Dfd.closedEnd p.1 /\ ~ oppositePresent runways p.1)).
Proof.
  induction pre as [|rw pre IH] using rev_ind.
  - intros p Hp. now apply elem_of_nil in Hp.
  - rewrite pairLoop_snoc.
    assert (Hold : forall p, p ∈ Dfd.runwaypairs (Dfd.pairLoop runways pre) ->
              p.1 ∈ pre ++ [rw] /\
              ((p.2 ∈ runways /\ Dfd.identOf p.2 = Dfd.opposedRname (Dfd.identOf p.1)) \/
               (p.2 = Dfd.closedEnd p.1 /\ ~ oppositePresent runways p.1))).
    { intros p Hp. destruct (IH p Hp) as [Hin Hrest]. split; [|exact Hrest].
      apply elem_of_app. now left. }
    assert (Hrw : rw ∈ pre ++ [rw]).
    { apply elem_of_app. right. now apply list_elem_of_singleton. }
    unfold Dfd.pairStep.
    destruct (decide _); [exact Hold|].
    destruct (List.find _ runways) as [orw|] eqn:Hf; intros p Hp; cbn in Hp;
      apply elem_of_app in Hp as [Hp|Hp]; try (now apply Hold);
      apply list_elem_of_singleton in Hp as ->; cbn; (split; [exact Hrw|]).
    + apply find_opposed_some in Hf as [Hin Hid]. now left.
    + right. split; [reflexivity|].
      intros (orw & Hin & Hid). exact (find_opposed_none _ _ Hf orw Hin Hid).
Qed.

Lemma closedEnd_ident (rw : SqlRecord) :
  hasField rw "runway_identifier" = true ->
  Dfd.identOf (Dfd.closedEnd rw) = Dfd.opposedRname (Dfd.identOf rw).
Proof.
  intros Hf. unfold Dfd.identOf at 1. unfold valueStr.
  rewrite closedEnd_columns. unfold closedEndColumn.
  cbn [String.eqb Ascii.eqb Bool.eqb]. rewrite Hf. reflexivity.
Qed.

(** X1.  The pairs of [pairRunways] are made of the input: the primary
    ends are ends of the input in the order of the input, and there are at
    most as many pairs as ends.  The secondary end of a pair is an end of
    the input whose identifier is the opposed name of the primary end, or
    it is the closed end made up from the primary end, and then no end of
    the input has the opposed name.  When the primary end has a runway
    identifier, the identifier of the secondary end is its opposed name. *)
Theorem pairRunways_pairs_from_input (runways : list SqlRecord) :
  map fst (Dfd.pairRunways runways) `sublist_of` runways /\
  (length (Dfd.pairRunways runways) <= length runways)%nat /\
  forall p, p ∈ Dfd.pairRunways runways ->
    ((p.2 ∈ runways /\ Dfd.identOf p.2 = Dfd.opposedRname (Dfd.identOf p.1)) \/
     (p.2 = Dfd.closedEnd p.1 /\ ~ oppositePresent runways p.1)) /\
    (hasField p.1 "runway_identifier" = true ->
     Dfd.identOf p.2 = Dfd.opposedRname (Dfd.identOf p.1)).
Proof.
  pose proof (pairLoop_primaries runways runways) as Hsub.
  split; [exact Hsub|]. split.
  { apply sublist_length in Hsub. now rewrite length_map in Hsub. }
  intros p Hp. destruct (pairLoop_pairsFrom runways runways p Hp) as [_ Hshape].
  split; [exact Hshape|].
  intros Hf. destruct Hshape as [[_ Hid]|[Heq _]]; [exact Hid|].
  rewrite Heq. now apply closedEnd_ident.
Qed.

(** Every identifier in [found] is the identifier of an end of a pair of
    two ends of the set. *)
Lemma pairLoop_foundPaired (runways pre : list SqlRecord) :
  (forall r, r ∈ pre -> r ∈ runways) ->
  forall s, s ∈ Dfd.found (Dfd.pairLoop runways pre) ->
    exists p, p ∈ Dfd.runwaypairs (Dfd.pairLoop runways pre) /\ p.1 ∈ runways /\ p.2 ∈ runways /\
      (Dfd.identOf p.1 = s \/ Dfd.identOf p.2 = s).
Proof.
  induction pre as [|rw pre IH] using rev_ind; intros Hpre.
  - intros s Hs. cbn in Hs. now apply not_elem_of_empty in Hs.
  - rewrite pairLoop_snoc.
    assert (IH' := IH (fun r Hr => Hpre r (proj2 (elem_of_app pre [rw] r) (or_introl Hr)))).
    assert (Hrw : rw ∈ runways).
    { apply Hpre. apply elem_of_app. right. now apply list_elem_of_singleton. }
    unfold Dfd.pairStep.
    destruct (decide _); [exact IH'|].
    destruct (List.find _ runways) as [orw|] eqn:Hf.
    + apply find_opposed_some in Hf as [Hin Hid].
      intros s Hs. cbn in Hs |- *.
      assert (Hnew : (rw, orw) ∈ Dfd.runwaypairs (Dfd.pairLoop runways pre) ++ [(rw, orw)]).
      { apply elem_of_app. right. now apply list_elem_of_singleton. }
      apply elem_of_union in Hs as [Hs|Hs].
      { apply elem_of_singleton in Hs as ->. exists (rw, orw). cbn. auto. }
      apply elem_of_union in Hs as [Hs|Hs].
      { apply elem_of_singleton in Hs as ->. exists (rw, orw). cbn. auto. }
      destruct (IH' s Hs) as (p & Hp & Hrest).
      exists p. split; [|exact Hrest]. apply elem_of_app. now left.
    + intros s Hs. cbn in Hs |- *.
      destruct (IH' s Hs) as (p & Hp & Hrest).
      exists p. split; [|exact Hrest]. apply elem_of_app. now left.
Qed.

Lemma same_ident_same_end (runways : list SqlRecord) (a b : SqlRecord) :
  NoDup (map Dfd.identOf runways) -> a ∈ runways -> b ∈ runways ->
  Dfd.identOf a = Dfd.identOf b -> a = b.
Proof.
  intros Hnd Ha Hb Hid.
  apply list_elem_of_lookup in Ha as [i Hi], Hb as [j Hj].
  assert (i = j) as ->.
  { apply (NoDup_lookup _ i j (Dfd.identOf a) Hnd).
    - now rewrite list_lookup_fmap, Hi.
    - now rewrite list_lookup_fmap, Hj, Hid. }
  congruence.
Qed.

Lemma pairLoop_covers (runways pre : list SqlRecord) :
  NoDup (map Dfd.identOf runways) ->
  (forall r, r ∈ pre -> r ∈ runways) ->
  forall rw, rw ∈ pre ->
    exists p, p ∈ Dfd.runwaypairs (Dfd.pairLoop runways pre) /\ (p.1 = rw \/ p.2 = rw).
Proof.
  intros Hnd.
  induction pre as [|r pre IH] using rev_ind; intros Hpre rw Hrw.
  - now apply elem_of_nil in Hrw.
  - rewrite pairLoop_snoc.
    destruct (pairStep_extends runways (Dfd.pairLoop runways pre) r) as [more Hmore].
    assert (Hpre' : forall x, x ∈ pre -> x ∈ runways).
    { intros x Hx. apply Hpre. apply elem_of_app. now left. }
    apply elem_of_app in Hrw as [Hrw|Hrw].
    { destruct (IH Hpre' rw Hrw) as (p & Hp & Hor).
      exists p. split; [|exact Hor]. rewrite Hmore. apply elem_of_app. now left. }
    apply list_elem_of_singleton in Hrw as ->.
    assert (Hr : r ∈ runways).
    { apply Hpre. apply elem_of_app. right. now apply list_elem_of_singleton. }
    unfold Dfd.pairStep.
    destruct (decide _) as [Hin|Hnin].
    + destruct (pairLoop_foundPaired runways pre Hpre' _ Hin) as (p & Hp & Hp1 & Hp2 & Hid).
      exists p. split; [exact Hp|].
      destruct Hid as [Hid|Hid]; [left|right];
        now apply (same_ident_same_end runways).
    + destruct (List.find _ runways) as [orw|]; eexists; (split;
        [apply elem_of_app; right; apply list_elem_of_singleton; reflexivity | now left]).
Qed.

(** X2.  When the runway identifiers of the ends of the input are pairwise
    different, [pairRunways] loses no end: every end of the input is the
    primary or the secondary end of a pair. *)
Theorem pairRunways_covers_every_end (runways : list SqlRecord) (rw : SqlRecord) :
  NoDup (map Dfd.identOf runways) ->
  rw ∈ runways ->
  exists p, p ∈ Dfd.pairRunways runways /\ (p.1 = rw \/ p.2 = rw).
Proof.
  intros Hnd Hrw. now apply (pairLoop_covers runways runways).
Qed.

End PairingCoverage.

Section RunwayRows.
Import RunwaySpec.
Context `{Ops}.

Lemma runwayFold_snoc (aptId : option Z) (pairs : list (SqlRecord * SqlRecord))
    (p : SqlRecord * SqlRecord) (a : Dfd.RwAcc) :
  fold_left (Dfd.runwayStep aptId) (pairs ++ [p]) a =
  Dfd.runwayStep aptId (fold_left (Dfd.runwayStep aptId) pairs a) p.
Proof. now rewrite fold_left_app. Qed.

(** The counters and the lengths of the tables after the loop. *)
Lemma runwayFold_counters (aptId : option Z) (pairs : list (SqlRecord * SqlRecord)) (a : Dfd.RwAcc) :
  let a' := fold_left (Dfd.runwayStep aptId) pairs a in
  let n := Z.of_nat (length pairs) in
  Dfd.numRunways a' = Dfd.numRunways a + n /\
  Dfd.accRunwayId a' = Dfd.accRunwayId a + n /\
  Dfd.accRunwayEndId a' = Dfd.accRunwayEndId a + 2 * n /\
  (exists rows, Dfd.accRunways a' = Dfd.accRunways a ++ rows /\ length rows = length pairs) /\
  (exists ends, Dfd.accRunwayEnds a' = Dfd.accRunwayEnds a ++ ends /\
                length ends = (2 * length pairs)%nat).
Proof.
  induction pairs as [|p pairs IH] using rev_ind.
  - cbn. repeat split; try lia; exists []; now rewrite app_nil_r.
  - cbv zeta in IH |- *. rewrite runwayFold_snoc, length_app. cbn [length].
    destruct IH as (Hn & Hid & Hend & (rows & Hrows & Hlr) & (ends & Hends & Hle)).
    cbn. rewrite Hn, Hid, Hend, Hrows, Hends.
    repeat split; try lia.
    + eexists. rewrite <- app_assoc. split; [reflexivity|]. rewrite length_app. cbn. lia.
    + eexists. rewrite <- app_assoc. split; [reflexivity|]. rewrite length_app. cbn. lia.
Qed.

(** The rows written for the pair at index [k]. *)
Lemma runwayFold_at (aptId : option Z) (pairs : list (SqlRecord * SqlRecord)) (a : Dfd.RwAcc)
    (k : nat) (p : SqlRecord * SqlRecord) :
  pairs !! k = Some p ->
  let a' := fold_left (Dfd.runwayStep aptId) pairs a in
  exists row pe se,
    Dfd.accRunways a' !! (length (Dfd.accRunways a) + k)%nat = Some row /\
    Dfd.accRunwayEnds a' !! (length (Dfd.accRunwayEnds a) + 2 * k)%nat = Some pe /\
    Dfd.accRunwayEnds a' !! (length (Dfd.accRunwayEnds a) + 2 * k + 1)%nat = Some se /\
    Dfd.runway_id row = Dfd.accRunwayId a + Z.of_nat k + 1 /\
    Dfd.rw_airport_id row = aptId /\
    Dfd.primary_end_id row = Dfd.accRunwayEndId a + 2 * Z.of_nat k + 1 /\
    Dfd.secondary_end_id row = Dfd.accRunwayEndId a + 2 * Z.of_nat k + 2 /\
    Dfd.runway_end_id pe = Dfd.primary_end_id row /\
    Dfd.runway_end_id se = Dfd.secondary_end_id row /\
    Dfd.end_type pe = "P"%string /\ Dfd.end_type se = "S"%string /\
    Dfd.re_name pe = Qt.mid (Dfd.identOf p.1) 2 /\
    Dfd.re_name se = Qt.mid (Dfd.identOf p.2) 2 /\
    Dfd.is_takeoff pe = negb (valueBool p.1 "is_closed" false) /\
    Dfd.is_landing pe = negb (valueBool p.1 "is_closed" false) /\
    Dfd.is_takeoff se = negb (valueBool p.2 "is_closed" false) /\
    Dfd.is_landing se = negb (valueBool p.2 "is_closed" false).
Proof.
  revert k p. induction pairs as [|q pairs IH] using rev_ind; intros k p Hk.
  - now rewrite lookup_nil in Hk.
  - cbv zeta. rewrite runwayFold_snoc.
    destruct (runwayFold_counters aptId pairs a)
      as (Hn & Hid & Hend & (rows & Hrows & Hlr) & (ends & Hends & Hle)).
    destruct (decide (k < length pairs)%nat) as [Hlt|Hge].
    + rewrite lookup_app_l in Hk by assumption.
      destruct (IH k p Hk) as (row & pe & se & Hrow & Hpe & Hse & Hrest).
      exists row, pe, se. cbn [Dfd.runwayStep Dfd.accRunways Dfd.accRunwayEnds].
      split; [|split; [|split; [|exact Hrest]]].
      * apply lookup_app_l_Some. exact Hrow.
      * apply lookup_app_l_Some. exact Hpe.
      * apply lookup_app_l_Some. exact Hse.
    + assert (k = length pairs) as ->.
      { apply lookup_lt_Some in Hk. rewrite length_app in Hk. cbn in Hk. lia. }
      rewrite list_lookup_middle in Hk by reflexivity. injection Hk as ->.
      eexists _, _, _.
      cbn [Dfd.runwayStep Dfd.accRunways Dfd.accRunwayEnds].
      split; [|split; [|split]].
      * rewrite Hrows at 1. rewrite <- Hlr, <- length_app, <- Hrows.
        apply list_lookup_middle. reflexivity.
      * rewrite lookup_app_r by (rewrite Hends, length_app; lia).
        replace (_ - _)%nat with 0%nat by (rewrite Hends, length_app; lia). reflexivity.
      * rewrite lookup_app_r by (rewrite Hends, length_app; lia).
        replace (_ - _)%nat with 1%nat by (rewrite Hends, length_app; lia). reflexivity.
      * cbn. rewrite Hid, Hend. repeat split; lia.
Qed.


(** X3.  [writeRunwaysForAirport] appends one runway row and two runway end
    rows for every pair and advances the counters of the runway ids and of
    the runway end ids by these numbers.  The runway row of the pair at
    index [k] has the next runway id, the airport id that the index gives
    for the airport (null when it gives none) and the ids of its two end
    rows, which follow each other; the end rows have the end types P and S
    and the names of the two ends without the leading RW. *)
Theorem runway_rows_reference_their_ends
    (st : Dfd.State) (runways : list SqlRecord) (apt : string) :
  let st' := Dfd.writeRunwaysForAirport st runways apt in
  let pairs := Dfd.pairRunways runways in
  Dfd.curRunwayId st' = Dfd.curRunwayId st + Z.of_nat (length pairs) /\
  Dfd.curRunwayEndId st' = Dfd.curRunwayEndId st + 2 * Z.of_nat (length pairs) /\
  exists rows ends,
    Dfd.runwayTable st' = Dfd.runwayTable st ++ rows /\ length rows = length pairs /\
    Dfd.runwayEndTable st' = Dfd.runwayEndTable st ++ ends /\
    length ends = (2 * length pairs)%nat /\
    forall k p, pairs !! k = Some p ->
      exists row pe se,
        rows !! k = Some row /\ ends !! (2 * k)%nat = Some pe /\
        ends !! (2 * k + 1)%nat = Some se /\
        Dfd.runway_id row = Dfd.curRunwayId st + Z.of_nat k + 1 /\
        Dfd.rw_airport_id row = Dfd.airportIndex st !! apt /\
        Dfd.primary_end_id row = Dfd.curRunwayEndId st + 2 * Z.of_nat k + 1 /\
        Dfd.secondary_end_id row = Dfd.curRunwayEndId st + 2 * Z.of_nat k + 2 /\
        Dfd.runway_end_id pe = Dfd.primary_end_id row /\
        Dfd.runway_end_id se = Dfd.secondary_end_id row /\
        Dfd.end_type pe = "P"%string /\ Dfd.end_type se = "S"%string /\
        Dfd.re_name pe = Qt.mid (Dfd.identOf p.1) 2 /\
        Dfd.re_name se = Qt.mid (Dfd.identOf p.2) 2.
Proof.
  intros st' pairs.
  destruct (runwayFold_counters (Dfd.airportIndex st !! apt) pairs (Dfd.initialAcc st apt))
    as (_ & Hid & Hend & (rows & Hrows & Hlr) & (ends & Hends & Hle)).
  split; [exact Hid|]. split; [exact Hend|].
  exists rows, ends.
  split; [exact Hrows|]. split; [exact Hlr|]. split; [exact Hends|]. split; [exact Hle|].
  intros k p Hk.
  destruct (runwayFold_at (Dfd.airportIndex st !! apt) pairs (Dfd.initialAcc st apt) k p Hk)
    as (row & pe & se & Hrow & Hpe & Hse & H1 & H2 & H3 & H4 & H5 & H6 & H7 & H8 & H9 & H10 & _).
  cbv zeta in Hrow, Hpe, Hse. rewrite Hrows in Hrow. rewrite Hends in Hpe, Hse.
  cbn [Dfd.initialAcc Dfd.accRunways Dfd.accRunwayEnds] in Hrow, Hpe, Hse.
  rewrite lookup_app_r in Hrow by lia.
  rewrite lookup_app_r in Hpe by lia.
  rewrite lookup_app_r in Hse by lia.
  exists row, pe, se.
  split. { rewrite <- Hrow. f_equal. lia. }
  split. { rewrite <- Hpe. f_equal. lia. }
  split. { rewrite <- Hse. f_equal. lia. }
  repeat split; assumption.
Qed.

Lemma closedEnd_is_closed (rw : SqlRecord) :
  hasField (Dfd.closedEnd rw) "is_closed" = true /\
  valueBool (Dfd.closedEnd rw) "is_closed" false = true.
Proof.
  assert (Hf : hasField (Dfd.closedEnd rw) "is_closed" = true).
  { unfold Dfd.closedEnd.
    now rewrite hasField_setValue, hasField_appendField, String.eqb_refl, orb_true_r. }
  split; [exact Hf|].
  unfold valueBool. rewrite Hf, closedEnd_columns. reflexivity.
Qed.

(** X4.  When no row of the source has a column is_closed, the primary end
    row of every pair allows takeoff and landing, and the two flags of the
    secondary end row are equal: they are false exactly when the secondary
    end is the closed end that was made up, and true exactly when it is an
    end of the input. *)
Theorem made_up_end_is_closed
    (st : Dfd.State) (runways : list SqlRecord) (apt : string)
    (k : nat) (p : SqlRecord * SqlRecord) :
  (forall r, r ∈ runways -> hasField r "is_closed" = false) ->
  Dfd.pairRunways runways !! k = Some p ->
  let st' := Dfd.writeRunwaysForAirport st runways apt in
  exists pe se,
    Dfd.runwayEndTable st' !! (length (Dfd.runwayEndTable st) + 2 * k)%nat = Some pe /\
    Dfd.runwayEndTable st' !! (length (Dfd.runwayEndTable st) + 2 * k + 1)%nat = Some se /\
    Dfd.is_takeoff pe = true /\ Dfd.is_landing pe = true /\
    Dfd.is_landing se = Dfd.is_takeoff se /\
    (Dfd.is_takeoff se = false <-> p.2 = Dfd.closedEnd p.1) /\
    (Dfd.is_takeoff se = true <-> p.2 ∈ runways).
Proof.
  intros Hsrc Hk st'.
  destruct (runwayFold_at (Dfd.airportIndex st !! apt) _ (Dfd.initialAcc st apt) k p Hk)
    as (row & pe & se & _ & Hpe & Hse & _ & _ & _ & _ & _ & _ & _ & _ & _ & _ & Ht1 & Hl1 & Ht2 & Hl2).
  exists pe, se.
  split; [exact Hpe|]. split; [exact Hse|].
  assert (Hp : p ∈ Dfd.pairRunways runways) by (eapply list_elem_of_lookup_2; exact Hk).
  destruct (pairLoop_pairsFrom runways runways p Hp) as [Hp1 Hshape].
  assert (Hopen : forall r, r ∈ runways -> valueBool r "is_closed" false = false).
  { intros r Hr. unfold valueBool. now rewrite (Hsrc r Hr). }
  rewrite Ht1, Hl1, Ht2, Hl2, (Hopen _ Hp1).
  split; [reflexivity|]. split; [reflexivity|]. split; [reflexivity|].
  destruct (closedEnd_is_closed p.1) as [Hfield Hclosed].
  destruct Hshape as [[Hin _]|[Heq _]].
  - rewrite (Hopen _ Hin). cbn. split; split; try discriminate; auto.
    intros Heq. specialize (Hsrc _ Hin). rewrite Heq, Hfield in Hsrc. discriminate.
  - rewrite Heq at 1 3. rewrite Hclosed. cbn. split; split; try discriminate; auto.
    intros Hin. rewrite Heq in Hin. apply Hsrc in Hin. congruence.
Qed.

(** The first iteration always gives a pair. *)
Lemma pairRunways_nonempty (runways : list SqlRecord) :
  runways <> [] -> (0 < length (Dfd.pairRunways runways))%nat.
Proof.
  destruct runways as [|rw post]; [congruence|]. intros _.
  unfold Dfd.pairRunways.
  change (Dfd.pairLoop (rw :: post) (rw :: post))
    with (Dfd.pairLoop (rw :: post) ([] ++ rw :: post)).
  rewrite (pairLoop_split (rw :: post) [] post rw).
  destruct (pairFold_extends (rw :: post) post
              (Dfd.pairStep (rw :: post) (Dfd.pairLoop (rw :: post) []) rw)) as [more Hmore].
  rewrite Hmore, length_app.
  unfold Dfd.pairStep.
  destruct (decide _) as [Hin|_].
  - cbn in Hin. now apply not_elem_of_empty in Hin.
  - destruct (List.find _ _); cbn; lia.
Qed.

(** X5.  For an airport of the index, [writeRunwaysForAirport] keeps the
    identifier of the airport row and sets num_runways to the number of
    pairs, which is at least 1 when there are ends.  When the surface code
    of the longest runway is H, S or W, the numbers of hard, soft and water
    runways add up to the number of runways, with at most one soft and at
    most one water runway; for every other surface code the three numbers
    are 0. *)
Theorem airport_runway_counts
    (st : Dfd.State) (runways : list SqlRecord) (apt : string) (id : Z) (row : Dfd.AirportRow) :
  Dfd.airportIndex st !! apt = Some id ->
  Dfd.airportTable st !! id = Some row ->
  let n := Z.of_nat (length (Dfd.pairRunways runways)) in
  let surface := default EmptyString (Dfd.longestRunwaySurfaceMap st !! apt) in
  exists row',
    Dfd.airportTable (Dfd.writeRunwaysForAirport st runways apt) !! id = Some row' /\
    Dfd.apt_ident row' = Dfd.apt_ident row /\
    Dfd.num_runways row' = n /\
    (runways <> [] -> 1 <= n) /\
    (surface ∈ ["H"; "S"; "W"]%string ->
       Dfd.num_runway_hard row' + Dfd.num_runway_soft row' + Dfd.num_runway_water row' = n /\
       0 <= Dfd.num_runway_soft row' <= 1 /\ 0 <= Dfd.num_runway_water row' <= 1 /\
       (runways <> [] -> 0 <= Dfd.num_runway_hard row')) /\
    (surface ∉ ["H"; "S"; "W"]%string ->
       Dfd.num_runway_hard row' = 0 /\ Dfd.num_runway_soft row' = 0 /\
       Dfd.num_runway_water row' = 0).
Proof.
  intros Hidx Hrow n surface.
  assert (Hn : runways <> [] -> 1 <= n).
  { intros Hne. pose proof (pairRunways_nonempty runways Hne). lia. }
  destruct (runwayFold_counters (Dfd.airportIndex st !! apt) (Dfd.pairRunways runways)
              (Dfd.initialAcc st apt)) as (Hnum & _).
  cbn [Dfd.initialAcc Dfd.numRunways] in Hnum. fold n in Hnum.
  exists (Dfd.airportUpdate (Dfd.runwayLoop st apt (Dfd.pairRunways runways)) surface row).
  split.
  { unfold Dfd.writeRunwaysForAirport. cbn.
    rewrite Hidx, lookup_alter_eq, Hrow. reflexivity. }
  unfold Dfd.airportUpdate, Dfd.runwayLoop. rewrite Hnum.
  replace (0 + n) with n by lia.
  clearbody surface n.
  unfold Dfd.surfaceCounts.
  assert (Hsum : forall hard soft water : Z,
            hard + soft + water = n -> 0 <= soft -> 0 <= water -> soft + water <= 1 ->
            hard + soft + water = n /\ 0 <= soft <= 1 /\ 0 <= water <= 1 /\
            (runways <> [] -> 0 <= hard)).
  { intros hard soft water Hs Hsoft Hwater Hone.
    split; [exact Hs|]. split; [lia|]. split; [lia|].
    intros Hne. specialize (Hn Hne). lia. }
  destruct (String.eqb_spec surface "H") as [HH|HH].
  { cbn. split; [reflexivity|]. split; [reflexivity|]. split; [exact Hn|]. split.
    - intros _. apply Hsum; lia.
    - intros Hnot. exfalso. apply Hnot. rewrite HH. apply list_elem_of_here. }
  destruct (String.eqb_spec surface "S") as [HS|HS].
  { cbn. split; [reflexivity|]. split; [reflexivity|]. split; [exact Hn|]. split.
    - intros _. apply Hsum; lia.
    - intros Hnot. exfalso. apply Hnot. rewrite HS.
      apply list_elem_of_further, list_elem_of_here. }
  destruct (String.eqb_spec surface "W") as [HW|HW].
  { cbn. split; [reflexivity|]. split; [reflexivity|]. split; [exact Hn|]. split.
    - intros _. apply Hsum; lia.
    - intros Hnot. exfalso. apply Hnot. rewrite HW.
      apply list_elem_of_further, list_elem_of_further, list_elem_of_here. }
  cbn. split; [reflexivity|]. split; [reflexivity|]. split; [exact Hn|]. split.
  - intros Hin. exfalso. rewrite !elem_of_cons, elem_of_nil in Hin. tauto.
  - intros _. repeat split.
Qed.

(** The longest runway so far: the first pair with the greatest length,
    when a pair has a length above zero. *)
Lemma runwayFold_longest (aptId : option Z) (pairs : list (SqlRecord * SqlRecord)) (a : Dfd.RwAcc) :
  Dfd.longestRunwayLength a = 0 -> Dfd.longestRunwayWidth a = 0 ->
  Dfd.longestRunwayHeading a = ofZ 0 ->
  let a' := fold_left (Dfd.runwayStep aptId) pairs a in
  (forall p, p ∈ pairs -> valueInt p.1 "runway_length" <= Dfd.longestRunwayLength a') /\
  ((Dfd.longestRunwayLength a' = 0 /\ Dfd.longestRunwayWidth a' = 0 /\
    Dfd.longestRunwayHeading a' = ofZ 0) \/
   exists k p, pairs !! k = Some p /\ 0 < valueInt p.1 "runway_length" /\
     Dfd.longestRunwayLength a' = valueInt p.1 "runway_length" /\
     Dfd.longestRunwayWidth a' = valueInt p.1 "runway_width" /\
     Dfd.longestRunwayHeading a' = Dfd.pairHeading p /\
     forall j q, (j < k)%nat -> pairs !! j = Some q ->
       valueInt q.1 "runway_length" < valueInt p.1 "runway_length").
Proof.
  intros Hl Hw Hh.
  induction pairs as [|p pairs IH] using rev_ind.
  - cbn. split; [|left; auto]. intros p Hp. now apply elem_of_nil in Hp.
  - cbv zeta in IH |- *. rewrite runwayFold_snoc.
    destruct IH as [Hmax Hfirst].
    set (a' := fold_left (Dfd.runwayStep aptId) pairs a) in *.
    assert (Hnonneg : 0 <= Dfd.longestRunwayLength a').
    { destruct Hfirst as [(-> & _)|(k & q & _ & Hpos & -> & _)]; lia. }
    cbn [Dfd.runwayStep Dfd.longestRunwayLength Dfd.longestRunwayWidth
         Dfd.longestRunwayHeading].
    destruct (Z.ltb_spec (Dfd.longestRunwayLength a') (valueInt p.1 "runway_length"))
      as [Hlt|Hge].
    + split.
      * intros q Hq. apply elem_of_app in Hq as [Hq|Hq].
        -- specialize (Hmax q Hq). lia.
        -- apply list_elem_of_singleton in Hq as ->. lia.
      * right. exists (length pairs), p.
        split; [now apply list_lookup_middle|].
        split; [lia|]. split; [reflexivity|]. split; [reflexivity|]. split; [reflexivity|].
        intros j q Hj Hq. rewrite lookup_app_l in Hq by assumption.
        apply list_elem_of_lookup_2 in Hq. specialize (Hmax q Hq). lia.
    + split.
      * intros q Hq. apply elem_of_app in Hq as [Hq|Hq].
        -- now apply Hmax.
        -- apply list_elem_of_singleton in Hq as ->. lia.
      * destruct Hfirst as [Hzero|(k & q & Hk & Hpos & Hlen & Hwid & Hhead & Hbefore)];
          [now left|].
        right. exists k, q.
        split; [now apply lookup_app_l_Some|].
        split; [exact Hpos|]. split; [exact Hlen|]. split; [exact Hwid|].
        split; [exact Hhead|].
        intros j r Hj Hr. apply (Hbefore j r Hj).
        apply lookup_lt_Some in Hk.
        rewrite lookup_app_l in Hr by lia. exact Hr.
Qed.

(** X6.  The length of the longest runway that [writeRunwaysForAirport]
    writes to the airport row is at least the length of every pair.  Either
    length, width and heading are all 0, or they are those of a pair of
    positive length such that every earlier pair is strictly shorter: of
    several pairs of the greatest length the first one is taken. *)
Theorem longest_runway_is_first_longest
    (st : Dfd.State) (runways : list SqlRecord) (apt : string) (id : Z) (row : Dfd.AirportRow) :
  Dfd.airportIndex st !! apt = Some id ->
  Dfd.airportTable st !! id = Some row ->
  let pairs := Dfd.pairRunways runways in
  exists row',
    Dfd.airportTable (Dfd.writeRunwaysForAirport st runways apt) !! id = Some row' /\
    (forall p, p ∈ pairs -> valueInt p.1 "runway_length" <= Dfd.longest_runway_length row') /\
    ((Dfd.longest_runway_length row' = 0 /\ Dfd.longest_runway_width row' = 0 /\
      Dfd.longest_runway_heading row' = ofZ 0) \/
     exists k p, pairs !! k = Some p /\ 0 < valueInt p.1 "runway_length" /\
       Dfd.longest_runway_length row' = valueInt p.1 "runway_length" /\
       Dfd.longest_runway_width row' = valueInt p.1 "runway_width" /\
       Dfd.longest_runway_heading row' = Dfd.pairHeading p /\
       forall j q, (j < k)%nat -> pairs !! j = Some q ->
         valueInt q.1 "runway_length" < valueInt p.1 "runway_length").
Proof.
  intros Hidx Hrow pairs.
  exists (Dfd.airportUpdate (Dfd.runwayLoop st apt pairs)
            (default EmptyString (Dfd.longestRunwaySurfaceMap st !! apt)) row).
  split.
  { unfold Dfd.writeRunwaysForAirport. cbn.
    rewrite Hidx, lookup_alter_eq, Hrow. reflexivity. }
  unfold Dfd.airportUpdate.
  destruct (Dfd.surfaceCounts _ _) as [[hard soft] water].
  cbn [Dfd.longest_runway_length Dfd.longest_runway_width Dfd.longest_runway_heading].
  apply (runwayFold_longest (Dfd.airportIndex st !! apt) pairs (Dfd.initialAcc st apt));
    reflexivity.
Qed.

(** Every row of the loop is a row from before or a row of the airport. *)
Lemma runwayFold_airport (aptId : option Z) (pairs : list (SqlRecord * SqlRecord)) (a : Dfd.RwAcc) :
  forall row, row ∈ Dfd.accRunways (fold_left (Dfd.runwayStep aptId) pairs a) ->
    row ∈ Dfd.accRunways a \/ Dfd.rw_airport_id row = aptId.
Proof.
  induction pairs as [|p pairs IH] using rev_ind; intros row Hrow; [now left|].
  rewrite runwayFold_snoc in Hrow. cbn in Hrow.
  apply elem_of_app in Hrow as [Hrow|Hrow]; [now apply IH|].
  apply list_elem_of_singleton in Hrow as ->. now right.
Qed.

(** X7.  For an airport identifier that the airport index does not have,
    [writeRunwaysForAirport] leaves the airport table as it is and still
    writes the runway rows of the pairs: they have a null airport id. *)
Theorem runways_of_unknown_airport
    (st : Dfd.State) (runways : list SqlRecord) (apt : string) :
  Dfd.airportIndex st !! apt = None ->
  let st' := Dfd.writeRunwaysForAirport st runways apt in
  Dfd.airportTable st' = Dfd.airportTable st /\
  length (Dfd.runwayTable st') =
    (length (Dfd.runwayTable st) + length (Dfd.pairRunways runways))%nat /\
  forall row, row ∈ Dfd.runwayTable st' ->
    row ∈ Dfd.runwayTable st \/ Dfd.rw_airport_id row = None.
Proof.
  intros Hidx st'. subst st'. unfold Dfd.writeRunwaysForAirport. cbn.
  rewrite Hidx. split; [reflexivity|]. split.
  - destruct (runwayFold_counters None (Dfd.pairRunways runways) (Dfd.initialAcc st apt))
      as (_ & _ & _ & (rows & Hrows & Hlr) & _).
    unfold Dfd.runwayLoop. rewrite Hidx, Hrows, length_app. cbn. lia.
  - intros row Hrow. unfold Dfd.runwayLoop in Hrow. rewrite Hidx in Hrow.
    now apply runwayFold_airport in Hrow.
Qed.

(** What the loop leaves for the airport row depends on the counters of
    the airport alone, not on the ids and the rows written before. *)
Lemma runwayFold_summary (aptId aptId' : option Z) (pairs : list (SqlRecord * SqlRecord))
    (a b : Dfd.RwAcc) :
  Dfd.numRunways a = Dfd.numRunways b -> Dfd.numRunwayIls a = Dfd.numRunwayIls b ->
  Dfd.longestRunwayLength a = Dfd.longestRunwayLength b ->
  Dfd.longestRunwayWidth a = Dfd.longestRunwayWidth b ->
  Dfd.longestRunwayHeading a = Dfd.longestRunwayHeading b ->
  Dfd.airportRect a = Dfd.airportRect b ->
  let a' := fold_left (Dfd.runwayStep aptId) pairs a in
  let b' := fold_left (Dfd.runwayStep aptId') pairs b in
  Dfd.numRunways a' = Dfd.numRunways b' /\ Dfd.numRunwayIls a' = Dfd.numRunwayIls b' /\
  Dfd.longestRunwayLength a' = Dfd.longestRunwayLength b' /\
  Dfd.longestRunwayWidth a' = Dfd.longestRunwayWidth b' /\
  Dfd.longestRunwayHeading a' = Dfd.longestRunwayHeading b' /\
  Dfd.airportRect a' = Dfd.airportRect b'.
Proof.
  intros H1 H2 H3 H4 H5 H6.
  induction pairs as [|p pairs IH] using rev_ind; [cbn; auto 10|].
  cbv zeta in IH |- *. rewrite !runwayFold_snoc.
  destruct IH as (E1 & E2 & E3 & E4 & E5 & E6).
  cbn. rewrite E1, E2, E3, E4, E5, E6. auto 10.
Qed.

(** X8.  Writing the runways of an airport a second time overwrites what
    the first write left in the airport table: the table is the one that
    the second write alone gives. *)
Theorem later_runway_group_overwrites
    (st : Dfd.State) (runways1 runways2 : list SqlRecord) (apt : string) :
  Dfd.airportTable
    (Dfd.writeRunwaysForAirport (Dfd.writeRunwaysForAirport st runways1 apt) runways2 apt) =
  Dfd.airportTable (Dfd.writeRunwaysForAirport st runways2 apt).
Proof.
  unfold Dfd.writeRunwaysForAirport at 1 3.
  cbn [Dfd.airportTable].
  change (Dfd.airportIndex (Dfd.writeRunwaysForAirport st runways1 apt))
    with (Dfd.airportIndex st).
  change (Dfd.longestRunwaySurfaceMap (Dfd.writeRunwaysForAirport st runways1 apt))
    with (Dfd.longestRunwaySurfaceMap st).
  destruct (Dfd.airportIndex st !! apt) as [id|] eqn:Hidx.
  2:{ unfold Dfd.writeRunwaysForAirport. cbn. now rewrite Hidx. }
  unfold Dfd.writeRunwaysForAirport at 2. cbn [Dfd.airportTable]. rewrite Hidx.
  rewrite alter_alter_eq. apply alter_ext. intros row _. cbn [compose].
  destruct (runwayFold_summary
              (Dfd.airportIndex (Dfd.writeRunwaysForAirport st runways1 apt) !! apt)
              (Dfd.airportIndex st !! apt) (Dfd.pairRunways runways2)
              (Dfd.initialAcc (Dfd.writeRunwaysForAirport st runways1 apt) apt)
              (Dfd.initialAcc st apt))
    as (E1 & E2 & E3 & E4 & E5 & E6); try reflexivity.
  unfold Dfd.airportUpdate, Dfd.runwayLoop.
  rewrite E1, E2, E3, E4, E5, E6.
  destruct (Dfd.surfaceCounts _ (Dfd.numRunways (fold_left _ (Dfd.pairRunways runways2) _)))
    as [[hard2 soft2] water2].
  destruct (Dfd.surfaceCounts _ _) as [[hard1 soft1] water1].
  reflexivity.
Qed.



End RunwayRows.

Section RunwayTableRuns.
Import Planar RunwaySpec PairSpec.

(** The theorem at the ends RW09, RW27 and RW04: the end RW27 is found in a
    pair. *)
Lemma pairRunways_covers_every_end_witness :
  exists p,
    p ∈ Dfd.pairRunways [rwEnd "RW09" 88 VNull; rwEnd "RW27" 268 VNull; rwEnd "RW04" 40 VNull] /\
    (p.1 = rwEnd "RW27" 268 VNull \/ p.2 = rwEnd "RW27" 268 VNull).
Proof.
  apply (pairRunways_covers_every_end
           [rwEnd "RW09" 88 VNull; rwEnd "RW27" 268 VNull; rwEnd "RW04" 40 VNull]
           (rwEnd "RW27" 268 VNull)).
  - cbn. apply NoDup_cons. split.
    + intros Hin. apply elem_of_cons in Hin as [Hin|Hin]; [discriminate Hin|].
      apply list_elem_of_singleton in Hin. discriminate Hin.
    + apply NoDup_cons. split; [|apply NoDup_singleton].
      intros Hin. apply list_elem_of_singleton in Hin. discriminate Hin.
  - apply list_elem_of_further, list_elem_of_here.
Defined.

(** The theorem at the single end RW09: the end RW27 is made up, and its
    row allows neither takeoff nor landing. *)
Lemma made_up_end_is_closed_witness :
  exists pe se,
    Dfd.runwayEndTable
      (Dfd.writeRunwaysForAirport emptyState [runwayEndRow "RW09" 90 50 90 VNull] "KAAA")
      !! 0%nat = Some pe /\
    Dfd.runwayEndTable
      (Dfd.writeRunwaysForAirport emptyState [runwayEndRow "RW09" 90 50 90 VNull] "KAAA")
      !! 1%nat = Some se /\
    Dfd.is_takeoff pe = true /\ Dfd.is_landing pe = true /\
    Dfd.is_takeoff se = false /\ Dfd.is_landing se = false.
Proof.
  destruct (made_up_end_is_closed emptyState [runwayEndRow "RW09" 90 50 90 VNull] "KAAA" 0
              (runwayEndRow "RW09" 90 50 90 VNull,
               Dfd.closedEnd (runwayEndRow "RW09" 90 50 90 VNull)))
    as (pe & se & Hpe & Hse & Ht & Hl & Hsame & Hclosed & _).
  - intros r Hr. apply list_elem_of_singleton in Hr. now subst r.
  - reflexivity.
  - exists pe, se. split; [exact Hpe|]. split; [exact Hse|].
    split; [exact Ht|]. split; [exact Hl|].
    assert (E : Dfd.is_takeoff se = false) by now apply Hclosed.
    split; [exact E|]. now rewrite Hsame.
Defined.

(** The theorem at the airport KAAA with the surface code H and the ends
    RW09 and RW27: one runway, which is counted as hard, soft or water. *)
Lemma airport_runway_counts_witness :
  exists row',
    Dfd.airportTable
      (Dfd.writeRunwaysForAirport
         (Dfd.writeAirports emptyState [airportRow "KAAA" 100 50])
         [runwayEndRow "RW09" 90 50 90 VNull; runwayEndRow "RW27" 110 50 270 (VStr "IAA")]
         "KAAA") !! 1 = Some row' /\
    Dfd.num_runways row' = 1 /\
    Dfd.num_runway_hard row' + Dfd.num_runway_soft row' + Dfd.num_runway_water row' = 1.
Proof.
  destruct (airport_runway_counts
              (Dfd.writeAirports emptyState [airportRow "KAAA" 100 50])
              [runwayEndRow "RW09" 90 50 90 VNull; runwayEndRow "RW27" 110 50 270 (VStr "IAA")]
              "KAAA" 1 _ eq_refl eq_refl) as (row' & Hrow & _ & Hn & _ & Hsurface & _).
  exists row'. split; [exact Hrow|]. split; [exact Hn|].
  apply Hsurface. apply list_elem_of_here.
Defined.

(** The theorem at the same airport: the longest runway has at least the
    length 20 of its only pair. *)
Lemma longest_runway_is_first_longest_witness :
  exists row',
    Dfd.airportTable
      (Dfd.writeRunwaysForAirport
         (Dfd.writeAirports emptyState [airportRow "KAAA" 100 50])
         [runwayEndRow "RW09" 90 50 90 VNull; runwayEndRow "RW27" 110 50 270 (VStr "IAA")]
         "KAAA") !! 1 = Some row' /\
    20 <= Dfd.longest_runway_length row'.
Proof.
  destruct (longest_runway_is_first_longest
              (Dfd.writeAirports emptyState [airportRow "KAAA" 100 50])
              [runwayEndRow "RW09" 90 50 90 VNull; runwayEndRow "RW27" 110 50 270 (VStr "IAA")]
              "KAAA" 1 _ eq_refl eq_refl) as (row' & Hrow & Hall & _).
  exists row'. split; [exact Hrow|].
  apply (Hall (runwayEndRow "RW09" 90 50 90 VNull, runwayEndRow "RW27" 110 50 270 (VStr "IAA"))).
  apply list_elem_of_here.
Defined.

(** The theorem at an empty airport index: the runway row of the end RW09
    has no airport id. *)
Lemma runways_of_unknown_airport_witness :
  Dfd.airportTable
    (Dfd.writeRunwaysForAirport emptyState [runwayEndRow "RW09" 90 50 90 VNull] "KAAA") =
  Dfd.airportTable emptyState /\
  forall row,
    row ∈ Dfd.runwayTable
            (Dfd.writeRunwaysForAirport emptyState [runwayEndRow "RW09" 90 50 90 VNull] "KAAA") ->
    Dfd.rw_airport_id row = None.
Proof.
  destruct (runways_of_unknown_airport emptyState [runwayEndRow "RW09" 90 50 90 VNull] "KAAA"
              eq_refl) as (Htable & _ & Hrows).
  split; [exact Htable|]. intros row Hin.
  destruct (Hrows row Hin) as [Hold|Hnone]; [|exact Hnone].
  now apply elem_of_nil in Hold.
Defined.

End RunwayTableRuns.

Section RunwayGrouping.
Context `{Ops}.

Lemma collect_snoc {W} (write : W -> list SqlRecord -> string -> W) (c0 : Dfd.Collect W)
    (rows : list SqlRecord) (row : SqlRecord) :
  fold_left (Dfd.collectStep write) (rows ++ [row]) c0 =
  Dfd.collectStep write (fold_left (Dfd.collectStep write) rows c0) row.
Proof. now rewrite fold_left_app. Qed.

(** The loop with any function in place of [writeRunwaysForAirport] makes
    the calls that the loop that records them lists. *)
Lemma writeRunwaysWith_calls {W} (write : W -> list SqlRecord -> string -> W) (w : W)
    (rows : list SqlRecord) :
  Dfd.writeRunwaysWith write w rows =
  fold_left (fun w c => write w c.2 c.1) (Dfd.runwayCalls rows) w.
Proof.
  unfold Dfd.runwayCalls, Dfd.writeRunwaysWith.
  set (record := fun (calls : list (string * list SqlRecord)) runways apt =>
                   calls ++ [(apt, runways)]).
  assert (Hinv :
    let c := fold_left (Dfd.collectStep write) rows (Dfd.mkCollect w [] EmptyString) in
    let l := fold_left (Dfd.collectStep record) rows (Dfd.mkCollect [] [] EmptyString) in
    Dfd.collected c = Dfd.collected l /\ Dfd.lastApt c = Dfd.lastApt l /\
    Dfd.written c = fold_left (fun w c => write w c.2 c.1) (Dfd.written l) w).
  { induction rows as [|row rows IH] using rev_ind; [cbn; auto|].
    cbv zeta in IH |- *. rewrite !collect_snoc.
    destruct IH as (Hc & Hl & Hw).
    set (c := fold_left (Dfd.collectStep write) rows _) in *.
    set (l := fold_left (Dfd.collectStep record) rows _) in *.
    unfold Dfd.collectStep. rewrite Hl.
    destruct (negb _ && negb _); cbn; rewrite ?Hc, ?Hw.
    - split; [reflexivity|]. split; [reflexivity|].
      unfold record. now rewrite fold_left_app.
    - auto. }
  cbv zeta in Hinv. destruct Hinv as (Hc & Hl & Hw).
  rewrite Hc, Hl, Hw. unfold record at 1. now rewrite fold_left_app.
Qed.

(** X10.  [writeRunways] calls [writeRunwaysForAirport] once for every group
    of rows and once more at its end; the groups, one after the other, are
    the rows of the input.  Without rows there is one call with no ends and
    an empty airport identifier.  When no row has an empty airport
    identifier and there is a row, no group is empty, the rows of a group
    all have the airport of the call, and two calls that follow each other
    are for different airports. *)
Theorem writeRunways_groups_by_airport (st : Dfd.State) (rows : list SqlRecord) :
  let calls := Dfd.runwayCalls rows in
  Dfd.writeRunways st rows =
    fold_left (fun st c => Dfd.writeRunwaysForAirport st c.2 c.1) calls st /\
  concat (map snd calls) = rows /\
  (rows = [] -> calls = [(EmptyString, [])]) /\
  ((forall r, r ∈ rows -> valueStr r "airport_identifier" <> EmptyString) ->
   rows <> [] ->
   (forall c, c ∈ calls ->
      c.2 <> [] /\ forall r, r ∈ c.2 -> valueStr r "airport_identifier" = c.1) /\
   (forall i c1 c2, calls !! i = Some c1 -> calls !! S i = Some c2 -> c1.1 <> c2.1)).
Proof.
  intros calls.
  split; [apply writeRunwaysWith_calls|].
  subst calls. unfold Dfd.runwayCalls, Dfd.writeRunwaysWith.
  set (record := fun (calls : list (string * list SqlRecord)) runways apt =>
                   calls ++ [(apt, runways)]).
  assert (Hinv :
    let l := fold_left (Dfd.collectStep record) rows (Dfd.mkCollect [] [] EmptyString) in
    concat (map snd (Dfd.written l)) ++ Dfd.collected l = rows /\
    ((forall r, r ∈ rows -> valueStr r "airport_identifier" <> EmptyString) ->
     (forall c, c ∈ Dfd.written l ->
        c.2 <> [] /\ forall r, r ∈ c.2 -> valueStr r "airport_identifier" = c.1) /\
     (forall i c1 c2, Dfd.written l !! i = Some c1 -> Dfd.written l !! S i = Some c2 ->
        c1.1 <> c2.1) /\
     (forall r, r ∈ Dfd.collected l -> valueStr r "airport_identifier" = Dfd.lastApt l) /\
     (rows <> [] -> Dfd.collected l <> [] /\ Dfd.lastApt l <> EmptyString) /\
     (rows = [] -> Dfd.written l = []) /\
     (forall c, last (Dfd.written l) = Some c -> c.1 <> Dfd.lastApt l))).
  { induction rows as [|row rows IH] using rev_ind.
    - cbn. split; [reflexivity|]. intros _.
      split. { intros c Hc. now apply elem_of_nil in Hc. }
      split. { intros i c1 c2 Hc. now rewrite lookup_nil in Hc. }
      split. { intros r Hr. now apply elem_of_nil in Hr. }
      split; [congruence|]. split; [reflexivity|]. discriminate.
    - cbv zeta in IH |- *. rewrite collect_snoc.
      destruct IH as [Hcat IH].
      set (l := fold_left (Dfd.collectStep record) rows (Dfd.mkCollect [] [] EmptyString)) in *.
      unfold Dfd.collectStep.
      destruct (Qt.isEmpty (Dfd.lastApt l)) eqn:Hempty; cbn [negb andb].
      + (* nothing remembered *)
        cbn. split. { now rewrite app_assoc, Hcat. }
        intros Hids.
        destruct IH as (Hw & Hadj & Hcol & Hne & Hnil & Hlast).
        { intros r Hr. apply Hids. apply elem_of_app. now left. }
        assert (Hrows : rows = []).
        { destruct rows as [|r0 rows0]; [reflexivity|].
          destruct Hne as [_ Hne]; [discriminate|].
          apply isEmpty_true in Hempty. contradiction. }
        assert (Hcol0 : Dfd.collected l = []).
        { rewrite Hrows in Hcat. destruct (Dfd.collected l); [reflexivity|].
          destruct (concat _); discriminate. }
        split; [exact Hw|]. split; [exact Hadj|]. split.
        { intros r Hr. rewrite Hcol0 in Hr. apply list_elem_of_singleton in Hr as ->. reflexivity. }
        split.
        { intros _. split; [now destruct (Dfd.collected l)|].
          apply Hids. apply elem_of_app. right. now apply list_elem_of_singleton. }
        split. { intros Habs. now destruct rows. }
        intros c Hc. rewrite (Hnil Hrows) in Hc. discriminate.
      + destruct (String.eqb_spec (Dfd.lastApt l) (valueStr row "airport_identifier"))
          as [Hsame|Hdiff]; cbn [negb].
        * (* the same airport *)
          cbn. split. { now rewrite app_assoc, Hcat. }
          intros Hids.
          destruct IH as (Hw & Hadj & Hcol & Hne & Hnil & Hlast).
          { intros r Hr. apply Hids. apply elem_of_app. now left. }
          split; [exact Hw|]. split; [exact Hadj|]. split.
          { intros r Hr. apply elem_of_app in Hr as [Hr|Hr].
            - rewrite (Hcol r Hr). exact Hsame.
            - apply list_elem_of_singleton in Hr as ->. reflexivity. }
          split.
          { intros _. split; [now destruct (Dfd.collected l)|].
            apply Hids. apply elem_of_app. right. now apply list_elem_of_singleton. }
          split. { intros Habs. now destruct rows. }
          intros c Hc. rewrite <- Hsame. now apply Hlast.
        * (* the airport has changed *)
          cbn. unfold record.
          split.
          { rewrite map_app, concat_app. cbn. rewrite app_nil_r, <- app_assoc.
            cbn. now rewrite app_assoc, Hcat. }
          intros Hids.
          destruct IH as (Hw & Hadj & Hcol & Hne & Hnil & Hlast).
          { intros r Hr. apply Hids. apply elem_of_app. now left. }
          assert (Hrows : rows <> []).
          { intros ->. cbn in Hempty. discriminate. }
          destruct (Hne Hrows) as [Hcne Hlne].
          split.
          { intros c Hc. apply elem_of_app in Hc as [Hc|Hc]; [now apply Hw|].
            apply list_elem_of_singleton in Hc as ->. cbn. now split. }
          split.
          { intros i c1 c2 H1 H2.
            destruct (decide (S i < length (Dfd.written l))%nat) as [Hlt|Hge].
            - rewrite lookup_app_l in H1 by lia. rewrite lookup_app_l in H2 by lia.
              now apply (Hadj i).
            - assert (S i = length (Dfd.written l)) as Hi.
              { apply lookup_lt_Some in H2. rewrite length_app in H2. cbn in H2. lia. }
              rewrite Hi, list_lookup_middle in H2 by reflexivity. injection H2 as <-.
              rewrite lookup_app_l in H1 by lia. cbn.
              apply Hlast. rewrite last_lookup.
              replace (Nat.pred (length (Dfd.written l))) with i by lia. exact H1. }
          split.
          { intros r Hr. apply list_elem_of_singleton in Hr as ->. reflexivity. }
          split.
          { intros _. split; [discriminate|].
            apply Hids. apply elem_of_app. right. now apply list_elem_of_singleton. }
          split. { intros Habs. now destruct rows. }
          intros c Hc. rewrite last_snoc in Hc. injection Hc as <-. exact Hdiff. }
  cbv zeta in Hinv. destruct Hinv as [Hcat Hinv].
  set (l := fold_left (Dfd.collectStep record) rows (Dfd.mkCollect [] [] EmptyString)) in *.
  unfold record.
  split.
  { rewrite map_app, concat_app. cbn. now rewrite app_nil_r. }
  split.
  { intros ->. reflexivity. }
  intros Hids Hrows.
  destruct (Hinv Hids) as (Hw & Hadj & Hcol & Hne & Hnil & Hlast).
  destruct (Hne Hrows) as [Hcne Hlne].
  split.
  - intros c Hc. apply elem_of_app in Hc as [Hc|Hc]; [now apply Hw|].
    apply list_elem_of_singleton in Hc as ->. cbn. now split.
  - intros i c1 c2 H1 H2.
    destruct (decide (S i < length (Dfd.written l))%nat) as [Hlt|Hge].
    + rewrite lookup_app_l in H1 by lia. rewrite lookup_app_l in H2 by lia.
      now apply (Hadj i).
    + assert (S i = length (Dfd.written l)) as Hi.
      { apply lookup_lt_Some in H2. rewrite length_app in H2. cbn in H2. lia. }
      rewrite Hi, list_lookup_middle in H2 by reflexivity. injection H2 as <-.
      rewrite lookup_app_l in H1 by lia. cbn.
      apply Hlast. rewrite last_lookup.
      replace (Nat.pred (length (Dfd.written l))) with i by lia. exact H1.
Qed.

End RunwayGrouping.

Section AirwayChain.
Import AirwaySpec.
Context `{Ops}.

(** One step of the scan, by the three tests it makes. *)
Lemma airwayStep_cases (st : Dfd.AirwayState) (row : SqlRecord) :
  let st' := Dfd.airwayStep st row in
  (Dfd.lastName st <> EmptyString /\ nameOf row = Dfd.lastName st /\
   Dfd.lastEndOfRoute st = false /\
   Dfd.inserted st' = Dfd.inserted st ++ [Dfd.airwaySegment st row] /\
   Dfd.sequenceNumber st' = Dfd.sequenceNumber st + 1 /\
   Dfd.fragmentNumber st' = Dfd.fragmentNumber st) \/
  (Dfd.inserted st' = Dfd.inserted st /\
   ((Dfd.sequenceNumber st' = 1 /\
     (Dfd.fragmentNumber st' = 1 \/ Dfd.fragmentNumber st' = Dfd.fragmentNumber st + 1)) \/
    (Dfd.lastName st = EmptyString /\
     Dfd.sequenceNumber st' = Dfd.sequenceNumber st /\
     Dfd.fragmentNumber st' = Dfd.fragmentNumber st))).
Proof.
  unfold Dfd.airwayStep. fold (nameOf row).
  destruct (Qt.isEmpty (Dfd.lastName st)) eqn:Hempty; cbn [negb andb].
  - apply isEmpty_true in Hempty. right. cbn. auto.
  - assert (Hne : Dfd.lastName st <> EmptyString).
    { intros E. rewrite E in Hempty. discriminate Hempty. }
    destruct (String.eqb_spec (nameOf row) (Dfd.lastName st)) as [Heq|Hneq];
      destruct (Dfd.lastEndOfRoute st) eqn:He; cbn [negb andb]; cbn; rewrite ?He; cbn.
    + right. auto.
    + left. auto 10.
    + right. auto.
    + right. auto.
Qed.

(** What the scan keeps true: the counters are at least 1; the remembered
    name is the name of the remembered row; while the sequence number is
    not 1 the segment inserted last ends at the remembered row and has the
    remembered name, the current fragment number and the sequence number
    before the current one. *)
Lemma airwayLoop_chain (rows : list SqlRecord) :
  let st := Dfd.airwayLoop rows in
  1 <= Dfd.sequenceNumber st /\ 1 <= Dfd.fragmentNumber st /\
  Dfd.lastName st = nameOf (Dfd.lastRec st) /\
  (length (Dfd.inserted st) + 1 <= length rows \/ rows = [] /\ Dfd.inserted st = [])%nat /\
  (Dfd.sequenceNumber st <> 1 ->
   exists l s, Dfd.inserted st = l ++ [s] /\
     Dfd.airway_name s = Dfd.lastName st /\
     Dfd.airway_fragment_no s = Dfd.fragmentNumber st /\
     Dfd.sequence_no s = Dfd.sequenceNumber st - 1 /\
     Dfd.to_waypoint_id s = valueInt (Dfd.lastRec st) "waypoint_id" /\
     Dfd.to_pos s = Pos2 (valueFloat (Dfd.lastRec st) "lonx") (valueFloat (Dfd.lastRec st) "laty")) /\
  (forall s, s ∈ Dfd.inserted st ->
     Dfd.airway_name s <> EmptyString /\ 1 <= Dfd.sequence_no s /\
     1 <= Dfd.airway_fragment_no s) /\
  (forall s, Dfd.inserted st !! 0%nat = Some s -> Dfd.sequence_no s = 1) /\
  (forall i s1 s2, Dfd.inserted st !! i = Some s1 -> Dfd.inserted st !! S i = Some s2 ->
     Dfd.sequence_no s2 <> 1 ->
     Dfd.airway_name s2 = Dfd.airway_name s1 /\
     Dfd.airway_fragment_no s2 = Dfd.airway_fragment_no s1 /\
     Dfd.sequence_no s2 = Dfd.sequence_no s1 + 1 /\
     Dfd.from_waypoint_id s2 = Dfd.to_waypoint_id s1 /\
     Dfd.from_pos s2 = Dfd.to_pos s1).
Proof.
  induction rows as [|row rows IH] using rev_ind.
  - cbn. split; [lia|]. split; [lia|]. split; [reflexivity|]. split; [now right|].
    split; [congruence|]. split.
    { intros s Hs. now apply elem_of_nil in Hs. }
    split; intros; discriminate.
  - cbv zeta in IH |- *.
    pose proof (airwayLoop_unnamedAtOne rows) as Hone.
    rewrite airwayLoop_snoc, length_app. cbn [length].
    set (st := Dfd.airwayLoop rows) in *.
    destruct IH as (Hseq & Hfrag & Hname & Hlen & Hlast & Hvals & Hfirst & Hchain).
    destruct (airwayStep_last st row) as (Hrec' & Hname' & _).
    rewrite Hrec', Hname'.
    destruct (airwayStep_cases st row)
      as [(Hne & Hsame & Heor & Hins & Hs' & Hf')|(Hins & Hcount)];
      cbv zeta in Hins; rewrite Hins.
    + (* a segment is inserted *)
      cbv zeta in Hs', Hf'. rewrite Hs', Hf'.
      set (seg := Dfd.airwaySegment st row) in *.
      assert (Hsegname : Dfd.airway_name seg = Dfd.lastName st).
      { rewrite Hname. reflexivity. }
      split; [lia|]. split; [lia|]. split; [reflexivity|]. split.
      { left. rewrite length_app. cbn.
        destruct Hlen as [Hlen|[Hr _]]; [lia|].
        exfalso. apply Hne. subst st. now rewrite Hr. }
      split.
      { intros _. exists (Dfd.inserted st), seg.
        split; [reflexivity|]. split; [now rewrite Hsegname|].
        split; [reflexivity|]. split; [cbn; lia|]. split; reflexivity. }
      split.
      { intros s Hs. apply elem_of_app in Hs as [Hs|Hs]; [now apply Hvals|].
        apply list_elem_of_singleton in Hs as ->.
        split; [now rewrite Hsegname|]. split; cbn; lia. }
      split.
      { intros s Hs. destruct (Dfd.inserted st) as [|s0 l] eqn:Hl.
        - cbn in Hs. injection Hs as <-. cbn.
          destruct (Z.eq_dec (Dfd.sequenceNumber st) 1) as [E|E]; [exact E|].
          destruct (Hlast E) as (l' & s' & Habs & _). now destruct l'.
        - cbn in Hs. injection Hs as <-. now apply Hfirst. }
      intros i s1 s2 H1 H2 Hnot1.
      destruct (decide (S i < length (Dfd.inserted st))%nat) as [Hlt|Hge].
      * rewrite lookup_app_l in H1 by lia. rewrite lookup_app_l in H2 by lia.
        now apply (Hchain i).
      * assert (S i = length (Dfd.inserted st)) as Hi.
        { apply lookup_lt_Some in H2. rewrite length_app in H2. cbn in H2. lia. }
        rewrite Hi, list_lookup_middle in H2 by reflexivity. injection H2 as <-.
        rewrite lookup_app_l in H1 by lia.
        cbn in Hnot1.
        destruct (Hlast Hnot1) as (l & s & Hl & Hn & Hf & Hs & Hto & Hpos).
        assert (s1 = s) as ->.
        { rewrite Hl in H1, Hi. rewrite length_app in Hi. cbn in Hi.
          replace i with (length l) in H1 by lia.
          rewrite list_lookup_middle in H1 by reflexivity. congruence. }
        rewrite Hn, Hf, Hs, Hto, Hpos, Hsegname. cbn. repeat split. lia.
    + (* no segment is inserted *)
      assert (Hs1 : Dfd.sequenceNumber (Dfd.airwayStep st row) = 1).
      { destruct Hcount as [[E _]|(Hempty & E & _)]; [exact E|].
        cbv zeta in E. rewrite E. now apply Hone. }
      assert (Hf1 : 1 <= Dfd.fragmentNumber (Dfd.airwayStep st row)).
      { destruct Hcount as [[_ [E|E]]|(_ & _ & E)]; cbv zeta in E; rewrite E; lia. }
      split; [lia|]. split; [exact Hf1|]. split; [reflexivity|]. split.
      { destruct Hlen as [Hlen|[-> ->]]; [left; lia|]. left. cbn. lia. }
      split; [congruence|]. auto.
Qed.

(** Type and direction of a segment. *)
Lemma airwaySegment_codes (st : Dfd.AirwayState) (row : SqlRecord) :
  Dfd.airway_type (Dfd.airwaySegment st row) ∈ ["J"; "V"; "B"]%string /\
  Dfd.direction (Dfd.airwaySegment st row) <> EmptyString /\
  Dfd.direction (Dfd.airwaySegment st row) <> " "%string.
Proof.
  unfold Dfd.airwaySegment. cbn. split.
  - destruct (String.eqb _ "H"); [apply list_elem_of_here|].
    destruct (String.eqb _ "L"); [apply list_elem_of_further, list_elem_of_here|].
    apply list_elem_of_further, list_elem_of_further, list_elem_of_here.
  - destruct (Qt.isEmpty _) eqn:Hempty; cbn [orb]; [split; discriminate|].
    destruct (String.eqb_spec (valueStr (Dfd.lastRec st) "direction_restriction") " ")
      as [Hsp|Hsp]; [split; discriminate|].
    split; [|exact Hsp].
    intros E. rewrite E in Hempty. discriminate Hempty.
Qed.

Lemma airwayLoop_codes (rows : list SqlRecord) :
  forall s, s ∈ Dfd.inserted (Dfd.airwayLoop rows) ->
    Dfd.airway_type s ∈ ["J"; "V"; "B"]%string /\
    Dfd.direction s <> EmptyString /\ Dfd.direction s <> " "%string.
Proof.
  induction rows as [|row rows IH] using rev_ind; intros s Hs.
  - now apply elem_of_nil in Hs.
  - rewrite airwayLoop_snoc in Hs.
    destruct (airwayStep_cases (Dfd.airwayLoop rows) row)
      as [(_ & _ & _ & Hins & _)|(Hins & _)]; cbv zeta in Hins; rewrite Hins in Hs.
    + apply elem_of_app in Hs as [Hs|Hs]; [now apply IH|].
      apply list_elem_of_singleton in Hs as ->. apply airwaySegment_codes.
    + now apply IH.
Qed.

(** X11.  [writeAirways] writes fewer segments than there are rows.  Every
    segment has a name that is not empty, one of the types J, V and B, a
    direction that is neither empty nor a space, and a fragment number and
    a sequence number of at least 1. *)
Theorem writeAirways_row_values (rows : list SqlRecord) :
  (rows <> [] -> (length (Dfd.writeAirways rows) + 1 <= length rows)%nat) /\
  forall s, s ∈ Dfd.writeAirways rows ->
    Dfd.airway_name s <> EmptyString /\
    Dfd.airway_type s ∈ ["J"; "V"; "B"]%string /\
    Dfd.direction s <> EmptyString /\ Dfd.direction s <> " "%string /\
    1 <= Dfd.airway_fragment_no s /\ 1 <= Dfd.sequence_no s.
Proof.
  destruct (airwayLoop_chain rows) as (_ & _ & _ & Hlen & _ & Hvals & _).
  split.
  - intros Hne. destruct Hlen as [Hlen|[Hr _]]; [exact Hlen|contradiction].
  - intros s Hs.
    destruct (Hvals s Hs) as (Hn & Hq & Hf).
    destruct (airwayLoop_codes rows s Hs) as (Ht & Hd1 & Hd2).
    auto 10.
Qed.

(** X12.  The segments of [writeAirways] are chained: the first segment has
    the sequence number 1, and a segment whose sequence number is not 1
    continues the segment written before it, with the same airway name and
    fragment number, the next sequence number, and the waypoint and the
    position where the segment before it ends as its start. *)
Theorem writeAirways_segments_connect (rows : list SqlRecord) :
  (forall s, Dfd.writeAirways rows !! 0%nat = Some s -> Dfd.sequence_no s = 1) /\
  (forall i s1 s2,
     Dfd.writeAirways rows !! i = Some s1 -> Dfd.writeAirways rows !! S i = Some s2 ->
     Dfd.sequence_no s2 <> 1 ->
     Dfd.airway_name s2 = Dfd.airway_name s1 /\
     Dfd.airway_fragment_no s2 = Dfd.airway_fragment_no s1 /\
     Dfd.sequence_no s2 = Dfd.sequence_no s1 + 1 /\
     Dfd.from_waypoint_id s2 = Dfd.to_waypoint_id s1 /\
     Dfd.from_pos s2 = Dfd.to_pos s1).
Proof.
  destruct (airwayLoop_chain rows) as (_ & _ & _ & _ & _ & _ & Hfirst & Hchain).
  split; assumption.
Qed.

End AirwayChain.

Section PassesAgain.
Import UpdateSpec.
Context `{Ops}.

(** One table of the magnetic variation pass: every row gets the value of
    the model; a table that does not exist is not made. *)
Lemma magvar_table (db : Dfd.Tables) (table idColumn : string) :
  idColumn <> "mag_var"%string ->
  (forall rows, db !! table = Some rows -> NoDup (Dfd.rowIds idColumn rows)) ->
  let db' := Dfd.updateColumnInTable db table idColumn ["lonx"; "laty"]%string
               ["mag_var"%string] Dfd.magvarFunc in
  db' !! table = map withModelMagvar <$> db !! table /\
  forall t, t <> table -> db' !! t = db !! t.
Proof.
  intros Hid Hnd db'. split; [|intros t Ht; now apply updateColumnInTable_other].
  destruct (db !! table) as [rows|] eqn:Hdb.
  - destruct (updateColumnInTable_rows table idColumn ["lonx"; "laty"]%string
                ["mag_var"%string] Dfd.magvarFunc
                ltac:(intros Hin; apply list_elem_of_singleton in Hin; contradiction)
                db rows Hdb (Hnd rows eq_refl)) as [Hrows _].
    subst db'. rewrite Hrows. cbn. f_equal. apply map_ext. intros r.
    unfold Dfd.rowUpdate, Dfd.magvarFunc, withModelMagvar, rowPosition, Dfd.applyBinds.
    cbn [fold_left Dfd.bound String.eqb Ascii.eqb Bool.eqb].
    unfold valueFloat, Dfd.selectColumns. cbn [map value].
    rewrite !String.eqb_refl.
    destruct (String.eqb_spec idColumn "lonx") as [E1|E1];
      destruct (String.eqb_spec idColumn "laty") as [E2|E2];
      try (exfalso; congruence); try rewrite E1; try rewrite E2; reflexivity.
  - subst db'. unfold Dfd.updateColumnInTable, Dfd.Tables in *. now rewrite Hdb.
Qed.

Lemma withModelMagvar_again (r : SqlRecord) :
  withModelMagvar (withModelMagvar r) = withModelMagvar r.
Proof.
  unfold withModelMagvar at 1. unfold rowPosition, valueFloat.
  assert (Hlon : value (withModelMagvar r) "lonx" = value r "lonx").
  { unfold withModelMagvar. now rewrite value_setValue. }
  assert (Hlat : value (withModelMagvar r) "laty" = value r "laty").
  { unfold withModelMagvar. now rewrite value_setValue. }
  rewrite Hlon, Hlat. clear Hlon Hlat.
  unfold withModelMagvar, rowPosition, valueFloat.
  generalize (VFloat (getMagVar (Pos2 (toFloat (value r "lonx")) (toFloat (value r "laty"))))).
  intros v. induction r as [|[k w] r IH]; [reflexivity|].
  cbn. destruct (String.eqb_spec k "mag_var") as [->|Hne]; cbn.
  - reflexivity.
  - destruct (String.eqb_spec k "mag_var"); [contradiction|]. now rewrite IH.
Qed.

Lemma withModelMagvar_ids (idColumn : string) (rows : list SqlRecord) :
  idColumn <> "mag_var"%string ->
  Dfd.rowIds idColumn (map withModelMagvar rows) = Dfd.rowIds idColumn rows.
Proof.
  intros Hid. unfold Dfd.rowIds. rewrite map_map. apply map_ext. intros r.
  unfold withModelMagvar. rewrite value_setValue.
  destruct (String.eqb_spec "mag_var" idColumn); [congruence|reflexivity].
Qed.

(** The tables after the pass. *)
Lemma updateMagvar_tables (db : Dfd.Tables) :
  (forall rows, db !! "waypoint"%string = Some rows -> NoDup (Dfd.rowIds "waypoint_id" rows)) ->
  (forall rows, db !! "ndb"%string = Some rows -> NoDup (Dfd.rowIds "ndb_id" rows)) ->
  forall t,
    Dfd.updateMagvar db !! t =
    if bool_decide (t ∈ ["waypoint"; "ndb"]%string)
    then map withModelMagvar <$> db !! t else db !! t.
Proof.
  intros Hw Hn t. unfold Dfd.updateMagvar.
  destruct (magvar_table db "waypoint" "waypoint_id" ltac:(discriminate) Hw) as [Hw1 Hw2].
  cbv zeta in Hw1, Hw2.
  set (db1 := Dfd.updateColumnInTable db "waypoint" "waypoint_id" _ _ _) in *.
  destruct (magvar_table db1 "ndb" "ndb_id" ltac:(discriminate)) as [Hn1 Hn2].
  { intros rows Hrows. rewrite Hw2 in Hrows by discriminate. now apply Hn. }
  cbv zeta in Hn1, Hn2.
  destruct (String.eqb_spec t "ndb") as [->|Hndb].
  { rewrite Hn1, Hw2 by discriminate. reflexivity. }
  rewrite Hn2 by assumption.
  destruct (String.eqb_spec t "waypoint") as [->|Hwp].
  { rewrite Hw1. reflexivity. }
  rewrite Hw2 by assumption.
  rewrite bool_decide_eq_false_2; [reflexivity|].
  rewrite !elem_of_cons, elem_of_nil. tauto.
Qed.

(** X13.  With ids that are unique within the tables waypoint and ndb, a
    second run of [updateMagvar] changes nothing.  The pass leaves every
    other table as it is and creates no table. *)
Theorem updateMagvar_twice (db : Dfd.Tables) :
  (forall rows, db !! "waypoint"%string = Some rows -> NoDup (Dfd.rowIds "waypoint_id" rows)) ->
  (forall rows, db !! "ndb"%string = Some rows -> NoDup (Dfd.rowIds "ndb_id" rows)) ->
  Dfd.updateMagvar (Dfd.updateMagvar db) = Dfd.updateMagvar db /\
  (forall t, t ∉ ["waypoint"; "ndb"]%string -> Dfd.updateMagvar db !! t = db !! t) /\
  (forall t, db !! t = None -> Dfd.updateMagvar db !! t = None).
Proof.
  intros Hw Hn.
  pose proof (updateMagvar_tables db Hw Hn) as Hone.
  assert (Hw' : forall rows, Dfd.updateMagvar db !! "waypoint"%string = Some rows ->
                 NoDup (Dfd.rowIds "waypoint_id" rows)).
  { intros rows Hrows. rewrite Hone in Hrows. cbn in Hrows.
    destruct (db !! "waypoint"%string) as [rows0|] eqn:Hdb; [|discriminate].
    injection Hrows as <-. rewrite withModelMagvar_ids by discriminate. now apply Hw. }
  assert (Hn' : forall rows, Dfd.updateMagvar db !! "ndb"%string = Some rows ->
                 NoDup (Dfd.rowIds "ndb_id" rows)).
  { intros rows Hrows. rewrite Hone in Hrows. cbn in Hrows.
    destruct (db !! "ndb"%string) as [rows0|] eqn:Hdb; [|discriminate].
    injection Hrows as <-. rewrite withModelMagvar_ids by discriminate. now apply Hn. }
  pose proof (updateMagvar_tables (Dfd.updateMagvar db) Hw' Hn') as Htwo.
  split; [|split].
  - unfold Dfd.Tables in *. apply map_eq. intros t.
    rewrite (Htwo t), !(Hone t). destruct (bool_decide _); [|reflexivity].
    destruct (db !! t) as [rows|]; [|reflexivity]. cbn. f_equal.
    rewrite map_map. apply map_ext. intros r. apply withModelMagvar_again.
  - intros t Ht. rewrite Hone. now rewrite bool_decide_eq_false_2.
  - intros t Ht. rewrite Hone, Ht. now destruct (bool_decide _).
Qed.

End PassesAgain.

Section TacanPass.
Context `{Ops}.
Variable channel : Z -> QVariant.

(** X14.  [updateTacanChannel] keeps the number and the order of the rows of
    the table vor, whose ids are unique, and touches no other table.  A row
    of the type TC, or of a type that starts with VT, gets as channel what
    the conversion gives for a tenth of its frequency (the quotient of the
    integer division), and keeps every other column; a row of another type
    is left as it is. *)
Theorem updateTacanChannel_by_type (db : Dfd.Tables) (rows : list SqlRecord) :
  db !! "vor"%string = Some rows ->
  NoDup (Dfd.rowIds "vor_id" rows) ->
  exists rows',
    Dfd.updateTacanChannel channel db !! "vor"%string = Some rows' /\
    length rows' = length rows /\
    (forall t, t <> "vor"%string -> Dfd.updateTacanChannel channel db !! t = db !! t) /\
    forall (i : nat) r, rows !! i = Some r ->
      exists r', rows' !! i = Some r' /\
        if String.eqb (valueStr r "type") "TC" || Qt.startsWith (valueStr r "type") "VT"
        then (hasField r "channel" = true ->
              value r' "channel" = channel (Z.quot (valueInt r "frequency") 10)) /\
             (forall name, name <> "channel"%string -> value r' name = value r name)
        else r' = r.
Proof.
  intros Hdb Hnd.
  destruct (updateColumnInTable_rows "vor" "vor_id" ["frequency"; "type"]%string
              ["channel"%string] (Dfd.tacanFunc channel)
              ltac:(intros Hin; apply list_elem_of_singleton in Hin; discriminate Hin)
              db rows Hdb Hnd) as [Hrows Hother].
  eexists. split; [exact Hrows|]. split; [apply length_map|]. split; [exact Hother|].
  intros i r Hi. eexists. split.
  { rewrite list_lookup_fmap, Hi. reflexivity. }
  unfold Dfd.rowUpdate, Dfd.tacanFunc.
  change (valueStr (Dfd.selectColumns "vor_id" ["frequency"; "type"]%string r) "type")
    with (valueStr r "type").
  change (valueInt (Dfd.selectColumns "vor_id" ["frequency"; "type"]%string r) "frequency")
    with (valueInt r "frequency").
  destruct (String.eqb (valueStr r "type") "TC" || Qt.startsWith (valueStr r "type") "VT");
    [|reflexivity].
  split.
  - intros Hf. rewrite value_applyBinds_in; [reflexivity| |exact Hf].
    now apply list_elem_of_singleton.
  - intros name Hname. apply value_applyBinds_other.
    intros Hin. apply list_elem_of_singleton in Hin. contradiction.
Qed.

End TacanPass.

Section PassRuns.
Import Planar UpdateSpec.

(** The theorem at a waypoint table of one row. *)
Lemma updateMagvar_twice_witness :
  Dfd.updateMagvar
    (Dfd.updateMagvar {[ "waypoint"%string := [navRow "waypoint_id" 1 10 20] ]}) =
  Dfd.updateMagvar {[ "waypoint"%string := [navRow "waypoint_id" 1 10 20] ]}.
Proof.
  apply (updateMagvar_twice {[ "waypoint"%string := [navRow "waypoint_id" 1 10 20] ]}).
  - intros rows Hrows.
    change (Some [navRow "waypoint_id" 1 10 20] = Some rows) in Hrows.
    injection Hrows as <-. cbn. apply NoDup_singleton.
  - intros rows Hrows. change (@None (list SqlRecord) = Some rows) in Hrows.
    discriminate Hrows.
Defined.

(** The theorem at a TACAN of the frequency 11370, with a conversion that
    gives the number it is given: the channel is set from 1137. *)
Lemma updateTacanChannel_by_type_witness :
  exists rows',
    Dfd.updateTacanChannel (fun f => VInt f) {[ "vor"%string := [tacanRow] ]} !! "vor"%string =
      Some rows' /\
    exists r', rows' !! 0%nat = Some r' /\ value r' "channel" = VInt 1137.
Proof.
  destruct (updateTacanChannel_by_type (fun f => VInt f) {[ "vor"%string := [tacanRow] ]}
              [tacanRow]) as (rows' & Hres & _ & _ & Hall).
  - reflexivity.
  - cbn. apply NoDup_singleton.
  - exists rows'. split; [exact Hres|].
    destruct (Hall 0%nat tacanRow eq_refl) as (r' & Hr' & Hif).
    exists r'. split; [exact Hr'|].
    exact (proj1 Hif eq_refl).
Defined.

End PassRuns.

Section ProcedureTrace.
Import ProcedureCalls.
Context `{Ops}.
Variable strToChar : string -> ascii.
Variable index : gmap string Z.
Variable initial : Dfd.ProcedureInput.
Variable code : string.

Let step := Dfd.procedureStep strToChar index.
Let input := inputFor strToChar index initial code.
Let after := callsAfter strToChar index initial code.

(** What is filled in depends on the row, and on the row code and the
    airport of the input alone. *)
Lemma fillProcedureInput_row (p p' : Dfd.ProcedureInput) (row : SqlRecord) :
  Dfd.rowCode p = Dfd.rowCode p' -> Dfd.airportIdent p = Dfd.airportIdent p' ->
  Dfd.airportId p = Dfd.airportId p' ->
  Dfd.fillProcedureInput strToChar p row = Dfd.fillProcedureInput strToChar p' row.
Proof. intros E1 E2 E3. unfold Dfd.fillProcedureInput. now rewrite E1, E2, E3. Qed.

Lemma procedureStep_input (s : Dfd.ProcState) (row : SqlRecord) :
  Dfd.rowCode (Dfd.procInput s) = code ->
  Dfd.procInput (step s row) = input row /\ Dfd.curAirport (step s row) = identOf row.
Proof.
  intros Hcode. unfold step, Dfd.procedureStep, input, inputFor.
  cbn [Dfd.procInput Dfd.curAirport]. split.
  - apply fillProcedureInput_row; cbn; [exact Hcode|reflexivity|].
    unfold identOf. now destruct (index !! valueStr row "airport_identifier").
  - reflexivity.
Qed.

Lemma input_code (row : SqlRecord) : Dfd.rowCode (input row) = code.
Proof. reflexivity. Qed.

Lemma procedureFold_calls (rows : list SqlRecord) (s : Dfd.ProcState) (prev : SqlRecord) :
  Dfd.procInput s = input prev -> Dfd.curAirport s = identOf prev ->
  let s' := fold_left step rows s in
  Dfd.calls s' ++ [Dfd.CallFinish (Dfd.procInput s'); Dfd.CallReset] =
  Dfd.calls s ++ after prev rows.
Proof.
  revert s prev. induction rows as [|row rows IH]; intros s prev Hp Hc.
  - cbn. now rewrite Hp.
  - cbn [fold_left]. cbv zeta in IH |- *.
    destruct (procedureStep_input s row) as [Hp' Hc'].
    { rewrite Hp. apply input_code. }
    rewrite (IH (step s row) row Hp' Hc').
    unfold after. cbn [callsAfter]. fold after. fold input.
    unfold step at 1, Dfd.procedureStep. cbn [Dfd.calls].
    fold step. rewrite Hc, Hp.
    replace (Dfd.fillProcedureInput _ _ row) with (input row).
    2:{ symmetry. unfold input, inputFor. apply fillProcedureInput_row; cbn;
          [reflexivity|reflexivity|].
        unfold identOf. now destruct (index !! valueStr row "airport_identifier"). }
    unfold airportChanged. fold (identOf row).
    destruct (negb _ && negb _); cbn; now rewrite <- !app_assoc.
Qed.

Lemma writes_after (prev : SqlRecord) (rows : list SqlRecord) :
  writes (after prev rows) = map input rows.
Proof.
  revert prev. induction rows as [|row rows IH]; intros prev; [reflexivity|].
  unfold after. cbn [callsAfter]. fold after. fold input.
  unfold writes in *.
  destruct (airportChanged prev row); cbn; now rewrite IH.
Qed.

(** X15.  The calls of [writeProcedure] on the procedure writer, row by row:
    every row is written, with the input filled from the row; before a row
    of another airport than the row before it, and at the end, the
    procedure is finished with the input of the last row and the writer is
    reset (without rows, it is finished with the input that has the row
    code only).  The input of a row has the row code, the airport of the
    row with its id from the airport index (0 when the index does not have
    it), and the sequence number and the identifiers of the row. *)
Theorem writeProcedure_calls_row_by_row (rows : list SqlRecord) :
  Dfd.writeProcedure strToChar index initial code rows =
    callsFor strToChar index initial code rows /\
  writes (Dfd.writeProcedure strToChar index initial code rows) =
    map (inputFor strToChar index initial code) rows /\
  forall row,
    let p := inputFor strToChar index initial code row in
    Dfd.rowCode p = code /\ Dfd.airportIdent p = identOf row /\
    Dfd.airportId p = default 0 (index !! identOf row) /\
    Dfd.seqNr p = valueInt row "seqno" /\
    Dfd.sidStarAppIdent p = valueStr row "procedure_identifier" /\
    Dfd.transIdent p = valueStr row "transition_identifier" /\
    Dfd.fixIdent p = valueStr row "waypoint_identifier".
Proof.
  assert (Hcalls : Dfd.writeProcedure strToChar index initial code rows =
                   callsFor strToChar index initial code rows).
  { destruct rows as [|row rows]; [reflexivity|].
    unfold Dfd.writeProcedure. cbn [fold_left callsFor].
    fold step.
    set (s0 := Dfd.mkProcState _ EmptyString []).
    destruct (procedureStep_input s0 row) as [Hp Hc]; [reflexivity|].
    pose proof (procedureFold_calls rows (step s0 row) row Hp Hc) as Hfold.
    cbv zeta in Hfold. rewrite Hfold.
    unfold step at 1, Dfd.procedureStep. cbn [Dfd.calls Dfd.curAirport s0].
    cbn [Qt.isEmpty negb andb app]. fold step. fold after.
    do 2 f_equal. fold s0. exact Hp. }
  split; [exact Hcalls|]. split.
  - rewrite Hcalls. destruct rows as [|row rows]; [reflexivity|].
    cbn [callsFor]. fold after. fold input.
    change (writes (Dfd.CallWrite (input row) :: after row rows))
      with (input row :: writes (after row rows)).
    now rewrite writes_after.
  - intros row. cbn. repeat split.
Qed.

(** X16.  [fillProcedureInput] takes the column
    route_distance_holding_distance_time as a time when the path
    termination starts with H, and as a distance otherwise; the other one
    of the two fields is 0.  It leaves the row code, the airport identifier
    and the airport id of the input as they are. *)
Theorem fillProcedureInput_hold_time_or_distance (p : Dfd.ProcedureInput) (row : SqlRecord) :
  let q := Dfd.fillProcedureInput strToChar p row in
  let hold := valueFloat row "route_distance_holding_distance_time" in
  Dfd.pathTerm q = valueStr row "path_termination" /\
  (Qt.startsWith (Dfd.pathTerm q) "H" = true ->
   Dfd.rteHoldTime q = hold /\ Dfd.rteHoldDist q = ofZ 0) /\
  (Qt.startsWith (Dfd.pathTerm q) "H" = false ->
   Dfd.rteHoldDist q = hold /\ Dfd.rteHoldTime q = ofZ 0) /\
  (Dfd.rteHoldTime q = ofZ 0 \/ Dfd.rteHoldDist q = ofZ 0) /\
  Dfd.rowCode q = Dfd.rowCode p /\ Dfd.airportIdent q = Dfd.airportIdent p /\
  Dfd.airportId q = Dfd.airportId p.
Proof.
  unfold Dfd.fillProcedureInput.
  cbn [Dfd.pathTerm Dfd.rteHoldTime Dfd.rteHoldDist Dfd.rowCode Dfd.airportIdent Dfd.airportId].
  destruct (Qt.startsWith (valueStr row "path_termination") "H").
  - split; [reflexivity|]. split; [intros _; now split|].
    split; [intros E; discriminate E|]. split; [now right|]. now split.
  - split; [reflexivity|]. split; [intros E; discriminate E|].
    split; [intros _; now split|]. split; [now left|]. now split.
Qed.

End ProcedureTrace.

Section HeaderBytes.
Import Bgl.
Context `{Format}.

Lemma byteAt_inside (s : Stream) (pos b : Z) :
  byteAt s pos = Some b -> 0 <= pos < Z.of_nat (length (bytes s)).
Proof.
  unfold byteAt. destruct (Z.ltb_spec pos 0); [discriminate|].
  destruct (bytes s !! Z.to_nat pos) as [x|] eqn:Hx; [|discriminate].
  intros _. apply lookup_lt_Some in Hx. lia.
Qed.

(** A read that fails stops at the end of the stream. *)
Lemma bind_inl {A B} (m : Reader A) (k : A -> Reader B) :
  (forall s e, m s = inl e -> e = EndOfStream) ->
  (forall a s e, k a s = inl e -> e = EndOfStream) ->
  forall s e, bind m k s = inl e -> e = EndOfStream.
Proof.
  intros Hm Hk s e. unfold bind.
  destruct (m s) as [e'|[a s1]] eqn:Hms.
  - intros [= <-]. now apply (Hm s).
  - apply Hk.
Qed.

Lemma readUByte_inl (s : Stream) (e : Error) : readUByte s = inl e -> e = EndOfStream.
Proof. unfold readUByte. destruct (byteAt s (tellg s)); congruence. Qed.

Lemma ret_inl {A} (a : A) (s : Stream) (e : Error) : ret a s = inl e -> e = EndOfStream.
Proof. discriminate. Qed.

Lemma readUShort_inl (s : Stream) (e : Error) : readUShort s = inl e -> e = EndOfStream.
Proof.
  unfold readUShort. revert s e.
  repeat (apply bind_inl; [exact readUByte_inl|intros ?]). apply ret_inl.
Qed.

Lemma readUInt_inl (s : Stream) (e : Error) : readUInt s = inl e -> e = EndOfStream.
Proof.
  unfold readUInt. revert s e.
  repeat (apply bind_inl; [exact readUByte_inl|intros ?]). apply ret_inl.
Qed.

Lemma readByte_inl (s : Stream) (e : Error) : readByte s = inl e -> e = EndOfStream.
Proof.
  unfold readByte. revert s e.
  apply bind_inl; [exact readUByte_inl|intros ?]. apply ret_inl.
Qed.

Lemma readRecord_inl (s : Stream) (e : Error) : readRecord s = inl e -> e = EndOfStream.
Proof.
  unfold readRecord. revert s e.
  apply bind_inl; [discriminate|intros ?].
  apply bind_inl; [exact readUShort_inl|intros ?].
  apply bind_inl; [exact readUInt_inl|intros ?]. apply ret_inl.
Qed.

Lemma readHeader_inl (airportRecType : Z) (s : Stream) (e : Error) :
  readHeader airportRecType s = inl e -> e = EndOfStream.
Proof.
  unfold readHeader, readFloat. revert s e.
  apply bind_inl; [exact readRecord_inl|intros ?].
  apply bind_inl; [exact readByte_inl|intros ?].
  do 5 (apply bind_inl; [exact readUByte_inl|intros ?]).
  do 5 (apply bind_inl; [exact readUInt_inl|intros ?]).
  apply bind_inl; [|intros ?; apply ret_inl].
  destruct (airportRecType =? MSFS_APPROACH_NEW); discriminate.
Qed.

(** The reads of the header, in terms of the stream before them. *)
Lemma readUShort_advance_inv (s : Stream) (n w : Z) (s1 : Stream) :
  readUShort (advance s n) = inr (w, s1) ->
  ushortAt s (tellg s + n) = Some w /\ s1 = advance s (n + 2).
Proof.
  intros Hr. apply readUShort_inv in Hr as [Hw ->].
  split; [exact Hw | apply advance_advance].
Qed.

Lemma readUInt_advance_inv (s : Stream) (n w : Z) (s1 : Stream) :
  readUInt (advance s n) = inr (w, s1) ->
  uintAt s (tellg s + n) = Some w /\ s1 = advance s (n + 4).
Proof.
  intros Hr. apply readUInt_inv in Hr as [Hw ->].
  split; [exact Hw | apply advance_advance].
Qed.

Lemma readByte_advance_inv (s : Stream) (n b : Z) (s1 : Stream) :
  readByte (advance s n) = inr (b, s1) -> s1 = advance s (n + 1).
Proof.
  unfold readByte. intros Hr.
  apply bind_inr in Hr as (b0 & t0 & H0 & Hr). apply readUByte_advance_inv in H0 as [_ ->].
  now injection Hr as _ <-.
Qed.

(** A header that is read takes its 32 bytes from the stream. *)
Lemma readHeader_inv (airportRecType : Z) (s s' : Stream) (a : Approach) :
  readHeader airportRecType s = inr (a, s') ->
  available s 32 /\
  s' = advance s (if airportRecType =? MSFS_APPROACH_NEW then 36 else 32) /\
  startOffset (rec a) = tellg s /\
  ushortAt s (tellg s) = Some (id (rec a)) /\
  uintAt s (tellg s + 2) = Some (size (rec a)) /\
  legs a = [] /\ missedLegs a = [] /\ transitions a = [].
Proof.
  unfold readHeader, readRecord, readFloat. intros Hr.
  rewrite <- (advance_zero s) in Hr.
  apply bind_inr in Hr as (r & t & Hrec & Hr).
  apply bind_inr in Hrec as (start & t0 & H0 & Hrec). injection H0 as <- <-.
  apply bind_inr in Hrec as (i & t1 & H1 & Hrec). apply readUShort_advance_inv in H1 as [Hid ->].
  apply bind_inr in Hrec as (n & t2 & H2 & Hrec). apply readUInt_advance_inv in H2 as [Hsize ->].
  injection Hrec as <- <-.
  apply bind_inr in Hr as (sfx & t3 & H3 & Hr). apply readByte_advance_inv in H3 as ->.
  apply bind_inr in Hr as (rn & t4 & H4 & Hr). apply readUByte_advance_inv in H4 as [_ ->].
  apply bind_inr in Hr as (fl & t5 & H5 & Hr). apply readUByte_advance_inv in H5 as [_ ->].
  apply bind_inr in Hr as (nt & t6 & H6 & Hr). apply readUByte_advance_inv in H6 as [_ ->].
  apply bind_inr in Hr as (nl & t7 & H7 & Hr). apply readUByte_advance_inv in H7 as [_ ->].
  apply bind_inr in Hr as (nm & t8 & H8 & Hr). apply readUByte_advance_inv in H8 as [_ ->].
  apply bind_inr in Hr as (ff & t9 & H9 & Hr). apply readUInt_advance_inv in H9 as [_ ->].
  apply bind_inr in Hr as (fi & t10 & H10 & Hr). apply readUInt_advance_inv in H10 as [_ ->].
  apply bind_inr in Hr as (al & t11 & H11 & Hr). apply readUInt_advance_inv in H11 as [_ ->].
  apply bind_inr in Hr as (hd & t12 & H12 & Hr). apply readUInt_advance_inv in H12 as [_ ->].
  apply bind_inr in Hr as (ma & t13 & H13 & Hr). apply readUInt_advance_inv in H13 as [Hlast ->].
  apply bind_inr in Hr as (u & t14 & H14 & Hr).
  injection Hr as <- <-.
  change (0 + 2 + 4 + 1 + 1 + 1 + 1 + 1 + 1 + 4 + 4 + 4 + 4) with 28 in *.
  change (28 + 4) with 32 in H14. change (0 + 2) with 2 in Hsize.
  rewrite Z.add_0_r in Hid.
  assert (Ha : available s 32).
  { unfold ushortAt in Hid. unfold uintAt in Hlast.
    destruct (byteAt s (tellg s)) as [b0|] eqn:Hb0; [|discriminate].
    destruct (byteAt s (tellg s + 28)); [|discriminate].
    destruct (byteAt s (tellg s + 28 + 1)); [|discriminate].
    destruct (byteAt s (tellg s + 28 + 2)); [|discriminate].
    destruct (byteAt s (tellg s + 28 + 3)) as [b31|] eqn:Hb31; [|discriminate].
    apply byteAt_inside in Hb0, Hb31. unfold available. lia. }
  split; [exact Ha|]. split.
  { destruct (airportRecType =? MSFS_APPROACH_NEW); injection H14 as _ <-;
      [unfold skip, advance; cbn; f_equal; lia | reflexivity]. }
  cbn. rewrite Z.add_0_r. auto 10.
Qed.

(** With 32 bytes left the header is read. *)
Lemma readHeader_runs (airportRecType : Z) (s : Stream) :
  available s 32 -> exists a s', readHeader airportRecType s = inr (a, s').
Proof.
  intros Ha.
  destruct (readUShort_at s 32 0 2 Ha ltac:(lia) eq_refl ltac:(lia)) as (rid & Hrid).
  destruct (readUInt_at s 32 2 6 Ha ltac:(lia) eq_refl ltac:(lia)) as (rsize & _ & Hrsize).
  destruct (readByte_at s 32 6 7 Ha ltac:(lia) eq_refl ltac:(lia)) as (sfx & Hsfx).
  destruct (readUByte_at s 32 7 8 Ha ltac:(lia) eq_refl ltac:(lia)) as (rn & _ & Hrn).
  destruct (readUByte_at s 32 8 9 Ha ltac:(lia) eq_refl ltac:(lia)) as (flags & _ & Hflags).
  destruct (readUByte_at s 32 9 10 Ha ltac:(lia) eq_refl ltac:(lia)) as (nt & _ & Hnt).
  destruct (readUByte_at s 32 10 11 Ha ltac:(lia) eq_refl ltac:(lia)) as (nl & _ & Hnl).
  destruct (readUByte_at s 32 11 12 Ha ltac:(lia) eq_refl ltac:(lia)) as (nm & _ & Hnm).
  destruct (readUInt_at s 32 12 16 Ha ltac:(lia) eq_refl ltac:(lia)) as (fixFlags & _ & Hfix).
  destruct (readUInt_at s 32 16 20 Ha ltac:(lia) eq_refl ltac:(lia)) as (fif & _ & Hfif).
  destruct (readUInt_at s 32 20 24 Ha ltac:(lia) eq_refl ltac:(lia)) as (alt & _ & Halt).
  destruct (readUInt_at s 32 24 28 Ha ltac:(lia) eq_refl ltac:(lia)) as (hdg & _ & Hhdg).
  destruct (readUInt_at s 32 28 32 Ha ltac:(lia) eq_refl ltac:(lia)) as (malt & _ & Hmalt).
  replace (readHeader airportRecType s) with (readHeader airportRecType (advance s 0))
    by now rewrite advance_zero.
  unfold readHeader, readRecord, readFloat, tell, bind, ret.
  cbv beta iota. rewrite Hrid. cbv beta iota. rewrite Hrsize. cbv beta iota.
  rewrite Hsfx. cbv beta iota. rewrite Hrn. cbv beta iota. rewrite Hflags. cbv beta iota.
  rewrite Hnt. cbv beta iota. rewrite Hnl. cbv beta iota. rewrite Hnm. cbv beta iota.
  rewrite Hfix. cbv beta iota. rewrite Hfif. cbv beta iota. rewrite Halt. cbv beta iota.
  rewrite Hhdg. cbv beta iota. rewrite Hmalt. cbv beta iota.
  destruct (airportRecType =? MSFS_APPROACH_NEW); cbn; eexists _, _; reflexivity.
Qed.

(** X17.  The header of an approach record is read exactly when 32 bytes are
    left in the stream.  A header that is read starts at the position of
    the stream and leaves the stream 32 bytes further, or 36 for the record
    type MSFS_APPROACH_NEW; the approach has no legs, missed legs or
    transitions yet.  With fewer than 32 bytes left, [readHeader] and
    [readApproach], whatever its options, fail with the end of the
    stream. *)
Theorem readHeader_needs_its_32_bytes (airportRecType : Z) (s : Stream) :
  (available s 32 <-> exists a s', readHeader airportRecType s = inr (a, s')) /\
  (forall a s', readHeader airportRecType s = inr (a, s') ->
     s' = advance s (if airportRecType =? MSFS_APPROACH_NEW then 36 else 32) /\
     startOffset (rec a) = tellg s /\
     legs a = [] /\ missedLegs a = [] /\ transitions a = []) /\
  (~ available s 32 ->
     readHeader airportRecType s = inl EndOfStream /\
     forall fuel options, readApproach fuel options airportRecType s = inl EndOfStream).
Proof.
  split; [|split].
  - split; [apply readHeader_runs|].
    intros (a & s' & Hr). now apply (readHeader_inv _ _ _ _ Hr).
  - intros a s' Hr.
    destruct (readHeader_inv _ _ _ _ Hr) as (_ & Hs & Hstart & _ & _ & Hl & Hm & Ht).
    auto 10.
  - intros Hna.
    assert (Hfail : readHeader airportRecType s = inl EndOfStream).
    { destruct (readHeader airportRecType s) as [e|[a s']] eqn:Hr.
      - now rewrite (readHeader_inl _ _ _ Hr).
      - exfalso. apply Hna. now apply (readHeader_inv _ _ _ _ Hr). }
    split; [exact Hfail|].
    intros fuel options. unfold readApproach, bind. now rewrite Hfail.
Qed.

End HeaderBytes.

Section SubrecordLoop.
Import Bgl.
Context `{Format}.

Lemma readLegs_extends (num : nat) (recType : Z) (acc l : list ApproachLeg) (s s' : Stream) :
  readLegs num recType acc s = inr (l, s') -> exists more, l = acc ++ more.
Proof.
  revert acc s. induction num as [|num IH]; intros acc s Hr.
  - injection Hr as <- <-. exists []. now rewrite app_nil_r.
  - cbn [readLegs] in Hr. apply bind_inr in Hr as (leg & s1 & _ & Hr).
    apply IH in Hr as [more ->]. exists (leg :: more). now rewrite <- app_assoc.
Qed.

(** The approach with its three lists replaced; the header stays. *)
Lemma withLists_same (a : Approach) :
  a = withTransitions (withMissedLegs (withLegs a (legs a)) (missedLegs a)) (transitions a).
Proof. now destruct a. Qed.

Lemma readSubRecord_extends (options : Options) (a a' : Approach) (r : Rec) (s s' : Stream) :
  readSubRecord options a r s = inr (a', s') ->
  a' = withTransitions (withMissedLegs (withLegs a (legs a')) (missedLegs a')) (transitions a') /\
  (exists more, legs a' = legs a ++ more) /\
  (exists more, missedLegs a' = missedLegs a ++ more) /\
  (exists more, transitions a' = transitions a ++ more) /\
  (includeApproachLegs options = false ->
   legs a' = legs a /\ missedLegs a' = missedLegs a).
Proof.
  assert (Hsame : a = withTransitions (withMissedLegs (withLegs a (legs a)) (missedLegs a))
                        (transitions a) /\
                  (exists more, legs a = legs a ++ more) /\
                  (exists more, missedLegs a = missedLegs a ++ more) /\
                  (exists more, transitions a = transitions a ++ more) /\
                  (includeApproachLegs options = false ->
                   legs a = legs a /\ missedLegs a = missedLegs a)).
  { split; [apply withLists_same|].
    repeat (split; [exists []; now rewrite app_nil_r|]). auto. }
  unfold readSubRecord.
  destruct (subRecordKind (id r)).
  - destruct (includeApproachLegs options) eqn:Hinc.
    + intros Hr.
      apply bind_inr in Hr as (num & s1 & _ & Hr).
      apply bind_inr in Hr as (l & s2 & Hl & Hr).
      injection Hr as <- <-. apply readLegs_extends in Hl as [more ->].
      split; [now destruct a|].
      split; [now exists more|].
      split; [exists []; now rewrite app_nil_r|].
      split; [exists []; now rewrite app_nil_r|]. discriminate.
    + intros [= <- <-]. exact Hsame.
  - destruct (includeApproachLegs options) eqn:Hinc.
    + intros Hr.
      apply bind_inr in Hr as (num & s1 & _ & Hr).
      apply bind_inr in Hr as (l & s2 & Hl & Hr).
      injection Hr as <- <-. apply readLegs_extends in Hl as [more ->].
      split; [now destruct a|].
      split; [exists []; now rewrite app_nil_r|].
      split; [now exists more|].
      split; [exists []; now rewrite app_nil_r|]. discriminate.
    + intros [= <- <-]. exact Hsame.
  - intros Hr.
    apply bind_inr in Hr as (u & s1 & _ & Hr).
    apply bind_inr in Hr as (t & s2 & _ & Hr).
    injection Hr as <- <-.
    split; [now destruct a|].
    split; [exists []; now rewrite app_nil_r|].
    split; [exists []; now rewrite app_nil_r|].
    split; [now exists [t]|]. auto.
  - intros Hr.
    apply bind_inr in Hr as (u & s1 & _ & Hr).
    injection Hr as <- <-. exact Hsame.
Qed.

Lemma readSubRecords_extends (fuel : nat) (options : Options) (a a' : Approach) (s s' : Stream) :
  readSubRecords fuel options a s = inr (a', s') ->
  a' = withTransitions (withMissedLegs (withLegs a (legs a')) (missedLegs a')) (transitions a') /\
  (exists more, legs a' = legs a ++ more) /\
  (exists more, missedLegs a' = missedLegs a ++ more) /\
  (exists more, transitions a' = transitions a ++ more) /\
  (includeApproachLegs options = false ->
   legs a' = legs a /\ missedLegs a' = missedLegs a).
Proof.
  assert (Hsame : forall b : Approach,
            b = withTransitions (withMissedLegs (withLegs b (legs b)) (missedLegs b))
                  (transitions b) /\
            (exists more, legs b = legs b ++ more) /\
            (exists more, missedLegs b = missedLegs b ++ more) /\
            (exists more, transitions b = transitions b ++ more) /\
            (includeApproachLegs options = false ->
             legs b = legs b /\ missedLegs b = missedLegs b)).
  { intros b. split; [apply withLists_same|].
    repeat (split; [exists []; now rewrite app_nil_r|]). auto. }
  revert a s. induction fuel as [|fuel IH]; intros a s Hr; [discriminate|].
  cbn [readSubRecords] in Hr.
  apply bind_inr in Hr as (pos & s0 & Hpos & Hr). injection Hpos as <- <-.
  destruct (tellg s <? startOffset (rec a) + size (rec a)).
  2:{ injection Hr as <- <-. apply Hsame. }
  apply bind_inr in Hr as (r & s1 & _ & Hr).
  destruct (checkSubRecord r).
  { injection Hr as <- <-. apply Hsame. }
  apply bind_inr in Hr as (a1 & s2 & Hsub & Hr).
  apply bind_inr in Hr as (u & s3 & _ & Hr).
  apply readSubRecord_extends in Hsub as (E1 & [l1 L1] & [m1 M1] & [t1 T1] & N1).
  apply IH in Hr as (E2 & [l2 L2] & [m2 M2] & [t2 T2] & N2).
  split.
  { rewrite E2, E1. now destruct a. }
  split. { exists (l1 ++ l2). now rewrite L2, L1, app_assoc. }
  split. { exists (m1 ++ m2). now rewrite M2, M1, app_assoc. }
  split. { exists (t1 ++ t2). now rewrite T2, T1, app_assoc. }
  intros Hinc. destruct (N1 Hinc) as [A1 B1]. destruct (N2 Hinc) as [A2 B2].
  split; congruence.
Qed.

(** X18.  Reading the subrecords of an approach changes nothing but the
    three lists of the approach, and only appends to them: the legs, the
    missed legs and the transitions from before are prefixes of the lists
    after a read that succeeds. *)
Theorem subrecords_only_append
    (fuel : nat) (options : Options) (a a' : Approach) (s s' : Stream) :
  readSubRecords fuel options a s = inr (a', s') ->
  a' = withTransitions (withMissedLegs (withLegs a (legs a')) (missedLegs a')) (transitions a') /\
  legs a `prefix_of` legs a' /\
  missedLegs a `prefix_of` missedLegs a' /\
  transitions a `prefix_of` transitions a'.
Proof.
  intros Hr.
  destruct (readSubRecords_extends _ _ _ _ _ _ Hr) as (E & L & M & T & _).
  auto.
Qed.

Variable approachTypeToStr : Z -> string.
Variable legIsValid : ApproachLeg -> bool.
Variable transIsValid : Transition -> bool.

Lemma invalid_stays {A} (f : A -> bool) (l : list A) :
  fold_left (fun valid x => valid && f x) l false = false.
Proof. induction l as [|x l IH]; [reflexivity|exact IH]. Qed.

(** X19.  When approach legs are not included by the options, an approach
    that is read has neither legs nor missed legs, and [isValid] is false
    for it, whatever its type, its transitions and the validity of legs
    and transitions. *)
Theorem approach_without_legs_is_not_valid
    (fuel : nat) (options : Options) (airportRecType : Z) (a : Approach) (s s' : Stream) :
  includeApproachLegs options = false ->
  readApproach fuel options airportRecType s = inr (a, s') ->
  legs a = [] /\ missedLegs a = [] /\
  isValid approachTypeToStr legIsValid transIsValid a = false.
Proof.
  intros Hinc Hr. unfold readApproach in Hr.
  apply bind_inr in Hr as (a0 & s0 & Hhead & Hr).
  apply readHeader_inv in Hhead as (_ & _ & _ & _ & _ & Hl & Hm & _).
  destruct (readSubRecords_extends _ _ _ _ _ _ Hr) as (_ & _ & _ & _ & Hnone).
  destruct (Hnone Hinc) as [Hl' Hm'].
  rewrite Hl in Hl'. rewrite Hm in Hm'.
  split; [exact Hl'|]. split; [exact Hm'|].
  unfold isValid. rewrite Hl'. cbn. now rewrite !invalid_stays.
Qed.

End SubrecordLoop.

Section SubrecordRuns.
Import Bgl Sample.

(** The theorem at the sample record with two legs. *)
Lemma subrecords_only_append_witness :
  exists a' s',
    readSubRecords 3 (mkOptions true OtherSimulator false) headerLegs
                   (mkStream legsBytes 32 []) = inr (a', s') /\
    legs a' = [7; 9] /\
    legs headerLegs `prefix_of` legs a' /\
    missedLegs headerLegs `prefix_of` missedLegs a' /\
    transitions headerLegs `prefix_of` transitions a'.
Proof.
  exists (withLegs headerLegs [7; 9]), (mkStream legsBytes 44 []).
  split; [reflexivity|]. split; [reflexivity|].
  exact (proj2 (@subrecords_only_append format 3 (mkOptions true OtherSimulator false)
                  headerLegs (withLegs headerLegs [7; 9])
                  (mkStream legsBytes 32 []) (mkStream legsBytes 44 []) eq_refl)).
Defined.

(** The theorem at the same record read without legs. *)
Lemma approach_without_legs_is_not_valid_witness :
  readApproach 3 (mkOptions false OtherSimulator false) 0 legsStream =
    inr (headerLegs, mkStream legsBytes 44 []) /\
  legs headerLegs = [] /\ missedLegs headerLegs = [] /\
  isValid (fun _ => "GPS"%string) (fun _ => true) (fun _ => true) headerLegs = false.
Proof.
  split; [reflexivity|].
  exact (@approach_without_legs_is_not_valid format
           (fun _ => "GPS"%string) (fun _ => true) (fun _ => true)
           3 (mkOptions false OtherSimulator false) 0 headerLegs
           legsStream (mkStream legsBytes 44 []) eq_refl eq_refl).
Defined.

End SubrecordRuns.

Section SchemaSteps.
Import Nav NavSteps.

Lemma steps_app (l1 l2 : list Step) : steps (l1 ++ l2) = steps l1 + steps l2.
Proof.
  induction l1 as [|st l1 IH]; [reflexivity|].
  destruct st; cbn; rewrite IH; lia.
Qed.

Lemma scripts_app (l1 l2 : list Step) : scripts (l1 ++ l2) = scripts l1 ++ scripts l2.
Proof. unfold scripts. apply omap_app. Qed.

Lemma reports_app (l1 l2 : list Step) : reports (l1 ++ l2) = reports l1 ++ reports l2.
Proof. unfold reports. apply omap_app. Qed.

(** A report and what comes behind it; a statement and what comes behind
    it. *)
Lemma report_then (progress : Handler) (message : string) (rest : Block) (run : Run) :
  (reportIfSet (Some progress) (fun p => reportOther p message) ;; rest) run =
  let run' := did (Report message 1) run in
  if progress (done run') then inl (setAborted true run') else rest (setAborted false run').
Proof.
  unfold seq, reportIfSet, returnIf, reportOther, reportOtherInc. cbv zeta.
  now destruct (progress _).
Qed.

Lemma exec_then (f : Run -> Run) (rest : Block) (run : Run) :
  (exec f ;; rest) run = rest (f run).
Proof. reflexivity. Qed.

Lemma no_report_then (report : Handler -> Run -> bool * Run) (rest : Block) (run : Run) :
  (reportIfSet None report ;; rest) run = rest run.
Proof. reflexivity. Qed.

Ltac answer E :=
  match goal with
  | |- context [if ?progress ?l then _ else _] => destruct (progress l) eqn:E
  end.

Ltac schema_aborted E k :=
  cbn [done did setAborted aborted validationError thrown];
  eexists; split; [rewrite <- ?app_assoc; reflexivity|];
  split; [intros Habs; discriminate Habs|];
  intros _; split; [exact E|]; exists k; split; [lia|]; repeat split.

(** X20.  [createSchemaInternal] with a progress handler appends to what was
    done.  When it is not aborted, it has reported PROGRESS_NUM_SCHEMA_STEPS
    steps and has run the seven scripts that drop the schema and the six
    that create it, in this order.  When it is aborted, the handler asked
    for it at the last report, which is one of the eight reports: the
    scripts run are the [k] first of the scripts that drop the schema, and
    [k + 1] reports of one step were made.  [createSchema] runs all the
    scripts, makes no report, and leaves [aborted] as it is. *)
Theorem createSchemaInternal_reports_and_scripts (progress : Handler) (run : Run) :
  let run' := createSchemaInternal (Some progress) run in
  (exists new,
     done run' = done run ++ new /\
     (aborted run' = false ->
        steps new = PROGRESS_NUM_SCHEMA_STEPS /\
        scripts new = dropScripts ++ createScripts) /\
     (aborted run' = true ->
        progress (done run') = true /\
        exists k, (k < 8)%nat /\
          scripts new = take k dropScripts /\
          length (reports new) = S k /\ steps new = Z.of_nat (S k))) /\
  scripts (done (createSchema run)) = scripts (done run) ++ dropScripts ++ createScripts /\
  reports (done (createSchema run)) = reports (done run) /\
  aborted (createSchema run) = aborted run.
Proof.
  intros run'. subst run'. split.
  - unfold createSchemaInternal, void, executeScript, commit.
    rewrite report_then. cbv zeta. cbn [done did setAborted aborted validationError thrown].
    answer E1; [schema_aborted E1 0%nat|].
    rewrite exec_then, report_then. cbv zeta.
    cbn [done did setAborted aborted validationError thrown].
    answer E2; [schema_aborted E2 1%nat|].
    rewrite exec_then, report_then. cbv zeta.
    cbn [done did setAborted aborted validationError thrown].
    answer E3; [schema_aborted E3 2%nat|].
    rewrite exec_then, report_then. cbv zeta.
    cbn [done did setAborted aborted validationError thrown].
    answer E4; [schema_aborted E4 3%nat|].
    rewrite exec_then, report_then. cbv zeta.
    cbn [done did setAborted aborted validationError thrown].
    answer E5; [schema_aborted E5 4%nat|].
    rewrite exec_then, report_then. cbv zeta.
    cbn [done did setAborted aborted validationError thrown].
    answer E6; [schema_aborted E6 5%nat|].
    rewrite exec_then, report_then. cbv zeta.
    cbn [done did setAborted aborted validationError thrown].
    answer E7; [schema_aborted E7 6%nat|].
    rewrite !exec_then, report_then. cbv zeta.
    cbn [done did setAborted aborted validationError thrown].
    answer E8; [schema_aborted E8 7%nat|].
    rewrite !exec_then. unfold exec.
    cbn [done did setAborted aborted validationError thrown].
    eexists. split; [rewrite <- ?app_assoc; reflexivity|].
    split; [intros _; split; reflexivity|]. intros Habs. discriminate Habs.
  - unfold createSchema, createSchemaInternal, void, seq, reportIfSet, skip, executeScript,
      commit, exec.
    cbn [done did setAborted aborted validationError thrown].
    rewrite !scripts_app, !reports_app. cbn. rewrite <- !app_assoc, !app_nil_r. auto.
Qed.

End SchemaSteps.

Section StepsOfBlocks.
Import Nav NavSteps.

Variable progress : Handler.

Lemma adds_as (b : Block) (n m : Z) : adds b n -> n = m -> adds b m.
Proof. now intros Hb <-. Qed.

Lemma adds_seq (b1 b2 : Block) (n1 n2 : Z) :
  adds b1 n1 -> adds b2 n2 -> adds (b1 ;; b2) (n1 + n2).
Proof.
  intros H1 H2 run. destruct (H1 run) as (r1 & E1 & S1). destruct (H2 r1) as (r2 & E2 & S2).
  exists r2. unfold seq. rewrite E1. split; [exact E2|lia].
Qed.

Lemma adds_skip : adds skip 0.
Proof. intros run. exists run. split; [reflexivity|lia]. Qed.

Lemma adds_when (c : bool) (b : Block) (n : Z) :
  adds b n -> adds (when c b) (if c then n else 0).
Proof. destruct c; [auto|intros _; apply adds_skip]. Qed.

Lemma adds_if (c : bool) (b1 b2 : Block) (n : Z) :
  adds b1 n -> adds b2 n -> adds (if c then b1 else b2) n.
Proof. now destruct c. Qed.

Lemma adds_task (name : string) : adds (exec (did (Task name))) 0.
Proof.
  intros run. eexists. split; [reflexivity|]. cbn. rewrite steps_app. cbn. lia.
Qed.

Lemma adds_commit : adds commit 0.
Proof.
  intros run. eexists. split; [reflexivity|]. cbn. rewrite steps_app. cbn. lia.
Qed.

Lemma adds_script (file : string) : adds (executeScript file) 0.
Proof.
  intros run. eexists. split; [reflexivity|]. cbn. rewrite steps_app. cbn. lia.
Qed.

Lemma adds_report (message : string) (n : Z) :
  quiet progress -> adds (returnIf (reportOtherInc progress message n)) n.
Proof.
  intros Hq run. unfold returnIf, reportOtherInc. cbv zeta. rewrite Hq.
  eexists. split; [reflexivity|]. cbn. rewrite steps_app. cbn. lia.
Qed.

Lemma adds_reportIfSet (message : string) :
  quiet progress ->
  adds (reportIfSet (Some progress) (fun p => reportOther p message)) 1.
Proof. intros Hq. now apply adds_report. Qed.

Lemma adds_runScript (file message : string) :
  quiet progress ->
  adds (returnIf (runScript (Some progress) file message)) PROGRESS_NUM_SCRIPT_STEPS.
Proof.
  intros Hq run.
  unfold returnIf, runScript, returning, seq, reportIfSet, returnIf, reportOtherInc,
    executeScript, commit, exec.
  cbv zeta. rewrite Hq.
  eexists. split; [reflexivity|]. cbn. rewrite !steps_app. cbn. lia.
Qed.

Lemma adds_void (b : Block) (n : Z) (run : Run) :
  adds b n -> steps (done (void b run)) = steps (done run) + n.
Proof. intros Hb. unfold void. destruct (Hb run) as (r & -> & Hs). exact Hs. Qed.

Lemma adds_returning (b : Block) (n : Z) (run : Run) :
  adds b n -> steps (done (returning b run).2) = steps (done run) + n.
Proof. intros Hb. unfold returning. destruct (Hb run) as (r & -> & Hs). exact Hs. Qed.

(** Pieces that return only at an aborted report. *)
Lemma stops_seq (b1 b2 : Block) : stops progress b1 -> stops progress b2 -> stops progress (b1 ;; b2).
Proof.
  intros H1 H2 run Hrun. unfold seq. specialize (H1 run Hrun).
  destruct (b1 run) as [r1|r1]; [exact H1|].
  destruct H1 as [Ha (more1 & Hd1)]. specialize (H2 r1 Ha).
  destruct (b2 r1) as [r2|r2]; [exact H2|].
  destruct H2 as [Ha2 (more2 & Hd2)]. split; [exact Ha2|].
  exists (more1 ++ more2). now rewrite Hd2, Hd1, app_assoc.
Qed.

Lemma stops_skip : stops progress skip.
Proof. intros run Hrun. split; [exact Hrun|]. exists []. now rewrite app_nil_r. Qed.

Lemma stops_when (c : bool) (b : Block) : stops progress b -> stops progress (when c b).
Proof. destruct c; [auto|intros _; apply stops_skip]. Qed.

Lemma stops_if (c : bool) (b1 b2 : Block) :
  stops progress b1 -> stops progress b2 -> stops progress (if c then b1 else b2).
Proof. now destruct c. Qed.

Lemma stops_did (st : Step) : stops progress (exec (did st)).
Proof. intros run Hrun. split; [exact Hrun|]. now exists [st]. Qed.

Lemma stops_report (message : string) (n : Z) :
  stops progress (returnIf (reportOtherInc progress message n)).
Proof.
  intros run Hrun. unfold returnIf, reportOtherInc. cbv zeta.
  destruct (progress _) eqn:E.
  - split; [reflexivity|]. split; [exact E|]. now exists (done run), message, n.
  - split; [reflexivity|]. now exists [Report message n].
Qed.

Lemma stops_runScript (file message : string) :
  stops progress (returnIf (runScript (Some progress) file message)).
Proof.
  intros run Hrun.
  unfold returnIf, runScript, returning, seq, reportIfSet, returnIf, reportOtherInc,
    executeScript, commit, exec.
  cbv zeta. destruct (progress _) eqn:E.
  - split; [reflexivity|]. split; [exact E|].
    now exists (done run), message, PROGRESS_NUM_SCRIPT_STEPS.
  - split; [reflexivity|]. cbn. rewrite <- !app_assoc. eexists. reflexivity.
Qed.

Lemma stops_void (b : Block) (run : Run) :
  stops progress b -> aborted run = false ->
  (aborted (void b run) = true -> endsAborted progress (void b run)) /\
  (aborted (void b run) = false -> exists more, done (void b run) = done run ++ more).
Proof.
  intros Hb Hrun. unfold void. specialize (Hb run Hrun).
  destruct (b run) as [r|r].
  - split; [auto|]. destruct Hb as [Ha _]. congruence.
  - destruct Hb as [Ha Hmore]. split; [congruence|auto].
Qed.

End StepsOfBlocks.

Section PostProcessSteps.
Import Nav NavSteps.
Context `{Simulators}.

Variable options : Options.
Variable resolverRun : Handler -> Z -> Run -> bool * Run.
Variable progress : Handler.
Variable tables : gmap string Z.

Ltac adds_steps Hq Hres :=
  repeat first
    [ apply adds_seq
    | apply adds_when
    | apply adds_if
    | apply adds_skip
    | apply adds_task
    | apply adds_commit
    | apply adds_script
    | exact Hres
    | apply (adds_runScript progress _ _ Hq)
    | apply (adds_report progress _ _ Hq)
    | apply (adds_reportIfSet progress _ Hq) ].

(** What the files of the areas count for. *)
Lemma countFiles_quiet (areas : list SceneryArea) (numFiles numSceneryAreas : Z) (run : Run) :
  quiet progress ->
  exists run',
    countFiles progress areas numFiles numSceneryAreas run =
      (run', numFiles + numberOfFiles (withFiles areas),
       numSceneryAreas + Z.of_nat (length (withFiles areas))) /\
    (areas <> [] -> aborted run' = false) /\ (areas = [] -> run' = run).
Proof.
  intros Hq. revert numFiles numSceneryAreas run.
  induction areas as [|area areas IH]; intros numFiles numSceneryAreas run.
  - exists run. cbn. split; [|split; congruence].
    apply pair_equal_spec. split; [apply pair_equal_spec; split; [reflexivity|lia]|lia].
  - cbn [countFiles]. unfold reportOtherMsg. cbv zeta. rewrite Hq.
    unfold withFiles. cbn [List.filter]. fold (withFiles areas).
    destruct (0 <? files area) eqn:Hpos.
    + destruct (IH (numFiles + files area) (numSceneryAreas + 1)
                   (setAborted false (did (Message ("Counting files for " +:+ title area +:+ " ...")) run)))
        as (run' & E & Hab & Hnil).
      exists run'. rewrite E. split.
      { unfold numberOfFiles. cbn [fold_right length].
        apply pair_equal_spec. split; [apply pair_equal_spec; split; [reflexivity|lia]|lia]. }
      split; [|discriminate]. intros _.
      destruct areas as [|a2 areas2]; [now rewrite Hnil|]. now apply Hab.
    + destruct (IH numFiles numSceneryAreas
                   (setAborted false (did (Message ("Counting files for " +:+ title area +:+ " ...")) run)))
        as (run' & E & Hab & Hnil).
      exists run'. rewrite E. split; [reflexivity|].
      split; [|discriminate]. intros _.
      destruct areas as [|a2 areas2]; [now rewrite Hnil|]. now apply Hab.
Qed.

(** X21.  The number of steps that [countFsxP3dSteps] counts is the number
    that is reported: for a simulator that is neither X-Plane, the
    Navigraph database nor MSFS, without route tables, dropped indexes,
    basic validation and database report, with a handler that never asks to
    abort and a resolver that reports the number of steps it is given,
    [createSchemaInternal] reports PROGRESS_NUM_SCHEMA_STEPS steps, the
    scripts after loading and the post processing of [createInternal]
    report [countMsSimSteps] steps, and the total counted is this plus the
    number of files and the number of scenery areas with files. *)
Theorem fsx_p3d_steps_are_counted (areas : list SceneryArea) (run0 run : Run) :
  quiet progress ->
  (forall n, adds (returnIf (resolverRun progress n)) n) ->
  isAnyXplane (simulatorType options) = false ->
  simulatorType options <> NAVIGRAPH ->
  simulatorType options <> MSFS ->
  isCreateRouteTables options = false -> isDropIndexes options = false ->
  isBasicValidation options = false -> isDatabaseReport options = false ->
  aborted run0 = false ->
  let run1 := createSchemaInternal (Some progress) run in
  let run2 := (loadFsxP3dMsfsPost options progress run1).2 in
  let run3 := postProcess options resolverRun progress tables run2 in
  steps (done run1) = steps (done run) + PROGRESS_NUM_SCHEMA_STEPS /\
  steps (done run3) = steps (done run1) + countMsSimSteps options /\
  (countFsxP3dSteps options progress areas run0).2 =
    numberOfFiles (withFiles areas) + Z.of_nat (length (withFiles areas)) +
    (steps (done run3) - steps (done run)).
Proof.
  intros Hq Hres Hx Hn Hm Hroute Hdrop Hval Hrep Hrun0 run1 run2 run3.
  assert (H1 : steps (done run1) = steps (done run) + PROGRESS_NUM_SCHEMA_STEPS).
  { subst run1. unfold createSchemaInternal. apply adds_void.
    eapply adds_as; [adds_steps Hq (Hres 0)|reflexivity]. }
  assert (H2 : steps (done run2) = steps (done run1) +
                 (PROGRESS_NUM_SCRIPT_STEPS + (PROGRESS_NUM_SCRIPT_STEPS +
                    (if isDeduplicate options then PROGRESS_NUM_SCRIPT_STEPS else 0)))).
  { subst run2. unfold loadFsxP3dMsfsPost. apply adds_returning.
    adds_steps Hq (Hres 0). }
  assert (H3 : steps (done run3) = steps (done run2) +
                 (countMsSimSteps options -
                  (PROGRESS_NUM_SCRIPT_STEPS + (PROGRESS_NUM_SCRIPT_STEPS +
                     (if isDeduplicate options then PROGRESS_NUM_SCRIPT_STEPS else 0))))).
  { subst run3. unfold postProcess. cbv zeta.
    rewrite Hx, Hroute, Hdrop, Hval, Hrep.
    rewrite (bool_decide_eq_false_2 _ Hn), (bool_decide_eq_false_2 _ Hm).
    cbn [negb andb when].
    apply adds_void.
    eapply adds_as; [adds_steps Hq (Hres PROGRESS_NUM_RESOLVE_AIRWAY_STEPS)|].
    unfold countMsSimSteps, PROGRESS_NUM_SCRIPT_STEPS, PROGRESS_NUM_TASK_STEPS,
      PROGRESS_NUM_RESOLVE_AIRWAY_STEPS.
    rewrite andb_true_r.
    destruct (isResolveAirways options), (isDeduplicate options),
      (isVacuumDatabase options), (isAnalyzeDatabase options); reflexivity. }
  split; [exact H1|]. split; [lia|].
  unfold countFsxP3dSteps.
  destruct (countFiles_quiet areas 0 0 run0 Hq) as (run' & -> & Hab & Hnil).
  assert (Ha : aborted run' = false).
  { destruct areas; [now rewrite Hnil|now apply Hab]. }
  rewrite Ha. cbn [snd]. lia.
Qed.


(** X22.  For MSFS, under the same conditions, the schema, the scripts after
    loading and the post processing report [countMsSimSteps] steps less the
    steps of the script that merges VOR and TACAN, which is not run, plus
    one step for loading the translations.  [countMsfsSteps] adds 1 and
    subtracts 1 instead: it counts what [countFsxP3dSteps] counts, which is
    9 more than the files, the areas with files and the steps reported. *)
Theorem msfs_steps_counted_exceed_reported_by_9 (areas : list SceneryArea) (run0 run : Run) :
  quiet progress ->
  (forall n, adds (returnIf (resolverRun progress n)) n) ->
  simulatorType options = MSFS ->
  isAnyXplane MSFS = false ->
  MSFS <> NAVIGRAPH ->
  isCreateRouteTables options = false -> isDropIndexes options = false ->
  isBasicValidation options = false -> isDatabaseReport options = false ->
  aborted run0 = false ->
  let run1 := createSchemaInternal (Some progress) run in
  let run2 := (loadFsxP3dMsfsPost options progress run1).2 in
  let run3 := postProcess options resolverRun progress tables run2 in
  steps (done run3) - steps (done run) =
    PROGRESS_NUM_SCHEMA_STEPS + countMsSimSteps options
    - PROGRESS_NUM_SCRIPT_STEPS (* no TACAN merge *) + 1 (* Loading translations *) /\
  (countMsfsSteps options progress areas run0).2 =
    (countFsxP3dSteps options progress areas run0).2 /\
  (countMsfsSteps options progress areas run0).2 =
    numberOfFiles (withFiles areas) + Z.of_nat (length (withFiles areas)) +
    (steps (done run3) - steps (done run)) + 9.
Proof.
  intros Hq Hres Hsim Hx Hn Hroute Hdrop Hval Hrep Hrun0 run1 run2 run3.
  assert (H1 : steps (done run1) = steps (done run) + PROGRESS_NUM_SCHEMA_STEPS).
  { subst run1. unfold createSchemaInternal. apply adds_void.
    eapply adds_as; [adds_steps Hq (Hres 0)|reflexivity]. }
  assert (H2 : steps (done run2) = steps (done run1) +
                 (PROGRESS_NUM_SCRIPT_STEPS + (PROGRESS_NUM_SCRIPT_STEPS +
                    (if isDeduplicate options then PROGRESS_NUM_SCRIPT_STEPS else 0)))).
  { subst run2. unfold loadFsxP3dMsfsPost. apply adds_returning.
    adds_steps Hq (Hres 0). }
  assert (H3 : steps (done run3) = steps (done run2) +
                 (countMsSimSteps options - 9 -
                  (PROGRESS_NUM_SCRIPT_STEPS + (PROGRESS_NUM_SCRIPT_STEPS +
                     (if isDeduplicate options then PROGRESS_NUM_SCRIPT_STEPS else 0))))).
  { subst run3. unfold postProcess. cbv zeta.
    rewrite Hsim, Hx, Hroute, Hdrop, Hval, Hrep.
    rewrite (bool_decide_eq_false_2 _ Hn), (bool_decide_eq_true_2 _ (eq_refl MSFS)).
    cbn [negb andb when].
    apply adds_void.
    eapply adds_as; [adds_steps Hq (Hres PROGRESS_NUM_RESOLVE_AIRWAY_STEPS)|].
    unfold countMsSimSteps, PROGRESS_NUM_SCRIPT_STEPS, PROGRESS_NUM_TASK_STEPS,
      PROGRESS_NUM_RESOLVE_AIRWAY_STEPS.
    rewrite andb_true_r.
    destruct (isResolveAirways options), (isDeduplicate options),
      (isVacuumDatabase options), (isAnalyzeDatabase options); reflexivity. }
  unfold countMsfsSteps, countFsxP3dSteps.
  destruct (countFiles_quiet areas 0 0 run0 Hq) as (run' & -> & Hab & Hnil).
  assert (Ha : aborted run' = false).
  { destruct areas; [now rewrite Hnil|now apply Hab]. }
  rewrite Ha. cbn [snd]. unfold PROGRESS_NUM_SCRIPT_STEPS, PROGRESS_NUM_TASK_STEPS in *.
  repeat split; lia.
Qed.

Ltac stops_here Hres :=
  repeat first
    [ apply stops_seq
    | apply stops_when
    | apply stops_if
    | apply stops_skip
    | apply stops_did
    | exact Hres
    | apply stops_runScript
    | apply stops_report ].

(** X23.  Without basic validation and database report, and with a resolver
    that returns true only at a report that the handler answered with
    abort, the post processing of [createInternal] ends with [aborted] set
    only at such a report: the last thing done is the report, and nothing
    is run behind it.  When [aborted] is not set, what was done before is
    still there.  The same holds for the scripts of
    [loadFsxP3dMsfsPost]. *)
Theorem postProcess_stops_at_the_aborted_report (run : Run) :
  stops progress (returnIf (resolverRun progress PROGRESS_NUM_RESOLVE_AIRWAY_STEPS)) ->
  isBasicValidation options = false -> isDatabaseReport options = false ->
  aborted run = false ->
  let run' := postProcess options resolverRun progress tables run in
  (aborted run' = true -> endsAborted progress run') /\
  (aborted run' = false -> exists more, done run' = done run ++ more) /\
  (aborted (loadFsxP3dMsfsPost options progress run).2 = true ->
     endsAborted progress (loadFsxP3dMsfsPost options progress run).2).
Proof.
  intros Hres Hval Hrep Hrun run'.
  assert (Hpost : (aborted run' = true -> endsAborted progress run') /\
                  (aborted run' = false -> exists more, done run' = done run ++ more)).
  { subst run'. unfold postProcess. cbv zeta. rewrite Hval, Hrep. cbn [when].
    apply stops_void; [|exact Hrun].
    unfold commit. stops_here Hres. }
  destruct Hpost as [Hp1 Hp2]. split; [exact Hp1|]. split; [exact Hp2|].
  unfold loadFsxP3dMsfsPost, returning.
  assert (Hload : stops progress
            (returnIf (runScript (Some progress) "fs/db/create_indexes_post_load.sql"
                                 "Creating indexes") ;;
             returnIf (runScript (Some progress) "fs/db/create_indexes_post_load_boundary.sql"
                                 "Creating boundary indexes") ;;
             when (isDeduplicate options)
               (returnIf (runScript (Some progress) "fs/db/delete_duplicates.sql" "Clean up")))).
  { stops_here Hres. }
  specialize (Hload run Hrun).
  destruct (seq _ _ run) as [r|r]; cbn [snd].
  - intros _. exact Hload.
  - destruct Hload as [Ha _]. congruence.
Qed.

End PostProcessSteps.

Section SceneryAreas.
Import Nav NavSteps.

Variable progress : Handler.



(** X25.  [countFiles] posts one message for every area, which counts for no
    step, and adds the files of the areas that have files and the number of
    these areas to its counters.  When the handler asks to abort at the
    message of an area, it stops with [aborted] set: only the areas before
    that area are counted. *)
Theorem countFiles_counts_until_aborted
    (areas : list SceneryArea) (numFiles numSceneryAreas : Z) (run : Run) :
  let asking area := Message ("Counting files for " +:+ title area +:+ " ...") in
  (exists run',
     countFiles progress areas numFiles numSceneryAreas run =
       (run', numFiles + numberOfFiles (withFiles areas),
        numSceneryAreas + Z.of_nat (length (withFiles areas))) /\
     done run' = done run ++ map asking areas /\
     (areas <> [] -> aborted run' = false) /\ (areas = [] -> run' = run)) \/
  (exists counted area rest run',
     areas = counted ++ area :: rest /\
     countFiles progress areas numFiles numSceneryAreas run =
       (run', numFiles + numberOfFiles (withFiles counted),
        numSceneryAreas + Z.of_nat (length (withFiles counted))) /\
     done run' = done run ++ map asking (counted ++ [area]) /\
     aborted run' = true /\ progress (done run') = true).
Proof.
  intros asking. revert numFiles numSceneryAreas run.
  induction areas as [|area areas IH]; intros numFiles numSceneryAreas run.
  - left. exists run. cbn. rewrite app_nil_r. split; [|split; [reflexivity|split; congruence]].
    apply pair_equal_spec. split; [apply pair_equal_spec; split; [reflexivity|lia]|lia].
  - cbn [countFiles]. unfold reportOtherMsg. cbv zeta.
    fold (asking area).
    destruct (progress (done (did (asking area) run))) eqn:Eask.
    + right. exists [], area, areas, (setAborted true (did (asking area) run)).
      split; [reflexivity|]. split.
      { cbn. apply pair_equal_spec. split; [apply pair_equal_spec; split; [reflexivity|lia]|lia]. }
      split; [reflexivity|]. split; [reflexivity|exact Eask].
    + set (run1 := setAborted false (did (asking area) run)).
      assert (Hd1 : done run1 = done run ++ [asking area]) by reflexivity.
      unfold withFiles. cbn [List.filter]. fold (withFiles areas).
      destruct (0 <? files area) eqn:Hpos.
      * destruct (IH (numFiles + files area) (numSceneryAreas + 1) run1)
          as [(run' & E & Hd & Hab & Hnil)|(counted & a & rest & run' & Hsplit & E & Hd & Hab & Hp)].
        -- left. exists run'. rewrite E. split.
           { unfold numberOfFiles. cbn [fold_right length].
             apply pair_equal_spec. split; [apply pair_equal_spec; split; [reflexivity|lia]|lia]. }
           split; [rewrite Hd, Hd1, <- app_assoc; reflexivity|].
           split; [|discriminate]. intros _.
           destruct areas as [|a2 areas2]; [now rewrite Hnil|]. now apply Hab.
        -- right. exists (area :: counted), a, rest, run'.
           split; [now rewrite Hsplit|]. rewrite E. split.
           { unfold withFiles. cbn [List.filter]. rewrite Hpos. fold (withFiles counted).
             unfold numberOfFiles. cbn [fold_right length].
             apply pair_equal_spec. split; [apply pair_equal_spec; split; [reflexivity|lia]|lia]. }
           split; [rewrite Hd, Hd1, <- app_assoc; reflexivity|]. split; [exact Hab|exact Hp].
      * destruct (IH numFiles numSceneryAreas run1)
          as [(run' & E & Hd & Hab & Hnil)|(counted & a & rest & run' & Hsplit & E & Hd & Hab & Hp)].
        -- left. exists run'. rewrite E. split; [reflexivity|].
           split; [rewrite Hd, Hd1, <- app_assoc; reflexivity|].
           split; [|discriminate]. intros _.
           destruct areas as [|a2 areas2]; [now rewrite Hnil|]. now apply Hab.
        -- right. exists (area :: counted), a, rest, run'.
           split; [now rewrite Hsplit|]. rewrite E. split.
           { unfold withFiles. cbn [List.filter]. rewrite Hpos. reflexivity. }
           split; [rewrite Hd, Hd1, <- app_assoc; reflexivity|]. split; [exact Hab|exact Hp].
Qed.

End SceneryAreas.

Section Validation.
Import Nav NavSteps.
Context `{Simulators}.

Variable options : Options.
Variable progress : Handler.
Variable tables : gmap string Z.

Let validate (run : Run) (entry : string * Z) : Run :=
  let '(table, minCount) := entry in
  match thrown run with
  | Some _ => run
  | None => basicValidateTable tables table minCount run
  end.

Lemma validate_thrown (entries : list (string * Z)) (run : Run) :
  thrown run <> None ->
  fold_left validate entries run = run.
Proof.
  induction entries as [|[table minCount] entries IH]; intros Hthrown; [reflexivity|].
  cbn [fold_left]. unfold validate at 2.
  destruct (thrown run) eqn:E; [|congruence]. apply IH. congruence.
Qed.

Lemma validate_present (entries : list (string * Z)) (run : Run) :
  (forall entry, entry ∈ entries -> is_Some (tables !! entry.1)) ->
  thrown run = None ->
  let run' := fold_left validate entries run in
  thrown run' = None /\ done run' = done run /\ aborted run' = aborted run /\
  (validationError run' = true <->
   validationError run = true \/ Exists (tooSmall tables) entries).
Proof.
  revert run. induction entries as [|[table minCount] entries IH]; intros run Hall Hthrown.
  - cbn. repeat split; auto. intros [E|E]; [exact E|inversion E].
  - destruct (Hall (table, minCount)) as [count Hcount]; [apply list_elem_of_here|].
    cbn in Hcount.
    assert (Hrest : forall entry, entry ∈ entries -> is_Some (tables !! entry.1)).
    { intros entry Hin. apply Hall. now apply list_elem_of_further. }
    assert (Hstep : validate run (table, minCount) =
                    if count <? minCount
                    then mkRun (aborted run) true (thrown run) (done run) else run).
    { unfold validate, basicValidateTable. now rewrite Hthrown, Hcount. }
    cbv zeta. cbn [fold_left]. rewrite Hstep.
    destruct (count <? minCount) eqn:Hsmall.
    + destruct (IH (mkRun (aborted run) true (thrown run) (done run)) Hrest Hthrown)
        as (Ht & Hd & Ha & Hv).
      split; [exact Ht|]. split; [exact Hd|]. split; [exact Ha|].
      split; [intros _|intros _; apply Hv; now left].
      right. apply Exists_cons_hd. exists count. split; [exact Hcount|].
      cbn. now apply Z.ltb_lt.
    + destruct (IH run Hrest Hthrown) as (Ht & Hd & Ha & Hv).
      split; [exact Ht|]. split; [exact Hd|]. split; [exact Ha|].
      rewrite Hv. split; intros [E|E]; [now left|right; now apply Exists_cons_tl|now left|].
      apply Exists_cons in E as [(count' & Hc' & Hlt)|E]; [|now right].
      cbn in Hc', Hlt. rewrite Hcount in Hc'. injection Hc' as <-.
      apply Z.ltb_ge in Hsmall. lia.
Qed.

(** X26.  [basicValidation] makes one report of one step and returns what
    the handler answers, which it assigns to [aborted].  When the handler
    asks to abort, no table is validated.  Otherwise the tables are
    validated in the order of the options up to the first table that does
    not exist, for which an exception is thrown; the validation error is
    set exactly when it was set before or one of the tables validated has
    fewer rows than required. *)
Theorem basicValidation_flags_small_tables
    (before rest : list (string * Z)) (run : Run) :
  basicValidationTables options = before ++ rest ->
  (forall entry, entry ∈ before -> is_Some (tables !! entry.1)) ->
  (forall entry, head rest = Some entry -> tables !! entry.1 = None) ->
  thrown run = None ->
  let asked := done run ++ [Report "Basic Validation" 1] in
  let result := basicValidation options progress tables run in
  result.1 = progress asked /\ aborted result.2 = progress asked /\
  done result.2 = asked /\
  (progress asked = true ->
     validationError result.2 = validationError run /\ thrown result.2 = None) /\
  (progress asked = false ->
     thrown result.2 = fst <$> head rest /\
     (validationError result.2 = true <->
      validationError run = true \/ Exists (tooSmall tables) before)).
Proof.
  intros Hentries Hbefore Hmissing Hthrown asked result. subst result.
  unfold basicValidation, returning, seq, returnIf, reportOther, reportOtherInc, exec.
  cbv zeta. change (done (did (Report "Basic Validation" 1) run)) with asked.
  destruct (progress asked) eqn:Eask.
  - cbn. repeat split; auto; discriminate.
  - cbn [fst snd]. rewrite Hentries, fold_left_app.
    set (run1 := setAborted false (did (Report "Basic Validation" 1) run)).
    assert (Ht1 : thrown run1 = None) by exact Hthrown.
    fold validate.
    destruct (validate_present before run1 Hbefore Ht1) as (Ht & Hd & Ha & Hv).
    set (run2 := fold_left validate before run1) in *.
    destruct rest as [|[table minCount] rest].
    + cbn. split; [reflexivity|]. split; [now rewrite Ha|]. split; [now rewrite Hd|].
      split; [discriminate|]. intros _. split; [exact Ht|exact Hv].
    + assert (Hstep : validate run2 (table, minCount) =
                      mkRun (aborted run2) (validationError run2) (Some table) (done run2)).
      { pose proof (Hmissing (table, minCount) eq_refl) as Hnone. cbn in Hnone.
        unfold validate, basicValidateTable. now rewrite Ht, Hnone. }
      cbn [fold_left]. rewrite Hstep.
      rewrite validate_thrown by (cbn; congruence).
      cbn. split; [reflexivity|]. split; [now rewrite Ha|]. split; [now rewrite Hd|].
      split; [discriminate|]. intros _. split; [reflexivity|exact Hv].
Qed.

Lemma basicValidation_present (run : Run) :
  (forall entry, entry ∈ basicValidationTables options -> is_Some (tables !! entry.1)) ->
  thrown run = None ->
  let asked := done run ++ [Report "Basic Validation" 1] in
  let result := basicValidation options progress tables run in
  aborted result.2 = progress asked /\ done result.2 = asked /\ thrown result.2 = None.
Proof.
  intros Hall Hthrown asked result. subst result.
  unfold basicValidation, returning, seq, returnIf, reportOther, reportOtherInc, exec.
  cbv zeta. change (done (did (Report "Basic Validation" 1) run)) with asked.
  destruct (progress asked) eqn:Eask.
  - cbn. repeat split; auto.
  - cbn [fst snd]. fold validate.
    set (run1 := setAborted false (did (Report "Basic Validation" 1) run)).
    assert (Ht1 : thrown run1 = None) by exact Hthrown.
    destruct (validate_present (basicValidationTables options) run1 Hall Ht1)
      as (Ht & Hd & Ha & _).
    split; [now rewrite Ha|]. split; [now rewrite Hd|exact Ht].
Qed.

Variable resolverRun : Handler -> Z -> Run -> bool * Run.

Let finish : Step := Task "reportFinish".
Let validating : Step := Report "Basic Validation" 1.

Let goes (b : Block) : Prop :=
  forall run, thrown run = None ->
    exists r more, b run = inr r /\ thrown r = None /\ done r = done run ++ more.

Let ends (b : Block) : Prop :=
  forall run, thrown run = None ->
    exists r l more,
      b run = inr r /\ last (done r) = Some finish /\
      done r = done run ++ l ++ validating :: more /\
      aborted r = progress (done run ++ l ++ [validating]).

Hypothesis only_validation :
  forall l, progress l = true -> last l = Some validating.

Lemma goes_seq (b1 b2 : Block) : goes b1 -> goes b2 -> goes (b1 ;; b2).
Proof.
  intros H1 H2 run Hrun. unfold seq.
  destruct (H1 run Hrun) as (r1 & more1 & -> & Ht1 & Hd1).
  destruct (H2 r1 Ht1) as (r2 & more2 & -> & Ht2 & Hd2).
  exists r2, (more1 ++ more2). split; [reflexivity|]. split; [exact Ht2|].
  now rewrite Hd2, Hd1, app_assoc.
Qed.

Lemma goes_skip : goes skip.
Proof. intros run Hrun. exists run, []. now rewrite app_nil_r. Qed.

Lemma goes_when (c : bool) (b : Block) : goes b -> goes (when c b).
Proof. destruct c; [auto|intros _; apply goes_skip]. Qed.

Lemma goes_if (c : bool) (b1 b2 : Block) : goes b1 -> goes b2 -> goes (if c then b1 else b2).
Proof. now destruct c. Qed.

Lemma goes_did (st : Step) : goes (exec (did st)).
Proof. intros run Hrun. exists (did st run), [st]. now repeat split. Qed.

Lemma other_report (message : string) (n : Z) (l : list Step) :
  Report message n <> validating -> progress (l ++ [Report message n]) = false.
Proof.
  intros Hne. destruct (progress _) eqn:E; [|reflexivity].
  apply only_validation in E. rewrite last_snoc in E. congruence.
Qed.

Lemma goes_report (message : string) (n : Z) :
  Report message n <> validating ->
  goes (returnIf (reportOtherInc progress message n)).
Proof.
  intros Hne run Hrun. unfold returnIf, reportOtherInc. cbv zeta.
  change (done (did (Report message n) run)) with (done run ++ [Report message n]).
  rewrite (other_report _ _ _ Hne).
  eexists _, [Report message n]. split; [reflexivity|]. now split.
Qed.

Lemma goes_runScript (file message : string) :
  goes (returnIf (runScript (Some progress) file message)).
Proof.
  intros run Hrun.
  unfold returnIf, runScript, returning, seq, reportIfSet, returnIf, reportOtherInc,
    executeScript, commit, exec.
  cbv zeta.
  change (done (did (Report message PROGRESS_NUM_SCRIPT_STEPS) run))
    with (done run ++ [Report message PROGRESS_NUM_SCRIPT_STEPS]).
  rewrite other_report by (intros E; discriminate E).
  eexists _, _. split; [reflexivity|]. split; [exact Hrun|].
  cbn. rewrite <- !app_assoc. reflexivity.
Qed.

Lemma ends_seq (b1 b2 : Block) : goes b1 -> ends b2 -> ends (b1 ;; b2).
Proof.
  intros H1 H2 run Hrun. unfold seq.
  destruct (H1 run Hrun) as (r1 & more1 & -> & Ht1 & Hd1).
  destruct (H2 r1 Ht1) as (r2 & l & more & -> & Hlast & Hd2 & Ha).
  exists r2, (more1 ++ l), more. split; [reflexivity|]. split; [exact Hlast|].
  rewrite Hd2, Ha, Hd1, <- !app_assoc. split; reflexivity.
Qed.

Lemma ends_validation :
  (forall entry, entry ∈ basicValidationTables options -> is_Some (tables !! entry.1)) ->
  ends (calling (basicValidation options progress tables) ;; skip ;; skip ;; skip ;; skip ;;
        exec (did finish)).
Proof.
  intros Hall run Hrun. unfold seq at 1. unfold calling.
  destruct (basicValidation_present run Hall Hrun) as (Ha & Hd & Ht).
  cbv zeta in Ha, Hd, Ht. rewrite Ht.
  exists (did finish (basicValidation options progress tables run).2), [], [finish].
  split; [reflexivity|]. split; [cbn; apply last_snoc|].
  split; [cbn; now rewrite Hd, <- app_assoc|].
  cbn. exact Ha.
Qed.

Ltac goes_on Hres :=
  repeat first
    [ apply goes_seq
    | apply goes_when
    | apply goes_if
    | apply goes_skip
    | apply goes_did
    | exact Hres
    | apply goes_runScript
    | apply goes_report; intros E; discriminate E ].

(** X27.  The run does not end when the handler asks to abort at the report
    of the basic validation: with a handler that asks to abort at no other
    report, a resolver that is not aborted, the basic validation switched
    on, no table of the validation missing, and neither database report,
    dropped indexes, vacuum nor analyze, the post processing of
    [createInternal] always goes on to the final progress report, and
    [aborted] is what the handler answered to the report of the basic
    validation. *)
Theorem aborted_validation_does_not_end_the_run (run : Run) :
  (forall n r, thrown r = None ->
     exists r' more,
       resolverRun progress n r = (false, r') /\ thrown r' = None /\ done r' = done r ++ more) ->
  isBasicValidation options = true -> isDatabaseReport options = false ->
  isDropIndexes options = false ->
  isVacuumDatabase options = false -> isAnalyzeDatabase options = false ->
  (forall entry, entry ∈ basicValidationTables options -> is_Some (tables !! entry.1)) ->
  thrown run = None ->
  let run' := postProcess options resolverRun progress tables run in
  last (done run') = Some (Task "reportFinish") /\
  exists l more,
    done run' = done run ++ l ++ Report "Basic Validation" 1 :: more /\
    aborted run' = progress (done run ++ l ++ [Report "Basic Validation" 1]).
Proof.
  intros Hres Hval Hrep Hdrop Hvac Han Hall Hrun run'. subst run'.
  assert (Hresolver : goes (returnIf (resolverRun progress PROGRESS_NUM_RESOLVE_AIRWAY_STEPS))).
  { intros r Hr. unfold returnIf.
    destruct (Hres PROGRESS_NUM_RESOLVE_AIRWAY_STEPS r Hr) as (r' & more & -> & Ht & Hd).
    exists (setAborted false r'), more. now repeat split. }
  unfold postProcess. cbv zeta. rewrite Hval, Hrep, Hdrop, Hvac, Han. cbn [when].
  unfold void.
  match goal with |- context [match ?b run with _ => _ end] =>
    assert (Hends : ends b) end.
  { unfold commit.
    repeat first
      [ apply (ends_validation Hall)
      | apply ends_seq; [goes_on Hresolver|] ]. }
  destruct (Hends run Hrun) as (r & l & more & -> & Hlast & Hd & Ha).
  split; [exact Hlast|]. exists l, more. split; [exact Hd|exact Ha].
Qed.

End Validation.

Section CompilerRuns.
Import Nav NavSteps.

(** The handler and the resolver of the runs. *)
Lemma never_quiet : quiet never.
Proof. intros l. reflexivity. Qed.

Lemma resolveAtOnce_adds (n : Z) : adds (returnIf (resolveAtOnce never n)) n.
Proof. apply adds_report, never_quiet. Qed.

(** The theorem for FSX at three scenery areas of which two have files. *)
Lemma fsx_p3d_steps_are_counted_witness :
  let loaded := (loadFsxP3dMsfsPost (runOptions FSX) never
                   (createSchemaInternal (Some never) freshRun)).2 in
  steps (done (postProcess (runOptions FSX) resolveAtOnce never ∅ loaded)) = 8 + 1140 /\
  (countFsxP3dSteps (runOptions FSX) never sceneryAreas freshRun).2 = 7 + 2 + 8 + 1140.
Proof.
  intros loaded.
  destruct (fsx_p3d_steps_are_counted (runOptions FSX) resolveAtOnce never ∅
              sceneryAreas freshRun freshRun never_quiet resolveAtOnce_adds
              eq_refl ltac:(discriminate) ltac:(discriminate)
              eq_refl eq_refl eq_refl eq_refl eq_refl) as (H1 & H2 & H3).
  cbv zeta in H2, H3. fold loaded in H2, H3.
  change (steps (done freshRun)) with 0 in *.
  change (countMsSimSteps (runOptions FSX)) with 1140 in *.
  change PROGRESS_NUM_SCHEMA_STEPS with 8 in *.
  change (numberOfFiles (withFiles sceneryAreas)) with 7 in H3.
  change (Z.of_nat (length (withFiles sceneryAreas))) with 2 in H3.
  split; lia.
Defined.

(** The theorem for MSFS at the same areas. *)
Lemma msfs_steps_counted_exceed_reported_by_9_witness :
  let loaded := (loadFsxP3dMsfsPost (runOptions SimMSFS) never
                   (createSchemaInternal (Some never) freshRun)).2 in
  steps (done (postProcess (runOptions SimMSFS) resolveAtOnce never ∅ loaded)) = 8 + 1131 /\
  (countMsfsSteps (runOptions SimMSFS) never sceneryAreas freshRun).2 = 7 + 2 + 8 + 1140.
Proof.
  intros loaded.
  destruct (msfs_steps_counted_exceed_reported_by_9 (runOptions SimMSFS) resolveAtOnce never ∅
              sceneryAreas freshRun freshRun never_quiet resolveAtOnce_adds
              eq_refl eq_refl ltac:(discriminate)
              eq_refl eq_refl eq_refl eq_refl eq_refl) as (H1 & _ & H3).
  cbv zeta in H1, H3. fold loaded in H1, H3.
  change (steps (done freshRun)) with 0 in *.
  change (countMsSimSteps (runOptions SimMSFS)) with 1140 in *.
  change PROGRESS_NUM_SCHEMA_STEPS with 8 in *.
  change PROGRESS_NUM_SCRIPT_STEPS with 10 in *.
  change (numberOfFiles (withFiles sceneryAreas)) with 7 in H3.
  change (Z.of_nat (length (withFiles sceneryAreas))) with 2 in H3.
  split; lia.
Defined.

(** The theorem for FSX and a handler that asks to abort once more than
    1015 steps are reported: the run ends at the report of the third
    task. *)
Lemma postProcess_stops_at_the_aborted_report_witness :
  endsAborted (abortAfter 1015)
    (postProcess (runOptions FSX) resolveAtOnce (abortAfter 1015) ∅ freshRun) /\
  scripts (done (postProcess (runOptions FSX) resolveAtOnce (abortAfter 1015) ∅ freshRun)) =
    [":/atools/resources/sql/fs/db/update_vor.sql"%string].
Proof.
  split; [|reflexivity].
  apply (postProcess_stops_at_the_aborted_report (runOptions FSX) resolveAtOnce
           (abortAfter 1015) ∅ freshRun); try reflexivity.
  apply stops_report.
Defined.

(** The theorem at three tables of which the second has too few rows and
    the third is not found. *)
Lemma basicValidation_flags_small_tables_witness :
  let result := basicValidation validationOptions never {[ "airport"%string := 20; "ndb"%string := 0 ]}
                                freshRun in
  thrown result.2 = Some "vor"%string /\ validationError result.2 = true.
Proof.
  intros result.
  destruct (basicValidation_flags_small_tables validationOptions never
              {[ "airport"%string := 20; "ndb"%string := 0 ]}
              [("airport", 10); ("ndb", 1)]%string [("vor", 5)]%string freshRun)
    as (_ & _ & _ & _ & Hgo).
  - reflexivity.
  - intros entry Hin. apply elem_of_cons in Hin as [->|Hin]; [now exists 20|].
    apply list_elem_of_singleton in Hin as ->. now exists 0.
  - intros entry Hhead. injection Hhead as <-. reflexivity.
  - reflexivity.
  - destruct (Hgo eq_refl) as (Hthrown & Herror).
    split; [exact Hthrown|]. apply Herror. right.
    apply Exists_cons_tl, Exists_cons_hd. exists 0. split; [reflexivity|]. cbn. lia.
Defined.

(** The handler asks to abort at the report of the basic validation only,
    and the resolver of the runs is not aborted by it. *)
Lemma abortAtValidation_only (l : list Step) :
  abortAtValidation l = true -> last l = Some (Report "Basic Validation" 1).
Proof.
  unfold abortAtValidation.
  destruct (last l) as [[message increment| | | |]|]; try discriminate.
  intros E. apply andb_true_iff in E as [E1 E2].
  apply String.eqb_eq in E1. apply Z.eqb_eq in E2. now subst.
Qed.

Lemma resolveAtOnce_goes (n : Z) (r : Run) :
  thrown r = None ->
  exists r' more,
    resolveAtOnce abortAtValidation n r = (false, r') /\ thrown r' = None /\
    done r' = done r ++ more.
Proof.
  intros Hr. exists (did (Report "Creating airways" n) r), [Report "Creating airways" n].
  split; [|split; [exact Hr|reflexivity]].
  unfold resolveAtOnce, reportOtherInc. cbv zeta. apply pair_equal_spec. split; [|reflexivity].
  unfold abortAtValidation. cbn [done did]. now rewrite last_snoc.
Qed.

(** The theorem for FSX and a handler that asks to abort at the report of
    the basic validation: the run goes on to its end with [aborted] set. *)
Lemma aborted_validation_does_not_end_the_run_witness :
  let run' := postProcess validationOptions resolveAtOnce abortAtValidation rowCounts freshRun in
  last (done run') = Some (Task "reportFinish") /\ aborted run' = true /\
  validationError run' = false.
Proof.
  intros run'.
  destruct (aborted_validation_does_not_end_the_run validationOptions abortAtValidation
              rowCounts resolveAtOnce abortAtValidation_only freshRun resolveAtOnce_goes)
    as (Hlast & l & more & Hdone & Haborted); try reflexivity.
  - intros entry Hin.
    apply elem_of_cons in Hin as [->|Hin]; [now exists 20|].
    apply elem_of_cons in Hin as [->|Hin]; [now exists 0|].
    apply list_elem_of_singleton in Hin as ->. now exists 7.
  - fold run' in Hlast, Haborted. split; [exact Hlast|]. split; [|reflexivity].
    rewrite Haborted. unfold abortAtValidation.
    now rewrite !app_assoc, last_snoc.
Defined.

End CompilerRuns.
